(** * Auto-Attendance-system: the browser client and the confirmation engine

    A shallow embedding of the React pages of the attendance front end
    (StudentList, AttendanceHistoryPage, AttendancePage, DashboardPage,
    StudentForm, App) and of the per-track confirmation state machine the
    server runs, with the properties the specification states about them
    and further properties read off the code.

    Conventions.
    - React state is a record; a handler is a function from state to state.
      State updater callbacks ([setX (prev => ...)]) are applied in the order
      in which the handler queued them.
    - Browser objects reached through refs (WebSocket, interval timers, media
      tracks) live in an explicit store indexed by object identity, so that
      several references to one object alias.
    - JavaScript numbers are IEEE-754 binary64 values.  Module [Double] gives
      the finite ones as the rationals they denote and rounds after every
      arithmetic operation. *)

From Stdlib Require Import ZArith QArith Qround Qabs Qpower Qminmax Lia Lqa List Bool String.
From Stdlib Require Import PrimFloat FloatOps SpecFloat.
From stdpp Require Import base option list gmap strings pretty.

Set Default Proof Using "Type".
Local Open Scope Z_scope.

(* ===================================================================== *)
(** * JavaScript numbers                                                  *)
(* ===================================================================== *)

Module Double.

(** A finite binary64 value, as the rational it denotes.  Every arithmetic
    operation computes the exact rational result and rounds it to the
    nearest binary64 value, ties to even ([fl]), as IEEE 754 prescribes.
    Infinities and NaN are outside this type: a quotient whose divisor is
    zero has no value here ([ddiv] returns [None]). *)
Definition number := Q.
Bind Scope Q_scope with number.

(** Significand width and the exponent of the subnormal grid. *)
Definition prec : Z := 53.
Definition emin : Z := -1074.

(** floor (log2 |x|) for x <> 0 *)
Definition Qlog2 (x : Q) : Z :=
  let k := Z.log2 (Z.abs (Qnum x)) - Z.log2 (Zpos (Qden x)) in
  if Qle_bool (2 ^ k) (Qabs x) then k else k - 1.

(** The exponent of the grid [2^e * Z] on which [x] is rounded. *)
Definition exponent (x : Q) : Z := Z.max (Qlog2 x - (prec - 1)) emin.

(** Nearest integer, ties to even. *)
Definition rne (y : Q) : Z :=
  let f := Qfloor y in
  match (y - inject_Z f ?= 1 # 2)%Q with
  | Lt => f
  | Gt => f + 1
  | Eq => if Z.even f then f else f + 1
  end.

Definition fl (x : Q) : number :=
  if Qeq_bool x 0 then 0%Q
  else let e := exponent x in
       Qred (inject_Z (rne (x * 2 ^ (- e))) * 2 ^ e).

(** [x + y], [x * y] *)
Definition dadd (x y : number) : number := fl (x + y).
Definition dmul (x y : number) : number := fl (x * y).

(** [x / y] for a divisor known not to be zero. *)
Definition divide (x y : number) : number := fl (x / y).

(** [x / y]: finite exactly when the divisor is not zero. *)
Definition ddiv (x y : number) : option number :=
  if Qeq_bool y 0 then None else Some (divide x y).

(** [x - y] *)
Definition dsub (x y : number) : number := fl (x - y).

(** [x > y] *)
Definition gt (x y : number) : bool := negb (Qle_bool x y).

(** [Math.round]: the nearest integer, ties towards plus infinity. *)
Definition Math_round (x : number) : number := inject_Z (Qfloor (x + (1 # 2))).

(** [Math.min] *)
Definition Math_min (x y : number) : number := if Qle_bool x y then x else y.

(** The finite binary64 values: [m * 2^e] with a significand of at most 53
    bits and an exponent not below the subnormal one. *)
Definition representable (x : Q) : Prop :=
  exists m e : Z, (Z.abs m <= 2 ^ prec)%Z /\ (emin <= e)%Z /\ x == inject_Z m * 2 ^ e.

(** Reading a hardware binary64 value, to compare [fl] with the processor. *)
Definition of_float (f : float) : option Q :=
  match Prim2SF f with
  | S754_zero _ => Some 0%Q
  | S754_finite s m e =>
      Some (Qred ((if s then -1 else 1) * inject_Z (Zpos m) * 2 ^ e))
  | _ => None
  end.

Section Rounding.
Local Open Scope Q_scope.

(** ** The rounding agrees with hardware arithmetic *)

Example hardware_div_29_200 : of_float (29 / 200)%float = Some (divide 29 200).
Proof. vm_compute. reflexivity. Qed.

Example hardware_mul_100 :
  of_float ((29 / 200) * 100)%float = Some (dmul (divide 29 200) 100).
Proof. vm_compute. reflexivity. Qed.

Example hardware_third : of_float (1 / 3)%float = Some (divide 1 3).
Proof. vm_compute. reflexivity. Qed.

Example hardware_negative : of_float (-7 / 3)%float = Some (divide (-7) 3).
Proof. vm_compute. reflexivity. Qed.

Example hardware_sum_above_2p53 :
  of_float (9007199254740992 + 3)%float = Some (dadd 9007199254740992 3).
Proof. vm_compute. reflexivity. Qed.

Example hardware_subnormal_tie :
  of_float (0x1p-1074 * 1.5)%float = Some (dmul (2 ^ (-1074)) (3 # 2)).
Proof. vm_compute. reflexivity. Qed.

(** ** Properties of rounding *)

Lemma two_neq_0 : ~ 2 == 0.
Proof. discriminate. Qed.

Lemma pow2_pos (e : Z) : 0 < 2 ^ e.
Proof. apply Qpower_0_lt. reflexivity. Qed.

Lemma pow2_add (a b : Z) : 2 ^ (a + b) == 2 ^ a * 2 ^ b.
Proof. apply Qpower_plus, two_neq_0. Qed.

Lemma pow2_le (a b : Z) : (a <= b)%Z -> 2 ^ a <= 2 ^ b.
Proof. intros H. apply Qpower_le_compat_l; [exact H | discriminate]. Qed.

Lemma pow2_cancel (e : Z) : 2 ^ (- e) * 2 ^ e == 1.
Proof. rewrite <- pow2_add. replace (- e + e)%Z with 0%Z by lia. reflexivity. Qed.

Lemma pow2_inject (n : Z) : (0 <= n)%Z -> inject_Z (2 ^ n) == 2 ^ n.
Proof. intros H. apply (Zpower_Qpower 2 n H). Qed.

(** Scaling by a power of two and back. *)
Lemma scale_back (x : Q) (e : Z) : x * 2 ^ (- e) * 2 ^ e == x.
Proof. rewrite <- Qmult_assoc, pow2_cancel. apply Qmult_1_r. Qed.

Lemma Qabs_num_den (x : Q) :
  Qabs x == inject_Z (Z.abs (Qnum x)) / inject_Z (Zpos (Qden x)).
Proof. destruct x as [n d]. unfold Qabs. simpl. apply Qmake_Qdiv. Qed.

Lemma Qlog2_spec (x : Q) :
  ~ x == 0 -> 2 ^ Qlog2 x <= Qabs x /\ Qabs x < 2 ^ (Qlog2 x + 1).
Proof.
  intros Hx.
  set (n := Z.abs (Qnum x)). set (d := Zpos (Qden x)).
  assert (Hn : (0 < n)%Z).
  { unfold n. destruct x as [[|p|p] q]; simpl; try lia.
    exfalso. apply Hx. reflexivity. }
  assert (Hd : (0 < d)%Z) by (unfold d; lia).
  destruct (Z.log2_spec n Hn) as [Hn1 Hn2].
  destruct (Z.log2_spec d Hd) as [Hd1 Hd2].
  assert (Hln : (0 <= Z.log2 n)%Z) by apply Z.log2_nonneg.
  assert (Hld : (0 <= Z.log2 d)%Z) by apply Z.log2_nonneg.
  assert (Habs : Qabs x == inject_Z n / inject_Z d) by apply Qabs_num_den.
  assert (Hdq : 0 < inject_Z d).
  { replace 0 with (inject_Z 0) by reflexivity. rewrite <- Zlt_Qlt. exact Hd. }
  assert (Hup : Qabs x < 2 ^ (Z.log2 n - Z.log2 d + 1)).
  { rewrite Habs. apply Qlt_shift_div_r; [exact Hdq|].
    apply Qlt_le_trans with (inject_Z (2 ^ Z.succ (Z.log2 n))).
    - rewrite <- Zlt_Qlt. exact Hn2.
    - rewrite pow2_inject by lia.
      apply Qle_trans with (2 ^ (Z.log2 n - Z.log2 d + 1) * 2 ^ Z.log2 d).
      + rewrite <- pow2_add. apply pow2_le. lia.
      + apply Qmult_le_l; [apply pow2_pos|].
        rewrite <- pow2_inject by lia. rewrite <- Zle_Qle. exact Hd1. }
  assert (Hlo : 2 ^ (Z.log2 n - Z.log2 d - 1) <= Qabs x).
  { rewrite Habs. apply Qle_shift_div_l; [exact Hdq|].
    apply Qle_trans with (inject_Z (2 ^ Z.log2 n)).
    - rewrite pow2_inject by lia.
      apply Qle_trans with (2 ^ (Z.log2 n - Z.log2 d - 1) * 2 ^ Z.succ (Z.log2 d)).
      + apply Qmult_le_l; [apply pow2_pos|].
        rewrite <- pow2_inject by lia. rewrite <- Zle_Qle. lia.
      + rewrite <- pow2_add. apply pow2_le. lia.
    - rewrite <- Zle_Qle. exact Hn1. }
  unfold Qlog2. fold n. fold d.
  destruct (Qle_bool (2 ^ (Z.log2 n - Z.log2 d)) (Qabs x)) eqn:E.
  - apply Qle_bool_iff in E. split; [exact E | exact Hup].
  - split; [exact Hlo|].
    replace (Z.log2 n - Z.log2 d - 1 + 1)%Z with (Z.log2 n - Z.log2 d)%Z by lia.
    apply Qnot_le_lt. intros H. apply Qle_bool_iff in H. congruence.
Qed.

Lemma rne_le (y : Q) (k : Z) : y <= inject_Z k -> (rne y <= k)%Z.
Proof.
  intros H. unfold rne.
  pose proof (Qfloor_le y) as Hf.
  assert (Hfk : (Qfloor y <= k)%Z).
  { rewrite <- (Qfloor_Z k). apply Qfloor_resp_le, H. }
  destruct (Z.eq_dec (Qfloor y) k) as [Heq|Hne].
  - assert (Hy : y - inject_Z (Qfloor y) == 0).
    { rewrite Heq. apply Qle_antisym.
      - apply (Qplus_le_l _ _ (inject_Z k)). ring_simplify. exact H.
      - apply (Qplus_le_l _ _ (inject_Z k)). ring_simplify. rewrite <- Heq. exact Hf. }
    assert (Hc : (y - inject_Z (Qfloor y) ?= 1 # 2) = Lt).
    { apply Qlt_alt. rewrite Hy. reflexivity. }
    rewrite Hc. exact Hfk.
  - destruct (y - inject_Z (Qfloor y) ?= 1 # 2); [destruct (Z.even (Qfloor y))| |]; lia.
Qed.

Lemma rne_ge (y : Q) (k : Z) : inject_Z k <= y -> (k <= rne y)%Z.
Proof.
  intros H. unfold rne.
  assert (Hfk : (k <= Qfloor y)%Z).
  { rewrite <- (Qfloor_Z k). apply Qfloor_resp_le, H. }
  destruct (y - inject_Z (Qfloor y) ?= 1 # 2); [destruct (Z.even (Qfloor y))| |]; lia.
Qed.

Lemma fl_val (x : Q) :
  ~ x == 0 ->
  fl x == inject_Z (rne (x * 2 ^ (- exponent x))) * 2 ^ exponent x.
Proof.
  intros Hx. unfold fl.
  destruct (Qeq_bool x 0) eqn:E.
  - apply Qeq_bool_iff in E. contradiction.
  - apply Qred_correct.
Qed.

Lemma fl_0 (x : Q) : x == 0 -> fl x == 0.
Proof.
  intros Hx. unfold fl.
  apply Qeq_bool_iff in Hx. rewrite Hx. reflexivity.
Qed.

Lemma fl_nonneg (x : Q) : 0 <= x -> 0 <= fl x.
Proof.
  intros Hx. destruct (Qeq_dec x 0) as [H0|H0].
  - rewrite (fl_0 x H0). apply Qle_refl.
  - rewrite (fl_val x H0).
    apply Qmult_le_0_compat; [|apply Qlt_le_weak, pow2_pos].
    replace 0 with (inject_Z 0) by reflexivity. rewrite <- Zle_Qle.
    apply rne_ge. simpl.
    apply Qmult_le_0_compat; [exact Hx | apply Qlt_le_weak, pow2_pos].
Qed.

Lemma representable_Z (n : Z) : (Z.abs n <= 2 ^ prec)%Z -> representable (inject_Z n).
Proof.
  intros H. exists n, 0%Z. split; [exact H|]. split; [unfold emin; lia|].
  simpl. symmetry. apply Qmult_1_r.
Qed.

(** A value at or above the normal range of its exponent. *)
Lemma exponent_normal (x : Q) :
  ~ x == 0 -> (emin < exponent x)%Z -> 2 ^ (exponent x + (prec - 1)) <= Qabs x.
Proof.
  intros Hx He. unfold exponent in *.
  replace (Z.max (Qlog2 x - (prec - 1)) emin) with (Qlog2 x - (prec - 1))%Z by lia.
  replace (Qlog2 x - (prec - 1) + (prec - 1))%Z with (Qlog2 x) by lia.
  apply (Qlog2_spec x Hx).
Qed.

(** [m * 2^er] on the grid of a smaller exponent [e]. *)
Lemma on_grid (m er e : Z) :
  (e <= er)%Z -> inject_Z m * 2 ^ er == inject_Z (m * 2 ^ (er - e)) * 2 ^ e.
Proof.
  intros H. rewrite inject_Z_mult, pow2_inject by lia.
  rewrite <- Qmult_assoc, <- pow2_add.
  replace (er - e + e)%Z with er by lia. reflexivity.
Qed.

Lemma scaled_le (x r : Q) (e : Z) : x <= r * 2 ^ e -> x * 2 ^ (- e) <= r.
Proof.
  intros H. apply (Qmult_le_r _ _ (2 ^ e)); [apply pow2_pos|].
  rewrite scale_back. exact H.
Qed.

Lemma scaled_ge (x r : Q) (e : Z) : r * 2 ^ e <= x -> r <= x * 2 ^ (- e).
Proof.
  intros H. apply (Qmult_le_r _ _ (2 ^ e)); [apply pow2_pos|].
  rewrite scale_back. exact H.
Qed.

(** Rounding to nearest never crosses a representable value. *)
Lemma fl_le_repr (x r : Q) : 0 < x -> x <= r -> representable r -> fl x <= r.
Proof.
  intros Hx Hxr (m & er & Hm & Her & Hr).
  assert (Hx0 : ~ x == 0) by (intros H; rewrite H in Hx; discriminate).
  rewrite (fl_val x Hx0). set (e := exponent x).
  destruct (Z_le_gt_dec e er) as [Hle|Hgt].
  - rewrite Hr, (on_grid m er e Hle).
    apply Qmult_le_compat_r; [|apply Qlt_le_weak, pow2_pos].
    rewrite <- Zle_Qle. apply rne_le. apply scaled_le.
    rewrite <- (on_grid m er e Hle), <- Hr. exact Hxr.
  - assert (He : (emin < e)%Z) by lia.
    pose proof (exponent_normal x Hx0 He) as Hn. fold e in Hn.
    rewrite (Qabs_pos x) in Hn by (apply Qlt_le_weak, Hx).
    assert (Hr2 : r <= 2 ^ (e + (prec - 1))).
    { rewrite Hr. apply Qle_trans with (inject_Z (2 ^ prec) * 2 ^ er).
      - apply Qmult_le_compat_r; [|apply Qlt_le_weak, pow2_pos].
        rewrite <- Zle_Qle. lia.
      - rewrite pow2_inject by (unfold prec; lia). rewrite <- pow2_add.
        apply pow2_le. lia. }
    apply Qle_trans with (2 ^ (e + (prec - 1))); [|apply Qle_trans with x; assumption].
    rewrite (Z.add_comm e), pow2_add, <- (pow2_inject (prec - 1)) by (unfold prec; lia).
    apply Qmult_le_compat_r; [|apply Qlt_le_weak, pow2_pos].
    rewrite <- Zle_Qle. apply rne_le. apply scaled_le.
    rewrite pow2_inject by (unfold prec; lia). rewrite <- pow2_add, (Z.add_comm _ e).
    apply Qle_trans with r; assumption.
Qed.

Lemma fl_ge_repr (x r : Q) : 0 < r -> r <= x -> representable r -> r <= fl x.
Proof.
  intros Hr0 Hrx (m & er & Hm & Her & Hr).
  assert (Hx : 0 < x) by (apply Qlt_le_trans with r; assumption).
  assert (Hx0 : ~ x == 0) by (intros H; rewrite H in Hx; discriminate).
  rewrite (fl_val x Hx0). set (e := exponent x).
  destruct (Z_le_gt_dec e er) as [Hle|Hgt].
  - rewrite Hr, (on_grid m er e Hle).
    apply Qmult_le_compat_r; [|apply Qlt_le_weak, pow2_pos].
    rewrite <- Zle_Qle. apply rne_ge. apply scaled_ge.
    rewrite <- (on_grid m er e Hle), <- Hr. exact Hrx.
  - assert (He : (emin < e)%Z) by lia.
    pose proof (exponent_normal x Hx0 He) as Hn. fold e in Hn.
    rewrite (Qabs_pos x) in Hn by (apply Qlt_le_weak, Hx).
    assert (Hr2 : r <= 2 ^ (e + (prec - 1))).
    { rewrite Hr. apply Qle_trans with (inject_Z (2 ^ prec) * 2 ^ er).
      - apply Qmult_le_compat_r; [|apply Qlt_le_weak, pow2_pos].
        rewrite <- Zle_Qle. lia.
      - rewrite pow2_inject by (unfold prec; lia). rewrite <- pow2_add.
        apply pow2_le. lia. }
    apply Qle_trans with (2 ^ (e + (prec - 1))); [exact Hr2|].
    rewrite (Z.add_comm e), pow2_add, <- (pow2_inject (prec - 1)) by (unfold prec; lia).
    apply Qmult_le_compat_r; [|apply Qlt_le_weak, pow2_pos].
    rewrite <- Zle_Qle. apply rne_ge. apply scaled_ge.
    rewrite pow2_inject by (unfold prec; lia). rewrite <- pow2_add, (Z.add_comm _ e).
    exact Hn.
Qed.

(** ** Comparisons and the values 1 and 100 *)

Lemma gt_true (x y : Q) : y < x -> gt x y = true.
Proof.
  intros H. unfold gt. destruct (Qle_bool x y) eqn:E; [|reflexivity].
  apply Qle_bool_iff in E. exfalso. exact (Qlt_not_le _ _ H E).
Qed.

Lemma one_representable : representable 1.
Proof. apply (representable_Z 1). unfold prec. lia. Qed.

Lemma hundred_representable : representable 100.
Proof. apply (representable_Z 100). unfold prec. lia. Qed.

(** Rounding keeps a value of [0, r] in [0, r] when [r] is a binary64
    value. *)
Lemma fl_within (x r : Q) :
  0 <= x -> x <= r -> representable r -> 0 <= fl x /\ fl x <= r.
Proof.
  intros H0 Hr Hrep. split; [apply fl_nonneg, H0|].
  destruct (Qeq_dec x 0) as [Hz|Hnz].
  - rewrite (fl_0 x Hz). apply Qle_trans with x; assumption.
  - apply fl_le_repr; [|exact Hr|exact Hrep].
    apply Qle_lteq in H0. destruct H0 as [H0|H0]; [exact H0|].
    exfalso. apply Hnz. symmetry. exact H0.
Qed.

(** ** The rounding error *)

Lemma rne_error (y : Q) : Qabs (inject_Z (rne y) - y) <= 1 # 2.
Proof.
  pose proof (Qfloor_le y) as Hlo. pose proof (Qlt_floor y) as Hhi.
  rewrite inject_Z_plus in Hhi. change (inject_Z 1) with 1 in Hhi.
  unfold rne. set (f := Qfloor y) in *.
  apply Qabs_Qle_condition.
  destruct (Qcompare_spec (y - inject_Z f) (1 # 2)) as [He|Hl|Hg].
  - destruct (Z.even f); rewrite ?inject_Z_plus; change (inject_Z 1) with 1; lra.
  - lra.
  - rewrite inject_Z_plus. change (inject_Z 1) with 1. lra.
Qed.

Lemma fl_error (x : Q) :
  ~ x == 0 -> Qabs (fl x - x) <= (1 # 2) * 2 ^ exponent x.
Proof.
  intros Hx. rewrite (fl_val x Hx). set (e := exponent x).
  pose proof (rne_error (x * 2 ^ (- e))) as Hr.
  pose proof (pow2_pos e) as He.
  assert (E : inject_Z (rne (x * 2 ^ (- e))) * 2 ^ e - x ==
              (inject_Z (rne (x * 2 ^ (- e))) - x * 2 ^ (- e)) * 2 ^ e).
  { set (r := inject_Z (rne (x * 2 ^ (- e)))).
    transitivity (r * 2 ^ e - x * 2 ^ (- e) * 2 ^ e); [|ring].
    rewrite (scale_back x e). reflexivity. }
  rewrite E, Qabs_Qmult, (Qabs_pos (2 ^ e)) by lra.
  apply Qmult_le_compat_r; [exact Hr | lra].
Qed.

Lemma Qlog2_lt (x : Q) (k : Z) : ~ x == 0 -> Qabs x < 2 ^ k -> (Qlog2 x < k)%Z.
Proof.
  intros Hx Hk. destruct (Qlog2_spec x Hx) as [Hlo _].
  apply (Qpower_lt_compat_l_inv 2); [|reflexivity].
  apply Qle_lt_trans with (Qabs x); assumption.
Qed.

Lemma fl_error_below (x : Q) (k : Z) :
  (emin + prec <= k)%Z -> Qabs x < 2 ^ k ->
  Qabs (fl x - x) <= 2 ^ (k - prec - 1).
Proof.
  intros Hk Hx. destruct (Qeq_dec x 0) as [H0|H0].
  - rewrite (fl_0 x H0), H0. simpl. apply Qlt_le_weak, pow2_pos.
  - apply Qle_trans with ((1 # 2) * 2 ^ exponent x); [apply fl_error, H0|].
    pose proof (Qlog2_lt x k H0 Hx) as Hl.
    assert (He : (exponent x <= k - prec)%Z) by (unfold exponent, prec in *; lia).
    replace (k - prec - 1)%Z with (-1 + (k - prec))%Z by lia.
    rewrite pow2_add. change (2 ^ (-1)) with (1 # 2).
    apply Qmult_le_l; [reflexivity|]. apply pow2_le, He.
Qed.

Lemma fl_repr (x : Q) : 0 <= x -> representable x -> fl x == x.
Proof.
  intros Hx Hr. destruct (Qeq_dec x 0) as [H0|H0].
  - rewrite (fl_0 x H0). symmetry. exact H0.
  - assert (Hpos : 0 < x) by (apply Qle_lteq in Hx; destruct Hx as [H|H]; [exact H|];
                              exfalso; apply H0; symmetry; exact H).
    apply Qle_antisym.
    + apply fl_le_repr; [exact Hpos | apply Qle_refl | exact Hr].
    + apply fl_ge_repr; [exact Hpos | apply Qle_refl | exact Hr].
Qed.

End Rounding.

(** ** Negative numbers, integers and integer quotients *)

Section Signs.
Local Open Scope Q_scope.

Lemma inject_Z_minus (a b : Z) : inject_Z (a - b) == inject_Z a - inject_Z b.
Proof. unfold Z.sub. rewrite inject_Z_plus, inject_Z_opp. reflexivity. Qed.

Lemma Qfloor_unique (y : Q) (n : Z) :
  inject_Z n <= y -> y < inject_Z n + 1 -> Qfloor y = n.
Proof.
  intros Hlo Hhi.
  pose proof (Qfloor_le y) as L. pose proof (Qlt_floor y) as U.
  rewrite inject_Z_plus in U. change (inject_Z 1) with 1 in U.
  assert (H1 : inject_Z (Qfloor y) < inject_Z n + 1) by lra.
  assert (H2 : inject_Z n < inject_Z (Qfloor y) + 1) by lra.
  change 1 with (inject_Z 1) in H1, H2.
  rewrite <- inject_Z_plus, <- Zlt_Qlt in H1, H2. lia.
Qed.

Lemma rne_wd (y y' : Q) : y == y' -> rne y = rne y'.
Proof.
  intros H. unfold rne. rewrite (Qfloor_comp y y' H).
  assert (E : (y - inject_Z (Qfloor y') ?= 1 # 2) = (y' - inject_Z (Qfloor y') ?= 1 # 2)).
  { apply Qcompare_comp; [rewrite H|]; reflexivity. }
  rewrite E. reflexivity.
Qed.

Lemma rne_Z (k : Z) : rne (inject_Z k) = k.
Proof.
  apply Z.le_antisymm; [apply rne_le | apply rne_ge]; apply Qle_refl.
Qed.

Lemma rne_opp (y : Q) : rne (- y) = (- rne y)%Z.
Proof.
  pose proof (Qfloor_le y) as L. pose proof (Qlt_floor y) as U.
  pose proof (Qfloor_le (- y)) as L'. pose proof (Qlt_floor (- y)) as U'.
  rewrite inject_Z_plus in U, U'. change (inject_Z 1) with 1 in U, U'.
  unfold rne. set (f := Qfloor y) in *. set (g := Qfloor (- y)) in *.
  assert (Hg : (g = - f \/ g = - f - 1)%Z).
  { assert (H1 : inject_Z g < inject_Z (- f + 1)).
    { rewrite inject_Z_plus, inject_Z_opp. change (inject_Z 1) with 1. lra. }
    assert (H2 : inject_Z (- f - 2) < inject_Z g).
    { unfold Z.sub. rewrite inject_Z_plus, inject_Z_opp. change (inject_Z (- (2))) with (-2). lra. }
    rewrite <- Zlt_Qlt in H1, H2. lia. }
  destruct Hg as [Hg|Hg]; rewrite Hg in *.
  - (* y is the integer f *)
    rewrite inject_Z_opp in L'.
    assert (Hy : y == inject_Z f) by lra.
    assert (C1 : (y - inject_Z f ?= 1 # 2) = Lt). { apply (proj1 (Qlt_alt _ _)); lra. }
    assert (C2 : (- y - inject_Z (- f) ?= 1 # 2) = Lt).
    { apply (proj1 (Qlt_alt _ _)). rewrite inject_Z_opp. lra. }
    rewrite C1, C2. reflexivity.
  - assert (Ei : inject_Z (- f - 1) == - inject_Z f - 1).
    { unfold Z.sub. rewrite inject_Z_plus, inject_Z_opp. reflexivity. }
    assert (Hev : Z.even (- f - 1) = negb (Z.even f)).
    { rewrite Z.even_sub, Z.even_opp. simpl. destruct (Z.even f); reflexivity. }
    destruct (Qcompare_spec (y - inject_Z f) (1 # 2)) as [He|Hl|Hgt].
    + assert (C2 : (- y - inject_Z (- f - 1) ?= 1 # 2) = Eq) by (apply (proj1 (Qeq_alt _ _)); lra).
      rewrite C2, Hev. destruct (Z.even f); simpl; lia.
    + assert (C2 : (- y - inject_Z (- f - 1) ?= 1 # 2) = Gt) by (apply (proj1 (Qgt_alt _ _)); lra).
      rewrite C2. lia.
    + assert (C2 : (- y - inject_Z (- f - 1) ?= 1 # 2) = Lt) by (apply (proj1 (Qlt_alt _ _)); lra).
      rewrite C2. lia.
Qed.

Lemma exponent_opp (x : Q) : exponent (- x) = exponent x.
Proof. destruct x as [[|p|p] d]; reflexivity. Qed.

Lemma Qeq_bool_opp (x : Q) : Qeq_bool (- x) 0 = Qeq_bool x 0.
Proof. destruct x as [[|p|p] d]; reflexivity. Qed.

(** Rounding is odd. *)
Lemma fl_opp (x : Q) : fl (- x) == - fl x.
Proof.
  unfold fl. rewrite Qeq_bool_opp, exponent_opp.
  destruct (Qeq_bool x 0); [reflexivity|].
  rewrite !Qred_correct.
  assert (E : - x * 2 ^ (- exponent x) == - (x * 2 ^ (- exponent x))) by ring.
  rewrite (rne_wd _ _ E), rne_opp, inject_Z_opp. ring.
Qed.

Lemma Qopp_opp_eq (x : Q) : - - x = x.
Proof. destruct x as [[|p|p] d]; reflexivity. Qed.

Lemma representable_opp (x : Q) : representable x -> representable (- x).
Proof.
  intros (m & e & Hm & He & Hx). exists (- m)%Z, e.
  split; [lia|]. split; [exact He|]. rewrite Hx, inject_Z_opp. ring.
Qed.

(** A binary64 value rounds to itself. *)
Lemma fl_exact (x : Q) : representable x -> fl x == x.
Proof.
  intros Hr. destruct (Qlt_le_dec x 0) as [Hneg|Hpos].
  - rewrite <- (Qopp_opp_eq x) at 1. rewrite fl_opp.
    rewrite (fl_repr (- x)); [ring | lra | apply representable_opp, Hr].
  - apply fl_repr; assumption.
Qed.

(** A number of [-1, -1/1024] rounds into [-1, -1/1024]. *)
Lemma fl_negative_unit (x : Q) :
  -1 <= x -> x <= - (1 # 1024) -> -1 <= fl x /\ fl x <= - (1 # 1024).
Proof.
  intros Hlo Hhi.
  assert (Hp : 0 < - x) by lra.
  assert (R1 : representable 1) by apply one_representable.
  assert (R2 : representable (1 # 1024)).
  { exists 1%Z, (-10)%Z. unfold prec, emin. repeat split; lia. }
  assert (Hu : fl (- x) <= 1) by (apply fl_le_repr; [exact Hp | lra | exact R1]).
  assert (Hl : 1 # 1024 <= fl (- x)) by (apply fl_ge_repr; [reflexivity | lra | exact R2]).
  rewrite fl_opp in Hu, Hl. split; lra.
Qed.

(** The integer quotient of two small non-negative integers is what
    [Math.floor(s / d)] computes: the rounding of [s / d] never reaches
    the next integer. *)
Lemma floor_divide (s d : Z) :
  (0 <= s < 2 ^ 32)%Z -> (0 < d <= 2 ^ 16)%Z ->
  Qfloor (divide (inject_Z s) (inject_Z d)) = (s / d)%Z.
Proof.
  intros Hs Hd. unfold divide.
  set (x := inject_Z s / inject_Z d).
  pose proof (Z.div_mod s d ltac:(lia)) as Hdm.
  pose proof (Z.mod_pos_bound s d ltac:(lia)) as Hmod.
  pose proof (Z.div_pos s d ltac:(lia) ltac:(lia)) as Hn0.
  assert (Hnle : (s / d <= s)%Z) by (apply Z.div_le_upper_bound; nia).
  set (n := (s / d)%Z) in *. set (r := (s mod d)%Z) in *.
  assert (Hd0 : 0 < inject_Z d).
  { change 0 with (inject_Z 0). rewrite <- Zlt_Qlt. lia. }
  assert (Hx : x == inject_Z n + inject_Z r / inject_Z d).
  { unfold x. rewrite Hdm, inject_Z_plus, inject_Z_mult. field. lra. }
  assert (Hr0 : 0 <= inject_Z r / inject_Z d).
  { apply Qle_shift_div_l; [exact Hd0|]. rewrite Qmult_0_l.
    change 0 with (inject_Z 0). rewrite <- Zle_Qle. lia. }
  assert (Hr1 : inject_Z r / inject_Z d <= 1 - (1 # 65536)).
  { apply Qle_shift_div_r; [exact Hd0|].
    assert (inject_Z r <= inject_Z d - 1).
    { change 1 with (inject_Z 1). rewrite <- inject_Z_minus, <- Zle_Qle. lia. }
    assert (inject_Z d <= 65536).
    { change 65536 with (inject_Z (2 ^ 16)). rewrite <- Zle_Qle. lia. }
    lra. }
  assert (Hn : 0 <= inject_Z n).
  { change 0 with (inject_Z 0). rewrite <- Zle_Qle. lia. }
  assert (Hxs : x < 2 ^ 32).
  { apply Qle_lt_trans with (inject_Z s).
    - unfold x. apply Qle_shift_div_r; [exact Hd0|].
      assert (1 <= inject_Z d) by (change 1 with (inject_Z 1); rewrite <- Zle_Qle; lia).
      assert (0 <= inject_Z s) by (change 0 with (inject_Z 0); rewrite <- Zle_Qle; lia).
      nra.
    - change (2 ^ 32) with (inject_Z (2 ^ 32)). rewrite <- Zlt_Qlt. lia. }
  assert (Herr : Qabs (fl x - x) <= 2 ^ (32 - prec - 1)).
  { apply fl_error_below; [unfold emin, prec; lia|]. rewrite Qabs_pos by lra. exact Hxs. }
  change (2 ^ (32 - prec - 1)) with (1 # 4194304) in Herr.
  apply Qabs_Qle_condition in Herr as [_ Herr].
  assert (Hge : inject_Z n <= fl x).
  { destruct (Z.eq_dec n 0%Z) as [E|E].
    - rewrite E. apply fl_nonneg. lra.
    - apply fl_ge_repr.
      + change 0 with (inject_Z 0). rewrite <- Zlt_Qlt. lia.
      + lra.
      + apply representable_Z. unfold prec. lia. }
  apply Qfloor_unique; lra.
Qed.

End Signs.

Section Congruence.
Local Open Scope Q_scope.

Lemma Qlog2_wd (x y : Q) : ~ x == 0 -> x == y -> Qlog2 x = Qlog2 y.
Proof.
  intros Hx E. assert (Hy : ~ y == 0) by (rewrite <- E; exact Hx).
  destruct (Qlog2_spec x Hx) as [_ Ux]. destruct (Qlog2_spec y Hy) as [_ Uy].
  assert (EA : Qabs x == Qabs y) by (apply Qabs_wd, E).
  assert (Ux' : Qabs y < 2 ^ (Qlog2 x + 1)).
  { apply Qle_lt_trans with (Qabs x); [rewrite EA; apply Qle_refl | exact Ux]. }
  assert (Uy' : Qabs x < 2 ^ (Qlog2 y + 1)).
  { apply Qle_lt_trans with (Qabs y); [rewrite EA; apply Qle_refl | exact Uy]. }
  pose proof (Qlog2_lt y _ Hy Ux'). pose proof (Qlog2_lt x _ Hx Uy'). lia.
Qed.

(** Rounding does not depend on how the rational is written. *)
Lemma fl_wd (x y : Q) : x == y -> fl x == fl y.
Proof.
  intros E. destruct (Qeq_dec x 0) as [H0|H0].
  - rewrite (fl_0 x H0), (fl_0 y); [reflexivity | rewrite <- E; exact H0].
  - assert (Hy : ~ y == 0) by (rewrite <- E; exact H0).
    rewrite (fl_val x H0), (fl_val y Hy).
    unfold exponent. rewrite (Qlog2_wd x y H0 E).
    set (e := Z.max (Qlog2 y - (prec - 1)) emin).
    assert (E' : x * 2 ^ (- e) == y * 2 ^ (- e)) by (rewrite E; reflexivity).
    rewrite (rne_wd _ _ E'). reflexivity.
Qed.

(** A difference of integers that fits the significand is exact. *)
Lemma dsub_exact (a b : Z) :
  (Z.abs (a - b) <= 2 ^ prec)%Z -> dsub (inject_Z a) (inject_Z b) == inject_Z (a - b).
Proof.
  intros H. unfold dsub.
  rewrite (fl_wd _ (inject_Z (a - b))) by (rewrite inject_Z_minus; reflexivity).
  apply fl_exact, representable_Z, H.
Qed.

(** [Math.round] against an integer bound. *)
Lemma Math_round_le (v : Q) (k : Z) : v <= inject_Z k -> (Qfloor (Math_round v) <= k)%Z.
Proof.
  intros H. unfold Math_round. rewrite Qfloor_Z.
  pose proof (Qfloor_le (v + (1 # 2))) as L.
  assert (H1 : inject_Z (Qfloor (v + (1 # 2))) < inject_Z (k + 1)).
  { rewrite inject_Z_plus. change (inject_Z 1) with 1. lra. }
  rewrite <- Zlt_Qlt in H1. lia.
Qed.

Lemma Math_round_ge (v : Q) (k : Z) :
  inject_Z k - (1 # 2) <= v -> (k <= Qfloor (Math_round v))%Z.
Proof.
  intros H. unfold Math_round. rewrite Qfloor_Z.
  pose proof (Qlt_floor (v + (1 # 2))) as U.
  assert (H1 : inject_Z k < inject_Z (Qfloor (v + (1 # 2)) + 1)) by lra.
  rewrite <- Zlt_Qlt in H1. lia.
Qed.

(** A product that does not exceed an integer of the significand's range
    does not round beyond it. *)
Lemma dmul_le (x y : Q) (k : Z) :
  0 <= x * y -> x * y <= inject_Z k -> (0 <= k <= 2 ^ prec)%Z -> dmul x y <= inject_Z k.
Proof.
  intros H0 H Hk. unfold dmul.
  apply (fl_within (x * y) (inject_Z k)); [exact H0 | exact H |].
  apply representable_Z. lia.
Qed.

Lemma dmul_ge (x y : Q) (k : Z) :
  inject_Z k <= x * y -> (0 < k <= 2 ^ prec)%Z -> inject_Z k <= dmul x y.
Proof.
  intros H Hk. unfold dmul. apply fl_ge_repr.
  - change 0 with (inject_Z 0). rewrite <- Zlt_Qlt. lia.
  - exact H.
  - apply representable_Z. lia.
Qed.

End Congruence.

End Double.

(* ===================================================================== *)
(** * StudentList: two-step delete                                        *)
(* ===================================================================== *)

Module StudentList.

(** The rows of [students : any[]], with the properties the component
    reads. *)
Record student := Student {
  id : Z;
  name : string;
  student_id : string;
  email : option string;
  is_active : bool
}.

(** Component state ([useState]) together with what the handler has asked
    of the browser: pending [setTimeout] callbacks, by due time, and the
    DELETE requests handed to [api]. *)
Record state := State {
  students : list student;
  deleteLoading : option Z;
  deleteConfirm : option Z;
  now : Z;                  (* clock, in milliseconds *)
  timeouts : list Z;        (* due times of pending [() => setDeleteConfirm(null)] *)
  requests : list Z;        (* ids of [api.delete(`/students/${id}`)] calls, newest first *)
  awaiting : list Z         (* calls whose promise has not settled *)
}.

Definition init (l : list student) : state :=
  State l None None 0 [] [] [].

Definition setDeleteConfirm (v : option Z) (st : state) : state :=
  State (students st) (deleteLoading st) v (now st) (timeouts st)
        (requests st) (awaiting st).

Definition setDeleteLoading (v : option Z) (st : state) : state :=
  State (students st) v (deleteConfirm st) (now st) (timeouts st)
        (requests st) (awaiting st).

Definition setStudents (f : list student -> list student) (st : state) : state :=
  State (f (students st)) (deleteLoading st) (deleteConfirm st) (now st)
        (timeouts st) (requests st) (awaiting st).

(** [setTimeout(() => setDeleteConfirm(null), ms)] *)
Definition setTimeout (ms : Z) (st : state) : state :=
  State (students st) (deleteLoading st) (deleteConfirm st) (now st)
        (timeouts st ++ [now st + ms]) (requests st) (awaiting st).

(** [api.delete(`/students/${id}`)]: the request leaves, the promise is
    pending. *)
Definition api_delete (i : Z) (st : state) : state :=
  State (students st) (deleteLoading st) (deleteConfirm st) (now st)
        (timeouts st) (i :: requests st) (i :: awaiting st).

(** [deleteConfirm !== id] *)
Definition confirm_is (st : state) (i : Z) : bool :=
  match deleteConfirm st with
  | Some j => Z.eqb j i
  | None => false
  end.

(** [handleDelete(id)] up to its [await]. *)
Definition handleDelete (i : Z) (st : state) : state :=
  if negb (confirm_is st i) then
    setTimeout 3000 (setDeleteConfirm (Some i) st)
  else
    api_delete i (setDeleteLoading (Some i) st).

(** The rest of [handleDelete(id)], run when the awaited promise settles:
    the [try] body on success, the [catch] on failure, then [finally]. *)
Definition handleDelete_settled (i : Z) (ok : bool) (st : state) : state :=
  let st1 :=
    if ok then
      setDeleteConfirm None
        (setStudents (List.filter (fun s => negb (Z.eqb (id s) i))) st)
    else st in
  setDeleteLoading None st1.

(** One settled promise leaves the pending ones. *)
Fixpoint remove_first (i : Z) (l : list Z) : list Z :=
  match l with
  | [] => []
  | j :: r => if Z.eqb i j then r else j :: remove_first i r
  end.

Definition settle (i : Z) (st : state) : state :=
  State (students st) (deleteLoading st) (deleteConfirm st) (now st)
        (timeouts st) (requests st) (remove_first i (awaiting st)).

(** Time passes: every callback that is due runs.  All of them are
    [setDeleteConfirm(null)]. *)
Definition elapse (ms : Z) (st : state) : state :=
  let t := now st + ms in
  let due := List.filter (fun d => Z.leb d t) (timeouts st) in
  let rest := List.filter (fun d => negb (Z.leb d t)) (timeouts st) in
  State (students st) (deleteLoading st)
        (match due with [] => deleteConfirm st | _ => None end)
        t rest (requests st) (awaiting st).

(** What can happen to the mounted component. *)
Inductive event :=
| Click (i : Z)                 (* the row's delete button: [handleDelete(student.id)] *)
| Settled (i : Z) (ok : bool)   (* the response to a DELETE arrives *)
| Elapse (ms : Z).              (* [ms] milliseconds pass *)

Definition step (st : state) (e : event) : state :=
  match e with
  | Click i => handleDelete i st
  | Settled i ok =>
      if existsb (Z.eqb i) (awaiting st)
      then handleDelete_settled i ok (settle i st)
      else st
  | Elapse ms => if Z.leb 0 ms then elapse ms st else st
  end.

Definition run (st : state) (es : list event) : state := fold_left step es st.

Definition is_click (i : Z) (e : event) : bool :=
  match e with Click j => Z.eqb j i | _ => false end.

Definition clicks (i : Z) (es : list event) : nat :=
  length (List.filter (is_click i) es).

(** ** Properties *)

Lemma handleDelete_unarmed (i : Z) (st : state) :
  deleteConfirm st <> Some i ->
  handleDelete i st = setTimeout 3000 (setDeleteConfirm (Some i) st).
Proof.
  intros Hne. unfold handleDelete, confirm_is.
  destruct (deleteConfirm st) as [j|] eqn:E; [|reflexivity].
  destruct (Z.eqb_spec j i) as [->|Hji]; [congruence | reflexivity].
Qed.

Lemma handleDelete_armed (i : Z) (st : state) :
  deleteConfirm st = Some i ->
  handleDelete i st = api_delete i (setDeleteLoading (Some i) st).
Proof.
  intros He. unfold handleDelete, confirm_is. rewrite He, Z.eqb_refl. reflexivity.
Qed.

Lemma run_snoc (st : state) (es : list event) (e : event) :
  run st (es ++ [e]) = step (run st es) e.
Proof. unfold run. rewrite fold_left_app. reflexivity. Qed.

Lemma clicks_snoc (i : Z) (es : list event) (e : event) :
  clicks i (es ++ [e]) = (clicks i es + (if is_click i e then 1 else 0))%nat.
Proof.
  unfold clicks. rewrite List.filter_app, length_app. simpl.
  destruct (is_click i e); reflexivity.
Qed.

(** What a run has seen of the clicks on row [i]: an armed flag stands for
    one click, an issued request for two. *)
Definition clicked_enough (st : state) (es : list event) : Prop :=
  (forall i, deleteConfirm st = Some i -> (1 <= clicks i es)%nat) /\
  (forall i, In i (requests st) -> (2 <= clicks i es)%nat).

Lemma clicked_enough_step (st : state) (es : list event) (e : event) :
  clicked_enough st es -> clicked_enough (step st e) (es ++ [e]).
Proof.
  intros [Hc Hr]. split; intros i; rewrite clicks_snoc.
  - destruct e as [j|j ok|ms]; simpl.
    + unfold handleDelete.
      destruct (confirm_is st j) eqn:E; simpl.
      * intros H. specialize (Hc i H). lia.
      * intros H. injection H as ->. rewrite Z.eqb_refl. lia.
    + destruct (existsb (Z.eqb j) (awaiting st)); [|intros H; specialize (Hc i H); lia].
      unfold handleDelete_settled. destruct ok; simpl; [discriminate|].
      intros H. specialize (Hc i H). lia.
    + destruct (Z.leb 0 ms); [|intros H; specialize (Hc i H); lia].
      unfold elapse; simpl.
      destruct (List.filter _ (timeouts st)); [|discriminate].
      intros H. specialize (Hc i H). lia.
  - destruct e as [j|j ok|ms]; simpl.
    + unfold handleDelete, confirm_is.
      destruct (deleteConfirm st) as [k|] eqn:E; simpl.
      * destruct (Z.eqb_spec k j) as [->|Hkj]; simpl.
        -- intros [<-|H].
           ++ rewrite Z.eqb_refl. specialize (Hc j eq_refl). lia.
           ++ specialize (Hr i H). lia.
        -- intros H. specialize (Hr i H). lia.
      * intros H. specialize (Hr i H). lia.
    + destruct (existsb (Z.eqb j) (awaiting st)); [|intros H; specialize (Hr i H); lia].
      unfold handleDelete_settled. destruct ok; simpl; intros H; specialize (Hr i H); lia.
    + destruct (Z.leb 0 ms); simpl; intros H; specialize (Hr i H); lia.
Qed.

Lemma clicked_enough_run (l : list student) (es : list event) :
  clicked_enough (run (init l) es) es.
Proof.
  induction es as [|e es IH] using rev_ind.
  - split; intros i; simpl; [discriminate | contradiction].
  - rewrite run_snoc. apply clicked_enough_step, IH.
Qed.

(** C10. Two-step delete confirmation.  An invocation of [handleDelete id]
    that does not find the confirmation flag equal to [id] issues no DELETE
    request: it sets the flag to [id], schedules the callback that clears it
    3000 ms later, and changes nothing else; once those 3000 ms have passed
    the flag is null again.  An invocation issues a request exactly when the
    flag already equals [id], and then the request is for [id].  Hence, over
    any run of the component from its initial state, a request for [id] has
    been issued only if the button of [id] was clicked at least twice. *)
Theorem handleDelete_two_step (i : Z) (st : state) :
  (deleteConfirm st <> Some i ->
     requests (handleDelete i st) = requests st /\
     awaiting (handleDelete i st) = awaiting st /\
     deleteConfirm (handleDelete i st) = Some i /\
     timeouts (handleDelete i st) = timeouts st ++ [now st + 3000] /\
     students (handleDelete i st) = students st /\
     deleteLoading (handleDelete i st) = deleteLoading st /\
     deleteConfirm (step (handleDelete i st) (Elapse 3000)) = None) /\
  (requests (handleDelete i st) <> requests st <-> deleteConfirm st = Some i) /\
  (deleteConfirm st = Some i -> requests (handleDelete i st) = i :: requests st) /\
  (forall l es, In i (requests (run (init l) es)) -> (2 <= clicks i es)%nat).
Proof.
  split; [|split; [|split]].
  - intros Hne. rewrite (handleDelete_unarmed i st Hne). simpl.
    repeat split; try reflexivity.
    unfold elapse; simpl.
    rewrite List.filter_app. simpl.
    replace (now st + 3000 <=? now st + 3000) with true by (symmetry; apply Z.leb_refl).
    destruct (List.filter _ (timeouts st)); reflexivity.
  - split.
    + intros Hreq. destruct (decide (deleteConfirm st = Some i)) as [He|Hne]; [exact He|].
      exfalso. apply Hreq. rewrite (handleDelete_unarmed i st Hne). reflexivity.
    + intros He. rewrite (handleDelete_armed i st He). simpl.
      intros Habs. apply (f_equal (@length Z)) in Habs. simpl in Habs. lia.
  - intros He. rewrite (handleDelete_armed i st He). reflexivity.
  - intros l es. apply (clicked_enough_run l es).
Qed.

(** The first click on row 7 of a fresh list only arms; the second, made
    before the flag is cleared, sends the request. *)
Lemma handleDelete_two_step_witness :
  requests (run (init []) [Click 7]) = [] /\
  deleteConfirm (run (init []) [Click 7]) = Some 7 /\
  requests (run (init []) [Click 7; Elapse 1000; Click 7]) = [7] /\
  requests (run (init []) [Click 7; Elapse 3000; Click 7]) = [] /\
  (2 <= clicks 7 [Click 7; Elapse 1000; Click 7])%nat.
Proof.
  split; [reflexivity|]. split; [reflexivity|].
  split; [reflexivity|]. split; [reflexivity|].
  apply (proj2 (proj2 (proj2 (handleDelete_two_step 7 (init [])))) []
           [Click 7; Elapse 1000; Click 7]).
  simpl. left. reflexivity.
Defined.

(** Every timeout clears the flag, whichever click set it: a click on row 2
    made 2 s after a click on row 1 is disarmed 1 s later, by the timeout
    of the first click. *)
Example earlier_timeout_clears_flag :
  deleteConfirm (run (init []) [Click 1; Elapse 2000; Click 2]) = Some 2 /\
  deleteConfirm (run (init []) [Click 1; Elapse 2000; Click 2; Elapse 1000]) = None /\
  requests (run (init []) [Click 1; Elapse 2000; Click 2; Elapse 1000; Click 2]) = [].
Proof. repeat split. Qed.

(** ** Filter and search *)

(** [type FilterType = 'all' | 'active' | 'inactive'] *)
Inductive FilterType := all | active | inactive.

(** [s.includes(q)]: [q] occurs in [s] as a contiguous run of code units. *)
Fixpoint includes (s q : string) : bool :=
  String.prefix q s ||
  match s with
  | EmptyString => false
  | String _ r => includes r q
  end.

Section Search.

(** [String.prototype.toLowerCase] and [String.prototype.trim]; what they do
    to a string is the browser's business. *)
Variables toLowerCase trim : string -> string.

(** The pill's test: [s.is_active], [!s.is_active], or none. *)
Definition passes (filterType : FilterType) (s : student) : bool :=
  match filterType with
  | all => true
  | active => is_active s
  | inactive => negb (is_active s)
  end.

(** The callback of the search [filter]; an email that is null or empty
    does not count. *)
Definition matches_query (query : string) (s : student) : bool :=
  includes (toLowerCase (name s)) query ||
  includes (toLowerCase (student_id s)) query ||
  match email s with
  | Some e => negb (String.eqb e EmptyString) && includes (toLowerCase e) query
  | None => false
  end.

(** [filterAndSearchStudents]: the list it passes to [setFilteredStudents]. *)
Definition filterAndSearchStudents (students : list student) (searchQuery : string)
    (filterType : FilterType) : list student :=
  let filtered :=
    match filterType with
    | active => List.filter (fun s => is_active s) students
    | inactive => List.filter (fun s => negb (is_active s)) students
    | all => students
    end in
  if negb (String.eqb (trim searchQuery) EmptyString) then
    let query := toLowerCase searchQuery in
    List.filter (matches_query query) filtered
  else filtered.

(** Whether a row is shown. *)
Definition shown (searchQuery : string) (filterType : FilterType) (s : student) : bool :=
  passes filterType s &&
  (String.eqb (trim searchQuery) EmptyString ||
   matches_query (toLowerCase searchQuery) s).

Lemma filter_filter_and {A} (f g : A -> bool) (l : list A) :
  List.filter g (List.filter f l) = List.filter (fun a => f a && g a) l.
Proof.
  induction l as [|a l IH]; simpl; [reflexivity|].
  destruct (f a); simpl; [destruct (g a); simpl|]; rewrite IH; reflexivity.
Qed.

Lemma filter_true {A} (l : list A) : List.filter (fun _ => true) l = l.
Proof. induction l as [|a l IH]; simpl; [reflexivity | rewrite IH; reflexivity]. Qed.

Lemma filterAndSearchStudents_filter (students : list student) (searchQuery : string)
    (filterType : FilterType) :
  filterAndSearchStudents students searchQuery filterType =
  List.filter (shown searchQuery filterType) students.
Proof.
  unfold filterAndSearchStudents, shown.
  destruct (String.eqb (trim searchQuery) EmptyString); simpl.
  - destruct filterType; simpl.
    + symmetry. apply filter_true.
    + apply List.filter_ext. intros s. rewrite andb_true_r. reflexivity.
    + apply List.filter_ext. intros s. rewrite andb_true_r. reflexivity.
  - destruct filterType; simpl; [reflexivity| |]; apply filter_filter_and.
Qed.

Lemma filter_sublist {A} (f : A -> bool) (l : list A) : sublist (List.filter f l) l.
Proof.
  induction l as [|a l IH]; simpl; [constructor|].
  destruct (f a); [apply sublist_skip | apply sublist_cons]; exact IH.
Qed.

Lemma filter_split_length {A} (f : A -> bool) (l : list A) :
  (length (List.filter f l) + length (List.filter (fun a => negb (f a)) l))%nat = length l.
Proof.
  induction l as [|a l IH]; simpl; [reflexivity|].
  destruct (f a); simpl; lia.
Qed.

(** X1. The list shown is the list of students with the rows that fail the
    pill's test or the search left out: rows are neither invented nor
    reordered, a row is shown exactly when it passes both, and with the
    pill on All and a search box that is blank after trimming every student
    is shown. *)
Theorem filterAndSearchStudents_shows (students : list student) (searchQuery : string)
    (filterType : FilterType) :
  sublist (filterAndSearchStudents students searchQuery filterType) students /\
  (forall s, s ∈ filterAndSearchStudents students searchQuery filterType <->
             s ∈ students /\ shown searchQuery filterType s = true) /\
  (filterType = all -> trim searchQuery = EmptyString ->
   filterAndSearchStudents students searchQuery filterType = students).
Proof.
  rewrite filterAndSearchStudents_filter. split; [apply filter_sublist|]. split.
  - intros s. rewrite !list_elem_of_In, filter_In. reflexivity.
  - intros -> Hblank. rewrite <- filterAndSearchStudents_filter.
    unfold filterAndSearchStudents. rewrite Hblank. reflexivity.
Qed.

(** X2. Under one search text the Active and the Inactive pill split what the
    All pill shows: every row of All is under exactly one of them. *)
Theorem active_inactive_split (students : list student) (searchQuery : string) :
  (length (filterAndSearchStudents students searchQuery active) +
   length (filterAndSearchStudents students searchQuery inactive))%nat =
  length (filterAndSearchStudents students searchQuery all) /\
  (forall s, s ∈ filterAndSearchStudents students searchQuery all <->
     s ∈ filterAndSearchStudents students searchQuery active \/
     s ∈ filterAndSearchStudents students searchQuery inactive) /\
  (forall s, s ∈ filterAndSearchStudents students searchQuery active ->
     s ∉ filterAndSearchStudents students searchQuery inactive).
Proof.
  split; [|split].
  - rewrite !filterAndSearchStudents_filter.
    rewrite <- (filter_split_length (fun s => is_active s)
                  (List.filter (shown searchQuery all) students)).
    rewrite !filter_filter_and. f_equal; f_equal; apply List.filter_ext; intros s;
      unfold shown, passes; destruct (is_active s); simpl;
      rewrite ?andb_true_r, ?andb_false_r; reflexivity.
  - intros s. rewrite !filterAndSearchStudents_filter, !list_elem_of_In, !filter_In.
    unfold shown, passes. destruct (is_active s); simpl; intuition congruence.
  - intros s. rewrite !filterAndSearchStudents_filter, !list_elem_of_In, !filter_In.
    unfold shown, passes. destruct (is_active s); simpl; intros [_ H] [_ H']; congruence.
Qed.

End Search.

(** ** What a delete does to the list *)

#[global] Instance student_eq_dec : EqDecision student.
Proof. solve_decision. Defined.

Lemma remove_first_subset (i j : Z) (l : list Z) : In j (remove_first i l) -> In j l.
Proof.
  induction l as [|k l IH]; simpl; [tauto|].
  destruct (Z.eqb i k); simpl; tauto.
Qed.

(** Rows leave the list only after a request for their id. *)
Definition removals_requested (st0 st : state) : Prop :=
  sublist (students st) (students st0) /\
  (forall s, s ∈ students st0 -> s ∉ students st -> In (id s) (requests st)) /\
  (forall i, In i (awaiting st) -> In i (requests st)).

Lemma removals_requested_step (st0 st : state) (e : event) :
  removals_requested st0 st -> removals_requested st0 (step st e).
Proof.
  intros (Hsub & Hgone & Haw). destruct e as [i|i ok|ms]; simpl.
  - unfold handleDelete. destruct (negb (confirm_is st i)); simpl.
    + split; [exact Hsub|]. split; assumption.
    + split; [exact Hsub|]. split.
      * intros s Hs Hn. right. exact (Hgone s Hs Hn).
      * intros j [<-|Hj]; [left; reflexivity | right; exact (Haw j Hj)].
  - destruct (existsb (Z.eqb i) (awaiting st)) eqn:Ex; [|split; [exact Hsub | split; assumption]].
    apply existsb_exists in Ex as (j & Hj & Hij). apply Z.eqb_eq in Hij. subst j.
    unfold handleDelete_settled. destruct ok; simpl.
    + split; [|split].
      * transitivity (students st); [apply filter_sublist | exact Hsub].
      * intros s Hs Hn.
        destruct (decide (s ∈ students st)) as [Hin|Hnin]; [|exact (Hgone s Hs Hnin)].
        destruct (Z.eq_dec (id s) i) as [->|Hne]; [exact (Haw _ Hj)|].
        exfalso. apply Hn. apply list_elem_of_In, filter_In. split.
        -- apply list_elem_of_In, Hin.
        -- apply negb_true_iff, Z.eqb_neq, Hne.
      * intros j Hin. apply Haw. exact (remove_first_subset i j _ Hin).
    + split; [exact Hsub|]. split; [exact Hgone|].
      intros j Hin. apply Haw. exact (remove_first_subset i j _ Hin).
  - destruct (Z.leb 0 ms); simpl; (split; [exact Hsub | split; assumption]).
Qed.

(** X3. Whatever happens to the component, the list only loses rows, keeps the
    order of the others, and loses a row only after a DELETE request for
    the id of that row has been sent. *)
Theorem rows_leave_by_request (l : list student) (es : list event) :
  sublist (students (run (init l) es)) l /\
  forall s, s ∈ l -> s ∉ students (run (init l) es) ->
            In (id s) (requests (run (init l) es)).
Proof.
  assert (H : removals_requested (init l) (run (init l) es)).
  { induction es as [|e es IH] using rev_ind.
    - split; [reflexivity|]. split; [intros s Hs Hn; contradiction | intros i []].
    - rewrite run_snoc. apply removals_requested_step, IH. }
  destruct H as (Hsub & Hgone & _). split; assumption.
Qed.

(** X4. A delete that is confirmed by a second click and succeeds removes
    exactly the rows with that id, keeps the other rows in their order,
    and leaves the component idle: no row armed, none loading. *)
Theorem confirmed_delete_removes (i : Z) (st : state) :
  deleteConfirm st <> Some i ->
  (forall s, s ∈ students (run st [Click i; Click i; Settled i true]) <->
             s ∈ students st /\ id s <> i) /\
  sublist (students (run st [Click i; Click i; Settled i true])) (students st) /\
  requests (run st [Click i; Click i; Settled i true]) = i :: requests st /\
  deleteConfirm (run st [Click i; Click i; Settled i true]) = None /\
  deleteLoading (run st [Click i; Click i; Settled i true]) = None.
Proof.
  intros Hne. unfold run. simpl fold_left.
  rewrite (handleDelete_unarmed i st Hne).
  rewrite handleDelete_armed by reflexivity. simpl.
  rewrite Z.eqb_refl. simpl. split; [|split; [apply filter_sublist | repeat split]].
  intros s. rewrite !list_elem_of_In, filter_In, negb_true_iff, Z.eqb_neq. reflexivity.
Qed.

Lemma confirmed_delete_removes_witness :
  students (run (init [Student 7 "Ann" "S7" None true; Student 8 "Bo" "S8" None true])
                [Click 7; Click 7; Settled 7 true])
    = [Student 8 "Bo" "S8" None true] /\
  deleteConfirm (run (init [Student 7 "Ann" "S7" None true; Student 8 "Bo" "S8" None true])
                     [Click 7; Click 7; Settled 7 true]) = None.
Proof.
  split; [reflexivity|].
  apply (confirmed_delete_removes 7
           (init [Student 7 "Ann" "S7" None true; Student 8 "Bo" "S8" None true])).
  discriminate.
Defined.

(** X5. A delete that fails changes nothing in the list and leaves the row
    armed: until a timeout clears the flag, one more click sends the
    request again. *)
Theorem failed_delete_stays_armed (i : Z) (st : state) :
  deleteConfirm st <> Some i ->
  students (run st [Click i; Click i; Settled i false]) = students st /\
  deleteConfirm (run st [Click i; Click i; Settled i false]) = Some i /\
  deleteLoading (run st [Click i; Click i; Settled i false]) = None /\
  requests (run st [Click i; Click i; Settled i false; Click i]) = i :: i :: requests st.
Proof.
  intros Hne. unfold run. simpl fold_left.
  rewrite (handleDelete_unarmed i st Hne).
  rewrite handleDelete_armed by reflexivity. simpl.
  rewrite Z.eqb_refl. simpl.
  repeat split. rewrite handleDelete_armed by reflexivity. reflexivity.
Qed.

Lemma failed_delete_stays_armed_witness :
  requests (run (init [Student 7 "Ann" "S7" None true])
                [Click 7; Click 7; Settled 7 false; Click 7]) = [7; 7].
Proof.
  apply (failed_delete_stays_armed 7 (init [Student 7 "Ann" "S7" None true])).
  discriminate.
Defined.

End StudentList.

(* ===================================================================== *)
(** * AttendanceHistoryPage: the attendance rate of a day                 *)
(* ===================================================================== *)

Module AttendanceHistoryPage.
Import Double.

Inductive attendance_status := PRESENT | ABSENT.

Record StudentAttendance := {
  student_id : Z;
  student_code : string;
  name : string;
  status : attendance_status;
  time : option string
}.

(** The counts are integers; they reach the page as JavaScript numbers. *)
Record DailyAttendance := {
  date : string;
  day_name : string;
  students : list StudentAttendance;
  present_count : Z;
  absent_count : Z
}.

(** [getAttendanceRate(day)].  [None] would be a result that is not a
    finite number. *)
Definition getAttendanceRate (day : DailyAttendance) : option number :=
  let total := dadd (inject_Z (present_count day)) (inject_Z (absent_count day)) in
  if gt total 0 then
    q ← ddiv (inject_Z (present_count day)) total;
    Some (Math_round (dmul q 100))
  else Some 0%Q.

(** The rate as the specification words it: 0 for an empty day, otherwise
    [100 * present / (present + absent)] rounded to the nearest integer,
    computed on the exact quotient. *)
Definition exact_rate (day : DailyAttendance) : Z :=
  let total := present_count day + absent_count day in
  if total =? 0 then 0
  else Qfloor (100 * inject_Z (present_count day) / inject_Z total + (1 # 2))%Q.

Definition day_of (p a : Z) : DailyAttendance :=
  {| date := ""; day_name := ""; students := [];
     present_count := p; absent_count := a |}.

(** ** Properties *)

Section Rate.
Local Open Scope Q_scope.

Lemma Math_round_within (v : Q) (n : Z) :
  0 <= v -> v <= inject_Z n ->
  exists k : Z, Math_round v = inject_Z k /\ (0 <= k <= n)%Z.
Proof.
  intros H0 Hn. exists (Qfloor (v + (1 # 2))). split; [reflexivity|]. split.
  - change 0%Z with (Qfloor 0). apply Qfloor_resp_le.
    apply Qle_trans with v; [exact H0|].
    rewrite <- (Qplus_0_r v) at 1. apply Qplus_le_r. discriminate.
  - assert (H : (Qfloor (v + (1 # 2)) <= Qfloor (inject_Z n + (1 # 2)))%Z).
    { apply Qfloor_resp_le. apply Qplus_le_l. exact Hn. }
    assert (Hf : Qfloor (inject_Z n + (1 # 2)) = n).
    { unfold Qfloor, Qplus, inject_Z. simpl.
      replace (n * 2 + 1 * 1)%Z with (1 + n * 2)%Z by lia.
      rewrite Z.div_add by lia. reflexivity. }
    lia.
Qed.

(** The total of a non-empty day is a positive number, not below the
    number of students present. *)
Lemma total_bounds (p a : Z) :
  (0 <= p <= 2 ^ prec)%Z -> (0 <= a)%Z -> (0 < p + a)%Z ->
  1 <= dadd (inject_Z p) (inject_Z a) /\ inject_Z p <= dadd (inject_Z p) (inject_Z a).
Proof.
  intros Hp Ha Hpos. unfold dadd.
  assert (Hsum : inject_Z p + inject_Z a == inject_Z (p + a)).
  { rewrite inject_Z_plus. reflexivity. }
  split.
  - apply fl_ge_repr; [reflexivity| |apply one_representable].
    rewrite Hsum. change 1 with (inject_Z 1). rewrite <- Zle_Qle. lia.
  - destruct (Z.eq_dec p 0%Z) as [->|Hp0].
    + apply fl_nonneg. rewrite Hsum. change 0 with (inject_Z 0).
      rewrite <- Zle_Qle. lia.
    + apply fl_ge_repr.
      * change 0 with (inject_Z 0). rewrite <- Zlt_Qlt. lia.
      * rewrite Hsum, <- Zle_Qle. lia.
      * apply representable_Z. lia.
Qed.

Lemma getAttendanceRate_empty (day : DailyAttendance) :
  (present_count day + absent_count day = 0)%Z ->
  (0 <= present_count day)%Z -> (0 <= absent_count day)%Z ->
  getAttendanceRate day = Some 0.
Proof.
  intros Hsum Hp Ha.
  assert (present_count day = 0%Z) as Ep by lia.
  assert (absent_count day = 0%Z) as Ea by lia.
  unfold getAttendanceRate. rewrite Ep, Ea. reflexivity.
Qed.

Lemma getAttendanceRate_nonempty (day : DailyAttendance) :
  (0 <= present_count day <= 2 ^ prec)%Z -> (0 <= absent_count day)%Z ->
  (0 < present_count day + absent_count day)%Z ->
  let total := dadd (inject_Z (present_count day)) (inject_Z (absent_count day)) in
  getAttendanceRate day =
    Some (Math_round (dmul (divide (inject_Z (present_count day)) total) 100)) /\
  exists k : Z,
    Math_round (dmul (divide (inject_Z (present_count day)) total) 100) = inject_Z k /\
    (0 <= k <= 100)%Z.
Proof.
  intros Hp Ha Hpos total.
  destruct (total_bounds _ _ Hp Ha Hpos) as [H1 Hpt]. fold total in H1, Hpt.
  assert (Ht : 0 < total) by (apply Qlt_le_trans with 1; [reflexivity | exact H1]).
  assert (Hnz : ~ total == 0) by (intros E; rewrite E in Ht; discriminate).
  split.
  - unfold getAttendanceRate. fold total. rewrite (gt_true total 0 Ht).
    unfold ddiv. destruct (Qeq_bool total 0) eqn:E.
    + apply Qeq_bool_iff in E. contradiction.
    + reflexivity.
  - assert (Hq : 0 <= inject_Z (present_count day) / total /\
                 inject_Z (present_count day) / total <= 1).
    { split.
      - apply Qle_shift_div_l; [exact Ht|]. rewrite Qmult_0_l.
        change 0 with (inject_Z 0). rewrite <- Zle_Qle. lia.
      - apply Qle_shift_div_r; [exact Ht|]. rewrite Qmult_1_l. exact Hpt. }
    destruct (fl_within _ 1 (proj1 Hq) (proj2 Hq) one_representable) as [Hd0 Hd1].
    fold (divide (inject_Z (present_count day)) total) in Hd0, Hd1.
    set (q := divide (inject_Z (present_count day)) total) in *.
    assert (Hv : 0 <= q * 100 /\ q * 100 <= 100).
    { split.
      - apply Qmult_le_0_compat; [exact Hd0 | discriminate].
      - rewrite <- (Qmult_1_l 100) at 2.
        apply Qmult_le_compat_r; [exact Hd1 | discriminate]. }
    destruct (fl_within _ 100 (proj1 Hv) (proj2 Hv) hundred_representable) as [Hm0 Hm1].
    apply (Math_round_within (dmul q 100) 100 Hm0 Hm1).
Qed.

(** Two numbers less than 1 apart have integer parts at most 1 apart. *)
Lemma Qfloor_close (a b : Q) :
  Qabs (a - b) < 1 -> (Z.abs (Qfloor a - Qfloor b) <= 1)%Z.
Proof.
  intros H. apply Qabs_Qlt_condition in H as [H1 H2].
  pose proof (Qfloor_le a) as La. pose proof (Qlt_floor a) as Ua.
  pose proof (Qfloor_le b) as Lb. pose proof (Qlt_floor b) as Ub.
  rewrite inject_Z_plus in Ua, Ub. change (inject_Z 1) with 1 in Ua, Ub.
  assert (Hab : inject_Z (Qfloor a) < inject_Z (Qfloor b) + 2) by lra.
  assert (Hba : inject_Z (Qfloor b) < inject_Z (Qfloor a) + 2) by lra.
  change 2 with (inject_Z 2) in Hab, Hba.
  rewrite <- inject_Z_plus, <- Zlt_Qlt in Hab, Hba. lia.
Qed.

(** The binary64 product [(present / total) * 100] of a day whose total is
    a safe integer, and its distance from the exact percentage. *)
Lemma product_error (day : DailyAttendance) :
  (0 <= present_count day)%Z -> (0 <= absent_count day)%Z ->
  (0 < present_count day + absent_count day <= 2 ^ prec)%Z ->
  exists v : number,
    getAttendanceRate day = Some (Math_round v) /\
    Qabs (v - 100 * inject_Z (present_count day) /
                inject_Z (present_count day + absent_count day))
      <= 41 # 2251799813685248.
Proof.
  intros Hp Ha Hsum.
  assert (Hp' : (0 <= present_count day <= 2 ^ prec)%Z) by lia.
  destruct (getAttendanceRate_nonempty day Hp' Ha (proj1 Hsum)) as [Hr _].
  cbv zeta in Hr. rewrite Hr. clear Hr.
  set (p := inject_Z (present_count day)).
  set (t := dadd p (inject_Z (absent_count day))).
  assert (Ht : t == inject_Z (present_count day + absent_count day)).
  { unfold t, dadd, p. rewrite <- inject_Z_plus. apply fl_repr.
    - change 0 with (inject_Z 0). rewrite <- Zle_Qle. lia.
    - apply representable_Z. lia. }
  assert (Htpos : 0 < t).
  { rewrite Ht. change 0 with (inject_Z 0). rewrite <- Zlt_Qlt. lia. }
  assert (Hp0 : 0 <= p).
  { unfold p. change 0 with (inject_Z 0). rewrite <- Zle_Qle. lia. }
  assert (Hpt : p <= t).
  { rewrite Ht. unfold p. rewrite <- Zle_Qle. lia. }
  assert (Hx : 0 <= p / t /\ p / t <= 1).
  { split.
    - apply Qle_shift_div_l; [exact Htpos|]. lra.
    - apply Qle_shift_div_r; [exact Htpos|]. lra. }
  set (q := divide p t).
  assert (Hq : 0 <= q /\ q <= 1).
  { apply fl_within; [apply Hx | apply Hx | apply one_representable]. }
  assert (Eq : Qabs (q - p / t) <= 2 ^ (1 - prec - 1)).
  { apply fl_error_below; [unfold emin, prec; lia|].
    rewrite Qabs_pos by apply Hx. change (2 ^ 1) with 2. lra. }
  set (v := dmul q 100).
  assert (Ev : Qabs (v - q * 100) <= 2 ^ (7 - prec - 1)).
  { apply fl_error_below; [unfold emin, prec; lia|].
    rewrite Qabs_pos by lra. change (2 ^ 7) with 128. lra. }
  change (2 ^ (1 - prec - 1)) with (1 # 9007199254740992) in Eq.
  change (2 ^ (7 - prec - 1)) with (1 # 140737488355328) in Ev.
  apply Qabs_Qle_condition in Eq as [Eq1 Eq2].
  apply Qabs_Qle_condition in Ev as [Ev1 Ev2].
  exists v. split; [reflexivity|].
  assert (EX : 100 * p / inject_Z (present_count day + absent_count day) == 100 * (p / t)).
  { rewrite <- Ht. field. lra. }
  rewrite EX. apply Qabs_Qle_condition. split; lra.
Qed.

(** For counts whose sum is a safe integer the rate is within one of the
    exact rounded percentage. *)
Lemma getAttendanceRate_close (day : DailyAttendance) :
  (0 <= present_count day)%Z -> (0 <= absent_count day)%Z ->
  (0 < present_count day + absent_count day <= 2 ^ prec)%Z ->
  exists k : Z,
    getAttendanceRate day = Some (inject_Z k) /\
    (Z.abs (k - exact_rate day) <= 1)%Z.
Proof.
  intros Hp Ha Hsum.
  destruct (product_error day Hp Ha Hsum) as (v & Hr & Hv).
  exists (Qfloor (v + (1 # 2))). split; [exact Hr|].
  unfold exact_rate.
  destruct (Z.eqb_spec (present_count day + absent_count day) 0) as [E0|_]; [lia|].
  apply Qfloor_close.
  apply Qabs_Qle_condition in Hv as [Hv1 Hv2].
  apply Qabs_Qlt_condition. split; lra.
Qed.

Lemma inject_Z_sub (a b : Z) : inject_Z (a - b) == inject_Z a - inject_Z b.
Proof. unfold Z.sub. rewrite inject_Z_plus, inject_Z_opp. reflexivity. Qed.

Lemma Qfloor_between (y : Q) (n : Z) :
  inject_Z n <= y -> y < inject_Z n + 1 -> Qfloor y = n.
Proof.
  intros Hlo Hhi.
  pose proof (Qfloor_le y) as L. pose proof (Qlt_floor y) as U.
  rewrite inject_Z_plus in U. change (inject_Z 1) with 1 in U.
  assert (H1 : inject_Z (Qfloor y) < inject_Z n + 1) by lra.
  assert (H2 : inject_Z n < inject_Z (Qfloor y) + 1) by lra.
  change 1 with (inject_Z 1) in H1, H2.
  rewrite <- inject_Z_plus, <- Zlt_Qlt in H1, H2. lia.
Qed.

(** An exact percentage that lies halfway between two integers. *)
Definition tie (day : DailyAttendance) : Prop :=
  let total := (present_count day + absent_count day)%Z in
  ((200 * present_count day + total) mod (2 * total) = 0)%Z.

(** Below 2^44 students the rate is the exact rounded percentage, except
    that at a tie it may be one less. *)
Lemma getAttendanceRate_off_ties (day : DailyAttendance) :
  (0 <= present_count day)%Z -> (0 <= absent_count day)%Z ->
  (0 < present_count day + absent_count day <= 2 ^ 44)%Z ->
  exists k : Z,
    getAttendanceRate day = Some (inject_Z k) /\
    (k = exact_rate day \/ (k = exact_rate day - 1 /\ tie day))%Z.
Proof.
  intros Hp Ha Hsum.
  assert (Hsum' : (0 < present_count day + absent_count day <= 2 ^ prec)%Z)
    by (unfold prec; lia).
  destruct (product_error day Hp Ha Hsum') as (v & Hr & Hv).
  exists (Qfloor (v + (1 # 2))). split; [exact Hr|].
  unfold exact_rate, tie. cbv zeta.
  set (t := (present_count day + absent_count day)%Z) in *.
  destruct (Z.eqb_spec t 0) as [E0|_]; [lia|].
  set (N := (200 * present_count day + t)%Z). set (D := (2 * t)%Z).
  assert (HD : (0 < D <= 2 ^ 45)%Z) by (unfold D; lia).
  pose proof (Z.div_mod N D ltac:(lia)) as Hdm.
  pose proof (Z.mod_pos_bound N D ltac:(lia)) as Hmod.
  set (R := (N / D)%Z) in *. set (r := (N mod D)%Z) in *.
  set (Y := 100 * inject_Z (present_count day) / inject_Z t + (1 # 2)).
  assert (Ht0 : 0 < inject_Z t).
  { change 0 with (inject_Z 0). rewrite <- Zlt_Qlt. lia. }
  assert (Hd0 : 0 < inject_Z D).
  { change 0 with (inject_Z 0). rewrite <- Zlt_Qlt. lia. }
  assert (HY : Y * inject_Z D == inject_Z R * inject_Z D + inject_Z r).
  { transitivity (inject_Z N).
    - unfold Y, N, D. rewrite !inject_Z_plus, !inject_Z_mult. field. lra.
    - rewrite Hdm, inject_Z_plus, inject_Z_mult. ring. }
  assert (HYR : Y == inject_Z R + inject_Z r / inject_Z D).
  { apply (Qmult_inj_r _ _ (inject_Z D)); [lra|]. rewrite HY. field. lra. }
  assert (Hfrac : 0 <= inject_Z r / inject_Z D /\ inject_Z r / inject_Z D < 1).
  { split.
    - apply Qle_shift_div_l; [exact Hd0|]. rewrite Qmult_0_l.
      change 0 with (inject_Z 0). rewrite <- Zle_Qle. lia.
    - apply Qlt_shift_div_r; [exact Hd0|]. rewrite Qmult_1_l, <- Zlt_Qlt. lia. }
  assert (HR : Qfloor Y = R).
  { apply Qfloor_between; lra. }
  fold Y. rewrite HR.
  apply Qabs_Qle_condition in Hv as [Hv1 Hv2]. fold t in Hv1, Hv2.
  assert (Hvy : Y - (41 # 2251799813685248) <= v + (1 # 2) /\
                v + (1 # 2) <= Y + (41 # 2251799813685248)) by (unfold Y; split; lra).
  destruct (Z.eq_dec r 0%Z) as [Hr0|Hr0].
  - (* a tie: Y is the integer R *)
    assert (HYeq : Y == inject_Z R).
    { rewrite HYR, Hr0. unfold Qdiv. rewrite Qmult_0_l. lra. }
    destruct (Qlt_le_dec (v + (1 # 2)) (inject_Z R)) as [Hlt|Hge].
    + right. split; [|exact Hr0].
      apply Qfloor_between.
      * rewrite inject_Z_sub. change (inject_Z 1) with 1. lra.
      * rewrite inject_Z_sub. change (inject_Z 1) with 1. lra.
    + left. apply Qfloor_between; lra.
  - (* off a tie: Y is at least 2^-45 away from every integer *)
    left.
    assert (Hdle : inject_Z D <= 35184372088832).
    { change 35184372088832 with (inject_Z (2 ^ 45)). rewrite <- Zle_Qle. lia. }
    assert (Hr1 : 1 <= inject_Z r).
    { change 1 with (inject_Z 1). rewrite <- Zle_Qle. lia. }
    assert (Hr2 : inject_Z r <= inject_Z D - 1).
    { change 1 with (inject_Z 1). rewrite <- inject_Z_sub, <- Zle_Qle. lia. }
    assert (Hlo : (1 # 35184372088832) <= inject_Z r / inject_Z D).
    { apply Qle_shift_div_l; [exact Hd0|]. lra. }
    assert (Hhi : inject_Z r / inject_Z D <= 1 - (1 # 35184372088832)).
    { apply Qle_shift_div_r; [exact Hd0|]. lra. }
    apply Qfloor_between; lra.
Qed.

End Rate.

(** C9 as stated fails.  For a day with 29 students present and 171 absent
    the page shows 14: the quotient 29/200 is rounded to the binary64
    value just below 0.145, its product with 100 to the value just below
    14.5, and [Math.round] of that is 14.  The exact percentage is 14.5,
    which rounds to 15; so does [100 * 29 / 200] evaluated in binary64. *)
Lemma getAttendanceRate_not_exact :
  getAttendanceRate (day_of 29 171) = Some 14%Q /\
  exact_rate (day_of 29 171) = 15 /\
  Math_round (divide (dmul 100 29) 200) = 15%Q /\
  getAttendanceRate (day_of 29 171) <> Some (inject_Z (exact_rate (day_of 29 171))).
Proof.
  split; [vm_compute; reflexivity|].
  split; [vm_compute; reflexivity|].
  split; [vm_compute; reflexivity|].
  vm_compute. discriminate.
Qed.

(** C9, amended.  For a day whose counts are non-negative integers (the
    present count at most 2^53, so that it is a binary64 value),
    [getAttendanceRate] returns a finite number: 0 when
    [present_count + absent_count = 0]; otherwise [Math.round] of the
    binary64 product [(present_count / total) * 100], where [total] is the
    binary64 sum of the counts.  That result is an integer of [0, 100].
    When the total is at most 2^44 it is the exact percentage
    [100 * present_count / (present_count + absent_count)] rounded to the
    nearest integer, unless that percentage lies exactly halfway between
    two integers: then it is that rounding or one less. *)
Theorem getAttendanceRate_total_bounded (day : DailyAttendance) :
  0 <= present_count day <= 2 ^ prec -> 0 <= absent_count day ->
  (present_count day + absent_count day = 0 ->
     getAttendanceRate day = Some 0%Q) /\
  (0 < present_count day + absent_count day ->
     getAttendanceRate day =
       Some (Math_round
               (dmul (divide (inject_Z (present_count day))
                             (dadd (inject_Z (present_count day))
                                   (inject_Z (absent_count day)))) 100))) /\
  exists k : Z,
    getAttendanceRate day = Some (inject_Z k) /\ 0 <= k <= 100 /\
    (present_count day + absent_count day <= 2 ^ 44 ->
       k = exact_rate day \/ (k = exact_rate day - 1 /\ tie day)).
Proof.
  intros Hp Ha. split; [|split].
  - intros Hz. apply getAttendanceRate_empty; lia.
  - intros Hpos. apply (getAttendanceRate_nonempty day Hp Ha Hpos).
  - destruct (Z.eq_dec (present_count day + absent_count day) 0) as [Hz|Hnz].
    + exists 0. split; [apply getAttendanceRate_empty; lia|]. split; [lia|].
      intros _. left. unfold exact_rate. rewrite Hz. reflexivity.
    + assert (Hpos : 0 < present_count day + absent_count day) by lia.
      destruct (getAttendanceRate_nonempty day Hp Ha Hpos) as [Hr (k & Hk & Hb)].
      exists k. split; [rewrite Hr, Hk; reflexivity|]. split; [exact Hb|].
      intros Hsmall.
      destruct (getAttendanceRate_off_ties day (proj1 Hp) Ha (conj Hpos Hsmall))
        as (k' & Hk' & Hcases).
      assert (k' = k) as ->.
      { rewrite Hr, Hk in Hk'. injection Hk' as Hk'. lia. }
      exact Hcases.
Qed.

(** Three of four students present: 75, the exact percentage.  29 of 200:
    a tie, and the rate is one below the exact rounding. *)
Lemma getAttendanceRate_total_bounded_witness :
  getAttendanceRate (day_of 3 1) = Some 75%Q /\
  exact_rate (day_of 3 1) = 75 /\
  tie (day_of 29 171) /\
  exists k : Z,
    getAttendanceRate (day_of 29 171) = Some (inject_Z k) /\ 0 <= k <= 100 /\
    (29 + 171 <= 2 ^ 44 ->
       k = exact_rate (day_of 29 171) \/
       (k = exact_rate (day_of 29 171) - 1 /\ tie (day_of 29 171))).
Proof.
  split; [vm_compute; reflexivity|]. split; [vm_compute; reflexivity|].
  split; [vm_compute; reflexivity|].
  apply (getAttendanceRate_total_bounded (day_of 29 171)); simpl; unfold prec; lia.
Defined.

(** ** The day selector *)

(** [history.days[selectedDay]]: undefined outside the array. *)
Definition day_at (days : list DailyAttendance) (selectedDay : Z) : option DailyAttendance :=
  if selectedDay <? 0 then None else days !! Z.to_nat selectedDay.

(** The three kinds of button of the selector: the left chevron (an older
    day), the right chevron (a newer day), and the button of the day at
    [index] among [history.days.slice(0, 7)]. *)
Inductive button := Older | Newer | Pick (index : nat).

(** What a click sets [selectedDay] to.  The chevrons carry a [disabled]
    attribute, and a disabled button does not fire its handler; a day
    button exists only for the first seven days. *)
Definition press (days : list DailyAttendance) (selectedDay : Z) (b : button) : Z :=
  match b with
  | Older =>
      if selectedDay >=? Z.of_nat (length days) - 1 then selectedDay
      else Z.min (selectedDay + 1) (Z.of_nat (length days) - 1)
  | Newer =>
      if selectedDay <=? 0 then selectedDay
      else Z.max (selectedDay - 1) 0
  | Pick index =>
      if (index <? length (firstn 7 days))%nat then Z.of_nat index else selectedDay
  end.

Lemma day_at_Some (days : list DailyAttendance) (selectedDay : Z) :
  is_Some (day_at days selectedDay) <-> 0 <= selectedDay < Z.of_nat (length days).
Proof.
  unfold day_at. destruct (Z.ltb_spec selectedDay 0) as [Hneg|Hpos].
  - split; [intros [d Hd]; discriminate | lia].
  - rewrite lookup_lt_is_Some. lia.
Qed.

Lemma press_in_range (days : list DailyAttendance) (selectedDay : Z) (b : button) :
  0 <= selectedDay < Z.of_nat (length days) ->
  0 <= press days selectedDay b < Z.of_nat (length days).
Proof.
  intros H. destruct b as [| |k]; simpl.
  - destruct (selectedDay >=? _); lia.
  - destruct (selectedDay <=? 0); lia.
  - destruct (Nat.ltb_spec k (length (firstn 7 days))) as [Hk|Hk]; [|exact H].
    rewrite length_firstn in Hk. lia.
Qed.

(** X6. Once the selected day is one of the fetched days, no sequence of clicks
    on the selector leads outside them: there is always a day to show.
    Going to an older day and back gives the day one started from.  But a
    selection at or beyond the number of fetched days (the page keeps
    [selectedDay] when it fetches a shorter history) shows no day, and the
    left chevron is then disabled. *)
Theorem day_selector_stays_in_range (days : list DailyAttendance) (selectedDay : Z) :
  (0 <= selectedDay < Z.of_nat (length days) ->
   forall bs : list button,
     0 <= fold_left (press days) bs selectedDay < Z.of_nat (length days) /\
     is_Some (day_at days (fold_left (press days) bs selectedDay))) /\
  (0 <= selectedDay < Z.of_nat (length days) - 1 ->
   press days (press days selectedDay Older) Newer = selectedDay) /\
  (Z.of_nat (length days) <= selectedDay ->
   day_at days selectedDay = None /\ press days selectedDay Older = selectedDay).
Proof.
  split; [|split].
  - intros H bs. revert selectedDay H.
    induction bs as [|b bs IH]; intros sel H; simpl.
    + split; [exact H | apply day_at_Some, H].
    + apply IH, press_in_range, H.
  - intros H. simpl.
    destruct (Z.geb_spec selectedDay (Z.of_nat (length days) - 1)); [lia|].
    destruct (Z.leb_spec (Z.min (selectedDay + 1) (Z.of_nat (length days) - 1)) 0); lia.
  - intros H. split.
    + destruct (day_at days selectedDay) eqn:E; [|reflexivity].
      assert (Hs : is_Some (day_at days selectedDay)) by (rewrite E; eauto).
      apply day_at_Some in Hs. lia.
    + simpl. destruct (Z.geb_spec selectedDay (Z.of_nat (length days) - 1)); [reflexivity|lia].
Qed.

(** Three days fetched: four clicks on the left chevron stop at the oldest
    day.  After a fetch of three days a selection of 5 shows nothing. *)
Lemma day_selector_stays_in_range_witness :
  fold_left (press [day_of 1 0; day_of 2 0; day_of 3 0]) [Older; Older; Older; Older] 0 = 2 /\
  is_Some (day_at [day_of 1 0; day_of 2 0; day_of 3 0]
             (fold_left (press [day_of 1 0; day_of 2 0; day_of 3 0])
                        [Older; Older; Older; Older] 0)) /\
  day_at [day_of 1 0; day_of 2 0; day_of 3 0] 5 = None.
Proof.
  split; [reflexivity|]. split.
  - apply (proj1 (day_selector_stays_in_range [day_of 1 0; day_of 2 0; day_of 3 0] 0));
      simpl; lia.
  - apply (proj2 (proj2 (day_selector_stays_in_range
                           [day_of 1 0; day_of 2 0; day_of 3 0] 5))).
    simpl. lia.
Defined.

End AttendanceHistoryPage.

(* ===================================================================== *)
(** * Text: strings and decimal numerals                                *)
(* ===================================================================== *)

Module Text.

Lemma string_app_length (a b : string) :
  String.length (a ++ b)%string = (String.length a + String.length b)%nat.
Proof.
  induction a as [|c a IH]; [reflexivity|].
  change (S (String.length (a ++ b)%string) = S (String.length a + String.length b)).
  rewrite IH. reflexivity.
Qed.

Lemma string_app_inj_r (a b c d : string) :
  String.length c = String.length d -> (a ++ c)%string = (b ++ d)%string ->
  a = b /\ c = d.
Proof.
  revert b. induction a as [|x a IH]; intros [|y b] Hlen H; simpl in *.
  - split; [reflexivity | exact H].
  - apply (f_equal String.length) in H. rewrite !string_app_length in H. simpl in H. lia.
  - apply (f_equal String.length) in H. rewrite !string_app_length in H. simpl in H. lia.
  - change (String x (a ++ c)%string = String y (b ++ d)%string) in H.
    injection H as -> H. destruct (IH b Hlen H) as [-> ->]. split; reflexivity.
Qed.

(** The decimal numeral of a positive number does not start with 0. *)
Lemma pretty_N_go_head (x : N) (s : string) (c : Ascii.ascii) (r : string) :
  (0 < x)%N -> pretty_N_go x s = String c r -> String c EmptyString <> "0"%string.
Proof.
  revert s c r. induction (N.lt_wf_0 x) as [x _ IH]; intros s c r Hx.
  rewrite pretty_N_go_step by exact Hx.
  destruct (N.eq_dec (x `div` 10)%N 0%N) as [E|E].
  - rewrite E, pretty_N_go_0. intros [= <- _].
    assert (Hlt : (x < 10)%N) by (apply N.div_small_iff in E; lia).
    rewrite N.mod_small by exact Hlt.
    assert (x = 1 \/ x = 2 \/ x = 3 \/ x = 4 \/ x = 5 \/ x = 6 \/ x = 7 \/ x = 8 \/ x = 9)%N
      as Hc by lia.
    destruct Hc as [->|[->|[->|[->|[->|[->|[->|[->| ->]]]]]]]]; discriminate.
  - apply IH; [apply N.div_lt; lia | apply N.neq_0_lt_0; exact E].
Qed.

Lemma pretty_N_go_length (x : N) (s : string) :
  (String.length s <= String.length (pretty_N_go x s))%nat.
Proof.
  revert s. induction (N.lt_wf_0 x) as [x _ IH]; intros s.
  destruct (N.eq_dec x 0%N) as [->|Hx].
  - rewrite pretty_N_go_0. lia.
  - rewrite pretty_N_go_step by lia.
    etransitivity; [|apply IH; apply N.div_lt; lia]. simpl. lia.
Qed.

Lemma pretty_Z_pos (p : positive) :
  pretty (Z.pos p) = pretty_N_go (N.pos p) EmptyString.
Proof. reflexivity. Qed.

Lemma pretty_Z_head (z : Z) (c : Ascii.ascii) (r : string) :
  0 < z -> pretty z = String c r -> String c EmptyString <> "0"%string.
Proof.
  destruct z as [|p|p]; try lia. intros _. rewrite pretty_Z_pos.
  apply pretty_N_go_head. lia.
Qed.

Lemma pretty_Z_length (z : Z) : (1 <= String.length (pretty z))%nat.
Proof.
  destruct z as [|p|p]; [simpl; lia| |].
  - rewrite pretty_Z_pos, pretty_N_go_step by lia.
    etransitivity; [|apply pretty_N_go_length]. simpl. lia.
  - change (pretty (Z.neg p)) with ("-" ++ pretty (N.pos p))%string.
    simpl. lia.
Qed.

End Text.

(* ===================================================================== *)
(** * AttendancePage: the live session                                    *)
(* ===================================================================== *)

Module AttendancePage.
Import Double.

(** ** Data of the protocol *)

Record BBox := { x : number; y : number; w : number; h : number }.

(** [interface DetectedFace], one record of a reply.  The counters are
    integers.  [other] stands for whatever further properties the parsed
    object carries: the interface does not rule them out. *)
Record DetectedFace := {
  name : string;
  confidence : number;
  marked : bool;
  confirmed : bool;
  bbox : BBox;
  frames_confirmed : Z;
  frames_required : Z;
  other : list (string * string)
}.

Module MarkedStudent.
Record t := { name : string; time : string }.
End MarkedStudent.

(** What [event.data] is to the handler: text that [JSON.parse] rejects,
    the JSON value [null], or a parsed value whose [detected] property may
    be missing. *)
Inductive reply :=
| Unparsable
| Null                                          (* reading [data.detected] throws *)
| Data (detected : option (list DetectedFace)).

(** The message [sendFrame] hands to the socket: the result of
    [canvas.toDataURL(type, quality)]. *)
Record DataURL := {
  mime : string;
  quality : number;
  pixel_width : Z;
  pixel_height : Z;
  image : option nat        (* the video frame on the canvas *)
}.

(** ** Browser objects *)

Inductive readyState := CONNECTING | OPEN | CLOSING | CLOSED.

#[global] Instance readyState_eq_dec : EqDecision readyState.
Proof. solve_decision. Defined.

Record video := { srcObject : option (list positive) }.

Record canvas := {
  width : Z;
  height : Z;
  context2d : bool;         (* whether [getContext('2d')] gives a context *)
  drawn : option nat
}.

(** The [useRef] cells.  A socket, a timer and a media track are handles
    into the browser's store. *)
Record Refs := {
  videoRef : option video;
  canvasRef : option canvas;
  streamRef : option (list positive);
  wsRef : option positive;
  intervalRef : option positive
}.

(** The [useState] cells. *)
Record UI := {
  isCameraActive : bool;
  wsConnected : bool;
  detected : list DetectedFace;
  markedStudents : list MarkedStudent.t;
  sessionStart : option Z;
  error : option string
}.

(** What the page has created in the browser and asked of it. *)
Record Browser := {
  sockets : gmap positive readyState;
  intervals : gmap positive Z;            (* running [setInterval] timers, with their period in ms *)
  stopped : gset positive;                (* media tracks on which [stop()] was called *)
  sent : list (positive * DataURL);       (* [ws.send] calls, newest first *)
  chimes : nat;                           (* [playSuccessSound] calls *)
  next : positive                         (* the next fresh handle *)
}.

Record state := { refs : Refs; ui : UI; browser : Browser }.

Definition mounted : state :=
  {| refs := {| videoRef := Some {| srcObject := None |};
                canvasRef := Some {| width := 640; height := 480;
                                     context2d := true; drawn := None |};
                streamRef := None; wsRef := None; intervalRef := None |};
     ui := {| isCameraActive := false; wsConnected := false; detected := [];
              markedStudents := []; sessionStart := None; error := None |};
     browser := {| sockets := ∅; intervals := ∅; stopped := ∅; sent := [];
                   chimes := 0; next := 1%positive |} |}.

(** ** Assignments *)

Definition with_refs (f : Refs -> Refs) (st : state) : state :=
  {| refs := f (refs st); ui := ui st; browser := browser st |}.
Definition with_ui (f : UI -> UI) (st : state) : state :=
  {| refs := refs st; ui := f (ui st); browser := browser st |}.
Definition with_browser (f : Browser -> Browser) (st : state) : state :=
  {| refs := refs st; ui := ui st; browser := f (browser st) |}.

Definition set_videoRef (v : option video) : state -> state :=
  with_refs (fun r => {| videoRef := v; canvasRef := canvasRef r; streamRef := streamRef r;
                         wsRef := wsRef r; intervalRef := intervalRef r |}).
Definition set_canvasRef (c : option canvas) : state -> state :=
  with_refs (fun r => {| videoRef := videoRef r; canvasRef := c; streamRef := streamRef r;
                         wsRef := wsRef r; intervalRef := intervalRef r |}).
Definition set_streamRef (v : option (list positive)) : state -> state :=
  with_refs (fun r => {| videoRef := videoRef r; canvasRef := canvasRef r; streamRef := v;
                         wsRef := wsRef r; intervalRef := intervalRef r |}).
Definition set_wsRef (v : option positive) : state -> state :=
  with_refs (fun r => {| videoRef := videoRef r; canvasRef := canvasRef r;
                         streamRef := streamRef r; wsRef := v; intervalRef := intervalRef r |}).
Definition set_intervalRef (v : option positive) : state -> state :=
  with_refs (fun r => {| videoRef := videoRef r; canvasRef := canvasRef r;
                         streamRef := streamRef r; wsRef := wsRef r; intervalRef := v |}).

Definition setIsCameraActive (b : bool) : state -> state :=
  with_ui (fun u => {| isCameraActive := b; wsConnected := wsConnected u;
                       detected := detected u; markedStudents := markedStudents u;
                       sessionStart := sessionStart u; error := error u |}).
Definition setWsConnected (b : bool) : state -> state :=
  with_ui (fun u => {| isCameraActive := isCameraActive u; wsConnected := b;
                       detected := detected u; markedStudents := markedStudents u;
                       sessionStart := sessionStart u; error := error u |}).
Definition setDetected (l : list DetectedFace) : state -> state :=
  with_ui (fun u => {| isCameraActive := isCameraActive u; wsConnected := wsConnected u;
                       detected := l; markedStudents := markedStudents u;
                       sessionStart := sessionStart u; error := error u |}).
Definition setMarkedStudents
    (f : list MarkedStudent.t -> list MarkedStudent.t) : state -> state :=
  with_ui (fun u => {| isCameraActive := isCameraActive u; wsConnected := wsConnected u;
                       detected := detected u; markedStudents := f (markedStudents u);
                       sessionStart := sessionStart u; error := error u |}).
Definition setSessionStart (t : option Z) : state -> state :=
  with_ui (fun u => {| isCameraActive := isCameraActive u; wsConnected := wsConnected u;
                       detected := detected u; markedStudents := markedStudents u;
                       sessionStart := t; error := error u |}).
Definition setError (e : option string) : state -> state :=
  with_ui (fun u => {| isCameraActive := isCameraActive u; wsConnected := wsConnected u;
                       detected := detected u; markedStudents := markedStudents u;
                       sessionStart := sessionStart u; error := e |}).

Definition set_sockets (f : gmap positive readyState -> gmap positive readyState)
  : state -> state :=
  with_browser (fun b => {| sockets := f (sockets b); intervals := intervals b;
                            stopped := stopped b; sent := sent b; chimes := chimes b;
                            next := next b |}).
Definition set_intervals (f : gmap positive Z -> gmap positive Z) : state -> state :=
  with_browser (fun b => {| sockets := sockets b; intervals := f (intervals b);
                            stopped := stopped b; sent := sent b; chimes := chimes b;
                            next := next b |}).
Definition set_stopped (f : gset positive -> gset positive) : state -> state :=
  with_browser (fun b => {| sockets := sockets b; intervals := intervals b;
                            stopped := f (stopped b); sent := sent b; chimes := chimes b;
                            next := next b |}).
Definition set_sent (f : list (positive * DataURL) -> list (positive * DataURL))
  : state -> state :=
  with_browser (fun b => {| sockets := sockets b; intervals := intervals b;
                            stopped := stopped b; sent := f (sent b); chimes := chimes b;
                            next := next b |}).
Definition set_chimes (f : nat -> nat) : state -> state :=
  with_browser (fun b => {| sockets := sockets b; intervals := intervals b;
                            stopped := stopped b; sent := sent b; chimes := f (chimes b);
                            next := next b |}).
Definition set_next (n : positive) : state -> state :=
  with_browser (fun b => {| sockets := sockets b; intervals := intervals b;
                            stopped := stopped b; sent := sent b; chimes := chimes b;
                            next := n |}).

(** ** Browser calls *)

(** [new WebSocket(url)]: a fresh socket, connecting. *)
Definition new_WebSocket (st : state) : positive * state :=
  let ws := next (browser st) in
  (ws, set_next (Pos.succ ws) (set_sockets (fun m => <[ws := CONNECTING]> m) st)).

(** [ws.close()]: a socket that is connecting or open starts closing. *)
Definition ws_close (ws : positive) : state -> state :=
  set_sockets (fun m =>
    match m !! ws with
    | Some CONNECTING | Some OPEN => <[ws := CLOSING]> m
    | _ => m
    end).

(** [ws.send(data)]: an open socket takes the message. *)
Definition ws_send (ws : positive) (data : DataURL) (st : state) : state :=
  match sockets (browser st) !! ws with
  | Some OPEN => set_sent (cons (ws, data)) st
  | _ => st
  end.

(** [setInterval(() => sendFrame(), ms)] *)
Definition setInterval (ms : Z) (st : state) : positive * state :=
  let i := next (browser st) in
  (i, set_next (Pos.succ i) (set_intervals (fun m => <[i := ms]> m) st)).

(** [clearInterval(i)] *)
Definition clearInterval (i : positive) : state -> state :=
  set_intervals (fun m => delete i m).

(** [t.stop()] *)
Definition track_stop (t : positive) : state -> state :=
  set_stopped (fun e => {[t]} ∪ e).

Definition playSuccessSound : state -> state := set_chimes S.

(** [canvas.toDataURL(type, quality)] *)
Definition toDataURL (c : canvas) (type : string) (q : number) : DataURL :=
  {| mime := type; quality := q; pixel_width := width c;
     pixel_height := height c; image := drawn c |}.

(** ** The page's functions *)

(** [connectWS].  The four handlers it installs are the cases [WsOpen],
    [WsClose], [WsError] and [WsMessage] of [step] below. *)
Definition connectWS (st : state) : state :=
  let (ws, st1) := new_WebSocket st in
  set_wsRef (Some ws) st1.

(** The updater passed to [setMarkedStudents] for a marked face. *)
Definition addMarked (f : DetectedFace) (now : string)
    (prev : list MarkedStudent.t) : list MarkedStudent.t :=
  if existsb (fun s => String.eqb (MarkedStudent.name s) (name f)) prev then prev
  else {| MarkedStudent.name := name f; MarkedStudent.time := now |} :: prev.

(** [faces.forEach(...)]; [clock i] is the time string the updater of the
    face at index [i] reads. *)
Fixpoint forEach_face (faces : list DetectedFace) (i : nat) (clock : nat -> string)
    (st : state) : state :=
  match faces with
  | [] => st
  | f :: rest =>
      let st1 :=
        if marked f
        then setMarkedStudents (addMarked f (clock i)) (playSuccessSound st)
        else st in
      forEach_face rest (S i) clock st1
  end.

(** [ws.onmessage]: the [try] body, and nothing at all when [JSON.parse]
    throws. *)
Definition onmessage (r : reply) (clock : nat -> string) (st : state) : state :=
  match r with
  | Unparsable | Null => st
  | Data d =>
      let faces := default [] d in
      forEach_face faces 0 clock (setDetected faces st)
  end.

(** [sendFrame]; [img] is the frame the video shows at that moment. *)
Definition sendFrame (img : nat) (st : state) : state :=
  match wsRef (refs st) with
  | None => st
  | Some ws =>
      if decide (sockets (browser st) !! ws = Some OPEN) then
        match videoRef (refs st), canvasRef (refs st) with
        | Some _, Some c =>
            if context2d c then
              let c' := {| width := 640; height := 480;
                           context2d := true; drawn := Some img |} in
              ws_send ws (toDataURL c' "image/jpeg" (fl (7 # 10))) (set_canvasRef (Some c') st)
            else st
        | _, _ => st
        end
      else st
  end.

(** [startSession], in the pieces its two [await]s cut it into: up to
    [getUserMedia], from the stream to [play()], and after [play()]; and
    its [catch]. *)
Definition startSession (st : state) : state :=
  setDetected [] (setError None st).

Definition startSession_stream (tracks : list positive) (st : state) : state :=
  let st1 := set_streamRef (Some tracks) st in
  match videoRef (refs st1) with
  | Some _ => set_videoRef (Some {| srcObject := Some tracks |}) st1
  | None => st1
  end.

Definition startSession_playing (now : Z) (st : state) : state :=
  let st1 := connectWS (setSessionStart (Some now) (setIsCameraActive true st)) in
  let (i, st2) := setInterval 1500 st1 in
  set_intervalRef (Some i) st2.

Definition startSession_catch (st : state) : state :=
  setError (Some "Failed to access camera. Please check permissions.") st.

(** [stopSession] *)
Definition stopSession (st : state) : state :=
  let st1 :=
    match intervalRef (refs st) with
    | Some i => set_intervalRef None (clearInterval i st)
    | None => st
    end in
  let st2 :=
    match wsRef (refs st1) with
    | Some ws => set_wsRef None (ws_close ws st1)
    | None => st1
    end in
  let st3 :=
    match streamRef (refs st2) with
    | Some tracks => set_streamRef None (fold_right track_stop st2 tracks)
    | None => st2
    end in
  let st4 :=
    match videoRef (refs st3) with
    | Some _ => set_videoRef (Some {| srcObject := None |}) st3
    | None => st3
    end in
  setDetected [] (setWsConnected false (setIsCameraActive false st4)).

(** ** What happens to the page *)

Inductive event :=
| StartSession                                       (* the Start button *)
| MediaGranted (tracks : list positive)              (* [getUserMedia] resolves *)
| MediaRejected                                      (* ... or rejects *)
| PlayResolved (now : Z)                             (* [video.play()] resolves *)
| PlayRejected                                       (* ... or rejects *)
| StopSession                                        (* the End button *)
| WsOpen (ws : positive)                             (* the connection is established *)
| WsClose (ws : positive)                            (* the connection is gone *)
| WsError (ws : positive)
| WsMessage (ws : positive) (r : reply) (clock : nat -> string)
| Tick (i : positive) (img : nat).                   (* timer [i] fires *)

(** The browser fires [open] on a connecting socket, [message] on an open
    one only, and runs the callback of a timer only while it is set. *)
Definition step (st : state) (e : event) : state :=
  match e with
  | StartSession => startSession st
  | MediaGranted tracks => startSession_stream tracks st
  | MediaRejected | PlayRejected => startSession_catch st
  | PlayResolved now => startSession_playing now st
  | StopSession => stopSession st
  | WsOpen ws =>
      match sockets (browser st) !! ws with
      | Some CONNECTING =>
          setWsConnected true (set_sockets (fun m => <[ws := OPEN]> m) st)
      | _ => st
      end
  | WsClose ws =>
      match sockets (browser st) !! ws with
      | Some CLOSED | None => st
      | Some _ => setWsConnected false (set_sockets (fun m => <[ws := CLOSED]> m) st)
      end
  | WsError ws =>
      match sockets (browser st) !! ws with
      | Some _ => setWsConnected false st
      | None => st
      end
  | WsMessage ws r clock =>
      if decide (sockets (browser st) !! ws = Some OPEN)
      then onmessage r clock st else st
  | Tick i img =>
      match intervals (browser st) !! i with
      | Some _ => sendFrame img st
      | None => st
      end
  end.

Definition run (st : state) (es : list event) : state := fold_left step es st.

Definition is_tick (e : event) : bool :=
  match e with Tick _ _ => true | _ => false end.

Definition ticks (es : list event) : nat := length (List.filter is_tick es).

(** ** Rendering *)

(** What the overlay effect draws for the faces, as the canvas calls it
    makes.  A width that is not a finite number is [None]. *)
Inductive command :=
| strokeRect (strokeStyle : string) (lineWidth x y w h : number)
| fillRoundRect (fillStyle : string) (x y : number) (w : option number) (h r : number)
| fillText (fillStyle : string) (font_px : number) (text : string) (x y : number).

(** [Math.round(d.confidence * 100)], as the integer it is. *)
Definition percent (c : number) : Z := Qfloor (Math_round (dmul c 100)).

(** [s.charAt(0)] *)
Definition charAt0 (s : string) : string :=
  match s with
  | EmptyString => EmptyString
  | String c _ => String c EmptyString
  end.

(** [!d.confirmed && d.frames_required > 0] *)
Definition bar_shown (d : DetectedFace) : bool :=
  negb (confirmed d) && (0 <? frames_required d).

(** [Math.min(d.frames_confirmed / d.frames_required, 1)] *)
Definition progress (d : DetectedFace) : option number :=
  q ← ddiv (inject_Z (frames_confirmed d)) (inject_Z (frames_required d));
  Some (Math_min q 1).

Section Overlay.

(** [video.getBoundingClientRect()], and [ctx.measureText(text).width] under
    a bold font of the given size. *)
Variables rect_width rect_height : number.
Variable measureText : number -> string -> number.

(** [overlay.width = rect.width]: a canvas dimension keeps the integer part. *)
Definition overlay_width : number := inject_Z (Qfloor rect_width).
Definition scaleX : number := divide rect_width 640.
Definition scaleY : number := divide rect_height 480.

(** The confirmation progress bar below a box at [(bx, bY)] of size
    [bw * bh]. *)
Definition progress_bar (bx bY bw bh : number) (d : DetectedFace) : list command :=
  if bar_shown d then
    let barW := bw in
    let barH := 4%Q in
    let barY := dadd (dadd bY bh) 6 in
    [ fillRoundRect "rgba(255,255,255,0.25)" bx barY (Some barW) barH 2;
      fillRoundRect "#8b5cf6" bx barY (p ← progress d; Some (dmul barW p)) barH 2 ]
  else [].

(** The body of [detected.forEach((d) => ...)] in the overlay effect. *)
Definition draw_face (d : DetectedFace) : list command :=
  let bx := dmul (x (bbox d)) scaleX in
  let bY := dmul (y (bbox d)) scaleY in
  let bw := dmul (w (bbox d)) scaleX in
  let bh := dmul (h (bbox d)) scaleY in
  let labelText := (name d ++ "  " ++ pretty (percent (confidence d)) ++ "%")%string in
  let font := Math_round (dmul overlay_width (fl (22 # 1000))) in
  let lw := dadd (measureText font labelText) 16 in
  let lh := 26%Q in
  let lx := bx in
  let ly := dsub (dsub bY lh) 4 in
  [ strokeRect (if confirmed d then "#10b981" else "#8b5cf6") 2 bx bY bw bh;
    fillRoundRect (if confirmed d then "rgba(16, 185, 129, 0.85)"
                   else "rgba(139, 92, 246, 0.85)") lx ly (Some lw) lh 6;
    fillText "#ffffff" font labelText (dadd lx 8) (dadd ly 18) ]
  ++ progress_bar bx bY bw bh d.

(** The oval guide reads only whether some face is confirmed and whether
    there is a face at all: its colour and its caption. *)
Definition guide (ds : list DetectedFace) : string * string :=
  if existsb confirmed ds then ("#10b981", "✓ Face Confirmed!")
  else if (0 <? Z.of_nat (length ds)) then ("#fbbf24", "Hold still — verifying...")
  else ("rgba(255, 255, 255, 0.7)", "Position your face inside the oval").

Definition draw (ds : list DetectedFace) : (string * string) * list command :=
  (guide ds, flat_map draw_face ds).

End Overlay.

(** A row of the "Now Detecting" panel: avatar colour, initial, name, the
    colour and the width (in percent) of the confidence bar, and whether
    the check mark shows. *)
Definition detecting_row (d : DetectedFace)
  : string * string * string * string * Z * bool :=
  (if confirmed d then "from-emerald-500 to-emerald-600"
   else "from-primary-500 to-primary-600",
   charAt0 (name d),
   name d,
   if gt (confidence d) (fl (7 # 10)) then "bg-emerald-500"
   else if gt (confidence d) (1 # 2) then "bg-amber-500" else "bg-red-400",
   percent (confidence d),
   confirmed d).

(** The declared properties of two records agree. *)
Definition same_fields (f g : DetectedFace) : Prop :=
  name f = name g /\ confidence f = confidence g /\ marked f = marked g /\
  confirmed f = confirmed g /\
  x (bbox f) = x (bbox g) /\ y (bbox f) = y (bbox g) /\
  w (bbox f) = w (bbox g) /\ h (bbox f) = h (bbox g) /\
  frames_confirmed f = frames_confirmed g /\
  frames_required f = frames_required g.

(** ** The session log *)

Ltac break_match :=
  match goal with
  | |- context [match ?x with _ => _ end] => destruct x eqn:?
  end.

Lemma fold_track_stop_refs (tracks : list positive) (st : state) :
  refs (fold_right track_stop st tracks) = refs st.
Proof. induction tracks as [|t tracks IH]; simpl; [reflexivity | exact IH]. Qed.

Lemma fold_track_stop_ui (tracks : list positive) (st : state) :
  ui (fold_right track_stop st tracks) = ui st.
Proof. induction tracks as [|t tracks IH]; simpl; [reflexivity | exact IH]. Qed.

Definition names (log : list MarkedStudent.t) : list string :=
  MarkedStudent.name <$> log.

Definition entries_of (n : string) (log : list MarkedStudent.t) : list MarkedStudent.t :=
  List.filter (fun s => String.eqb (MarkedStudent.name s) n) log.

Definition log_of (st : state) : list MarkedStudent.t := markedStudents (ui st).

Lemma some_name_spec (n : string) (prev : list MarkedStudent.t) :
  existsb (fun s => String.eqb (MarkedStudent.name s) n) prev = true <-> n ∈ names prev.
Proof.
  unfold names. rewrite existsb_exists, list_elem_of_fmap. split.
  - intros (s & Hin & Heq). apply String.eqb_eq in Heq.
    exists s. split; [congruence | by apply list_elem_of_In].
  - intros (s & Heq & Hin). exists s. split; [by apply list_elem_of_In|].
    apply String.eqb_eq. congruence.
Qed.

Lemma addMarked_present (f : DetectedFace) (now : string) (prev : list MarkedStudent.t) :
  name f ∈ names prev -> addMarked f now prev = prev.
Proof.
  intros Hin. unfold addMarked.
  apply some_name_spec in Hin. rewrite Hin. reflexivity.
Qed.

Lemma addMarked_absent (f : DetectedFace) (now : string) (prev : list MarkedStudent.t) :
  name f ∉ names prev ->
  addMarked f now prev = {| MarkedStudent.name := name f; MarkedStudent.time := now |} :: prev.
Proof.
  intros Hnin. unfold addMarked.
  destruct (existsb _ prev) eqn:E; [|reflexivity].
  apply some_name_spec in E. contradiction.
Qed.

Lemma addMarked_NoDup (f : DetectedFace) (now : string) (prev : list MarkedStudent.t) :
  NoDup (names prev) -> NoDup (names (addMarked f now prev)).
Proof.
  intros Hnd. destruct (decide (name f ∈ names prev)) as [Hin|Hnin].
  - rewrite addMarked_present by exact Hin. exact Hnd.
  - rewrite addMarked_absent by exact Hnin. unfold names. simpl.
    apply NoDup_cons. split; assumption.
Qed.

(** Once a name is in the log its entries stay as they are. *)
Lemma addMarked_entries (n : string) (f : DetectedFace) (now : string)
    (prev : list MarkedStudent.t) :
  n ∈ names prev -> entries_of n (addMarked f now prev) = entries_of n prev.
Proof.
  intros Hin. destruct (decide (name f ∈ names prev)) as [Hf|Hf].
  - rewrite addMarked_present by exact Hf. reflexivity.
  - rewrite addMarked_absent by exact Hf. unfold entries_of. simpl.
    destruct (String.eqb_spec (name f) n) as [Heq|Hne]; [|reflexivity].
    subst n. contradiction.
Qed.

Lemma addMarked_keeps (n : string) (f : DetectedFace) (now : string)
    (prev : list MarkedStudent.t) :
  n ∈ names prev -> n ∈ names (addMarked f now prev).
Proof.
  intros Hin. unfold addMarked. destruct (existsb _ prev); [exact Hin|].
  unfold names. simpl. apply elem_of_cons. right. exact Hin.
Qed.

(** A property of the log that every updater keeps is kept by a whole
    reply, and by every event. *)
Section LogInvariant.
Variable P : list MarkedStudent.t -> Prop.
Hypothesis P_addMarked : forall f now prev, P prev -> P (addMarked f now prev).

Lemma forEach_face_log (faces : list DetectedFace) (i : nat) (clock : nat -> string)
    (st : state) :
  P (log_of st) -> P (log_of (forEach_face faces i clock st)).
Proof using P_addMarked.
  revert i st. induction faces as [|f rest IH]; intros i st HP; simpl; [exact HP|].
  apply IH. destruct (marked f); [|exact HP].
  unfold log_of. simpl. apply P_addMarked. exact HP.
Qed.

Lemma onmessage_log (r : reply) (clock : nat -> string) (st : state) :
  P (log_of st) -> P (log_of (onmessage r clock st)).
Proof using P_addMarked.
  intros HP. destruct r as [| |d]; simpl; [exact HP|exact HP|].
  apply forEach_face_log. exact HP.
Qed.

Lemma sendFrame_log (img : nat) (st : state) : log_of (sendFrame img st) = log_of st.
Proof.
  unfold sendFrame, ws_send.
  destruct (wsRef (refs st)) as [ws|]; [|reflexivity].
  destruct (decide _) as [Ho|]; [|reflexivity].
  destruct (videoRef (refs st)); [|reflexivity].
  destruct (canvasRef (refs st)) as [c|]; [|reflexivity].
  destruct (context2d c); [|reflexivity].
  simpl. rewrite Ho. reflexivity.
Qed.

Lemma stopSession_log (st : state) : log_of (stopSession st) = log_of st.
Proof.
  unfold stopSession, log_of. cbv zeta.
  repeat break_match; simpl; rewrite ?fold_track_stop_ui; reflexivity.
Qed.

Lemma step_log (st : state) (e : event) : P (log_of st) -> P (log_of (step st e)).
Proof using P_addMarked.
  intros HP. destruct e; simpl; try exact HP.
  - unfold startSession_stream. simpl. destruct (videoRef (refs st)); exact HP.
  - rewrite stopSession_log. exact HP.
  - destruct (sockets (browser st) !! ws) as [[]|]; exact HP.
  - destruct (sockets (browser st) !! ws) as [[]|]; exact HP.
  - destruct (sockets (browser st) !! ws); exact HP.
  - destruct (decide _); [apply onmessage_log|]; exact HP.
  - destruct (intervals (browser st) !! i); [rewrite sendFrame_log|]; exact HP.
Qed.

Lemma run_log (st : state) (es : list event) : P (log_of st) -> P (log_of (run st es)).
Proof using P_addMarked.
  revert st. induction es as [|e es IH]; intros st HP; simpl; [exact HP|].
  apply IH, step_log, HP.
Qed.

End LogInvariant.

Lemma entries_of_absent (n : string) (log : list MarkedStudent.t) :
  n ∉ names log -> entries_of n log = [].
Proof.
  induction log as [|s log IH]; intros Hn; simpl; [reflexivity|].
  unfold names in Hn. simpl in Hn. apply not_elem_of_cons in Hn as [Hne Hn].
  destruct (String.eqb_spec (MarkedStudent.name s) n) as [Heq|_]; [congruence|].
  apply IH, Hn.
Qed.

Lemma entries_of_NoDup (n : string) (log : list MarkedStudent.t) :
  NoDup (names log) -> (length (entries_of n log) <= 1)%nat.
Proof.
  induction log as [|s log IH]; intros Hnd; simpl; [lia|].
  unfold names in Hnd. simpl in Hnd. apply NoDup_cons in Hnd as [Hs Hnd].
  destruct (String.eqb_spec (MarkedStudent.name s) n) as [Heq|Hne].
  - subst n. simpl. rewrite (entries_of_absent _ log Hs). simpl. lia.
  - apply IH, Hnd.
Qed.

(** A face the server reports as marked. *)
Definition marked_face (n : string) : DetectedFace :=
  {| name := n; confidence := 1; marked := true; confirmed := true;
     bbox := {| x := 0; y := 0; w := 0; h := 0 |};
     frames_confirmed := 5; frames_required := 5; other := [] |}.

(** A session that is started and whose socket is open: the stream has
    track 9, the socket is handle 1 and the timer handle 2. *)
Definition live : list event :=
  [StartSession; MediaGranted [9%positive]; PlayResolved 0; WsOpen 1].

(** C1. At-most-once marking.  Whatever the page receives, its session log
    never holds two entries of one name; so the log holds at most one entry
    for any name.  Once a name is in the log, no event changes the entries
    of that name, and the updater queued for a marked face of that name
    returns the log it was given. *)
Theorem marked_at_most_once (es : list event) (n : string) :
  NoDup (names (log_of (run mounted es))) /\
  (length (entries_of n (log_of (run mounted es))) <= 1)%nat /\
  (forall e, n ∈ names (log_of (run mounted es)) ->
     entries_of n (log_of (step (run mounted es) e)) =
     entries_of n (log_of (run mounted es))) /\
  (forall f now, name f = n -> n ∈ names (log_of (run mounted es)) ->
     addMarked f now (log_of (run mounted es)) = log_of (run mounted es)).
Proof.
  assert (Hnd : NoDup (names (log_of (run mounted es)))).
  { apply (run_log (fun l => NoDup (names l))).
    - intros f now prev. apply addMarked_NoDup.
    - apply NoDup_nil_2. }
  split; [exact Hnd|]. split; [apply entries_of_NoDup, Hnd|]. split.
  - intros e Hin.
    set (E := entries_of n (log_of (run mounted es))).
    apply (step_log (fun l => n ∈ names l /\ entries_of n l = E)).
    + intros f now prev [Hp He]. split.
      * apply addMarked_keeps, Hp.
      * rewrite addMarked_entries by exact Hp. exact He.
    + split; [exact Hin | reflexivity].
  - intros f now <- Hin. apply addMarked_present, Hin.
Qed.

(** Two replies mark Alice; the log has her once, with the first time. *)
Lemma marked_at_most_once_witness :
  log_of (run mounted
            (live ++ [WsMessage 1 (Data (Some [marked_face "Alice"])) (fun _ => "9:00");
                      WsMessage 1 (Data (Some [marked_face "Alice"; marked_face "Alice"]))
                                (fun _ => "9:01")]))
    = [ {| MarkedStudent.name := "Alice"; MarkedStudent.time := "9:00" |} ] /\
  (length (entries_of "Alice"
     (log_of (run mounted
            (live ++ [WsMessage 1 (Data (Some [marked_face "Alice"])) (fun _ => "9:00");
                      WsMessage 1 (Data (Some [marked_face "Alice"; marked_face "Alice"]))
                                (fun _ => "9:01")])))) <= 1)%nat.
Proof.
  split; [vm_compute; reflexivity|].
  apply (marked_at_most_once _ "Alice").
Defined.

(** ** Sending frames *)

(** [wsRef.current] is a socket whose [readyState] is [OPEN]. *)
Definition socket_open (st : state) : Prop :=
  exists ws, wsRef (refs st) = Some ws /\ sockets (browser st) !! ws = Some OPEN.

(** The one message a successful [sendFrame] sends. *)
Definition frame_message (img : nat) : DataURL :=
  {| mime := "image/jpeg"; quality := fl (7 # 10);
     pixel_width := 640; pixel_height := 480; image := Some img |}.

(** [sendFrame] does one of two things. *)
Lemma sendFrame_cases (img : nat) (st : state) :
  sendFrame img st = st \/
  exists ws c,
    wsRef (refs st) = Some ws /\ sockets (browser st) !! ws = Some OPEN /\
    videoRef (refs st) <> None /\ canvasRef (refs st) = Some c /\ context2d c = true /\
    sendFrame img st =
      set_sent (cons (ws, frame_message img))
        (set_canvasRef (Some {| width := 640; height := 480;
                                context2d := true; drawn := Some img |}) st).
Proof.
  unfold sendFrame.
  destruct (wsRef (refs st)) as [ws|] eqn:Ews; [|left; reflexivity].
  destruct (decide _) as [Ho|]; [|left; reflexivity].
  destruct (videoRef (refs st)) eqn:Ev; [|left; reflexivity].
  destruct (canvasRef (refs st)) as [c|] eqn:Ec; [|left; reflexivity].
  destruct (context2d c) eqn:E2; [|left; reflexivity].
  right. exists ws, c. repeat split; try assumption; try discriminate.
  unfold ws_send. simpl. rewrite Ho. reflexivity.
Qed.

Lemma sendFrame_closed (img : nat) (st : state) :
  ~ socket_open st \/ videoRef (refs st) = None \/ canvasRef (refs st) = None ->
  sendFrame img st = st.
Proof.
  intros H. destruct (sendFrame_cases img st) as [Hs|(ws & c & Hw & Ho & Hv & Hc & _)];
    [exact Hs|].
  exfalso. destruct H as [H|[H|H]].
  - apply H. exists ws. split; assumption.
  - contradiction.
  - congruence.
Qed.

(** C5. Per-message error isolation.  A message that [JSON.parse] rejects
    leaves the whole state of the page as it was, the socket, the timer
    and the stream included.  A parsed message without [detected] is
    treated as one with no faces: the detected list becomes empty and
    nothing else changes.  [sendFrame] is the identity on the state
    whenever the socket is not open or the video or the canvas ref is
    null. *)
Theorem message_error_isolation (st : state) (clock : nat -> string) :
  onmessage Unparsable clock st = st /\
  (forall ws, step st (WsMessage ws Unparsable clock) = st) /\
  onmessage (Data None) clock st = onmessage (Data (Some [])) clock st /\
  onmessage (Data None) clock st = setDetected [] st /\
  (forall img,
     ~ socket_open st \/ videoRef (refs st) = None \/ canvasRef (refs st) = None ->
     sendFrame img st = st).
Proof.
  split; [reflexivity|]. split.
  - intros ws. simpl. destruct (decide _); reflexivity.
  - split; [reflexivity|]. split; [reflexivity|].
    intros img. apply sendFrame_closed.
Qed.

(** Before the session starts there is no socket: a frame is not sent.  A
    malformed message on the open socket of a live session changes
    nothing. *)
Lemma message_error_isolation_witness :
  sendFrame 3 mounted = mounted /\
  step (run mounted live) (WsMessage 1 Unparsable (fun _ => "9:00")) = run mounted live.
Proof.
  split.
  - apply (message_error_isolation mounted (fun _ => "9:00")).
    left. intros (ws & Hw & _). discriminate.
  - apply (message_error_isolation (run mounted live) (fun _ => "9:00")).
Defined.

(** ** Ending the session *)

Lemma fold_track_stop_browser (tracks : list positive) (st : state) :
  sockets (browser (fold_right track_stop st tracks)) = sockets (browser st) /\
  intervals (browser (fold_right track_stop st tracks)) = intervals (browser st) /\
  sent (browser (fold_right track_stop st tracks)) = sent (browser st) /\
  forall t, t ∈ tracks -> t ∈ stopped (browser (fold_right track_stop st tracks)).
Proof.
  induction tracks as [|t0 tracks (IH1 & IH2 & IH3 & IH4)]; simpl.
  - repeat split. intros t Ht. inversion Ht.
  - repeat split; try assumption.
    intros t Ht. apply elem_of_cons in Ht as [->|Ht]; [set_solver|].
    specialize (IH4 t Ht). set_solver.
Qed.

Ltac stop_cases st :=
  unfold stopSession; cbv zeta;
  destruct (intervalRef (refs st)) as [?i|] eqn:?Ei; simpl;
  destruct (wsRef (refs st)) as [?ws|] eqn:?Ew; simpl;
  destruct (streamRef (refs st)) as [?tracks|] eqn:?Es; simpl;
  rewrite ?fold_track_stop_refs; simpl;
  destruct (videoRef (refs st)) as [?v|] eqn:?Ev; simpl;
  rewrite ?fold_track_stop_refs, ?fold_track_stop_ui; simpl.

Lemma stopSession_refs (st : state) :
  intervalRef (refs (stopSession st)) = None /\
  wsRef (refs (stopSession st)) = None /\
  streamRef (refs (stopSession st)) = None.
Proof. stop_cases st; repeat split; assumption. Qed.

Lemma stopSession_ui (st : state) :
  detected (ui (stopSession st)) = [] /\
  isCameraActive (ui (stopSession st)) = false /\
  wsConnected (ui (stopSession st)) = false.
Proof. stop_cases st; repeat split. Qed.

Lemma stopSession_intervals (st : state) :
  intervals (browser (stopSession st)) =
    match intervalRef (refs st) with
    | Some i => delete i (intervals (browser st))
    | None => intervals (browser st)
    end.
Proof.
  stop_cases st;
    rewrite ?(proj1 (proj2 (fold_track_stop_browser _ _))); reflexivity.
Qed.

Lemma stopSession_sockets (st : state) :
  sockets (browser (stopSession st)) =
    match wsRef (refs st) with
    | Some ws =>
        match sockets (browser st) !! ws with
        | Some CONNECTING | Some OPEN => <[ws := CLOSING]> (sockets (browser st))
        | _ => sockets (browser st)
        end
    | None => sockets (browser st)
    end.
Proof.
  stop_cases st;
    rewrite ?(proj1 (fold_track_stop_browser _ _)); reflexivity.
Qed.

Lemma stopSession_sent (st : state) :
  sent (browser (stopSession st)) = sent (browser st).
Proof.
  stop_cases st;
    rewrite ?(proj1 (proj2 (proj2 (fold_track_stop_browser _ _)))); reflexivity.
Qed.

Lemma stopSession_tracks (st : state) (tracks : list positive) (t : positive) :
  streamRef (refs st) = Some tracks -> t ∈ tracks ->
  t ∈ stopped (browser (stopSession st)).
Proof.
  intros Hs Ht. unfold stopSession. cbv zeta.
  destruct (intervalRef (refs st)) eqn:Ei; simpl;
    destruct (wsRef (refs st)) eqn:Ew; simpl;
    rewrite Hs; simpl; rewrite ?fold_track_stop_refs; simpl;
    destruct (videoRef (refs st)); simpl;
    apply (proj2 (proj2 (proj2 (fold_track_stop_browser _ _)))); exact Ht.
Qed.

(** The socket of the ended session is neither open nor about to open. *)
Lemma stopSession_socket_shut (st : state) (ws : positive) :
  wsRef (refs st) = Some ws ->
  sockets (browser (stopSession st)) !! ws <> Some OPEN /\
  sockets (browser (stopSession st)) !! ws <> Some CONNECTING.
Proof.
  intros Hw. rewrite stopSession_sockets, Hw.
  destruct (sockets (browser st) !! ws) as [[]|] eqn:E;
    rewrite ?lookup_insert_eq, ?E; split; congruence.
Qed.

(** What can still reach the page of a session that has ended and is not
    started again: timers firing, and the browser's events on the socket
    [ws0] the session had. *)
Definition of_session (ws0 : option positive) (e : event) : bool :=
  match e with
  | Tick _ _ => true
  | WsOpen ws | WsClose ws | WsError ws | WsMessage ws _ _ => bool_decide (ws0 = Some ws)
  | _ => false
  end.

(** No current socket, and the session's socket shut. *)
Definition shut (ws0 : option positive) (st : state) : Prop :=
  wsRef (refs st) = None /\
  forall ws, ws0 = Some ws ->
    sockets (browser st) !! ws <> Some OPEN /\
    sockets (browser st) !! ws <> Some CONNECTING.

Lemma shut_step (ws0 : option positive) (st : state) (e : event) :
  shut ws0 st -> of_session ws0 e = true ->
  shut ws0 (step st e) /\
  sent (browser (step st e)) = sent (browser st) /\
  log_of (step st e) = log_of st /\
  detected (ui (step st e)) = detected (ui st).
Proof.
  intros [Href Hsock] He. destruct e; simpl in He; try discriminate.
  - (* WsOpen *)
    apply bool_decide_eq_true in He. destruct (Hsock ws He) as [_ Hc]. simpl.
    destruct (sockets (browser st) !! ws) as [[]|] eqn:E; try congruence;
      (split; [split; assumption | repeat split]).
  - (* WsClose *)
    apply bool_decide_eq_true in He. simpl.
    destruct (sockets (browser st) !! ws) as [[]|] eqn:E;
      (split; [split; [exact Href|] | repeat split]);
      intros ws' Hws'; simpl; try (apply Hsock; exact Hws');
      assert (ws' = ws) as -> by congruence;
      rewrite lookup_insert_eq; split; discriminate.
  - (* WsError *)
    simpl. destruct (sockets (browser st) !! ws);
      (split; [split; assumption | repeat split]).
  - (* WsMessage *)
    apply bool_decide_eq_true in He. destruct (Hsock ws He) as [Ho _]. simpl.
    destruct (decide _) as [Hopen|_]; [contradiction|].
    split; [split; assumption | repeat split].
  - (* Tick *)
    simpl. destruct (intervals (browser st) !! i);
      [rewrite sendFrame_closed|];
      try (split; [split; assumption | repeat split]).
    left. intros (ws & Hw & _). congruence.
Qed.

Lemma shut_run (ws0 : option positive) (es : list event) (st : state) :
  shut ws0 st -> forallb (of_session ws0) es = true ->
  sent (browser (run st es)) = sent (browser st) /\
  log_of (run st es) = log_of st /\
  detected (ui (run st es)) = detected (ui st).
Proof.
  revert st. induction es as [|e es IH]; intros st Hs Hes; simpl; [repeat split|].
  simpl in Hes. apply andb_true_iff in Hes as [He Hes].
  destruct (shut_step ws0 st e Hs He) as (Hs' & H1 & H2 & H3).
  destruct (IH (step st e) Hs' Hes) as (I1 & I2 & I3).
  repeat split; congruence.
Qed.

(** C4. Session close tears everything down.  After [stopSession]: the
    interval ref is null and the timer it named is no longer set; the
    socket ref is null and the socket it named has been closed (it is
    neither open nor connecting); the stream ref is null and every track of
    the stream has been stopped; the detected list is empty.  From then on
    [sendFrame] does nothing, and whatever timers fire and whatever the
    browser reports or delivers on that socket, no frame is sent, the
    marked log stays as it was and the detected list stays empty. *)
Theorem stopSession_tears_down (st : state) :
  intervalRef (refs (stopSession st)) = None /\
  (forall i, intervalRef (refs st) = Some i ->
     intervals (browser (stopSession st)) !! i = None) /\
  wsRef (refs (stopSession st)) = None /\
  (forall ws, wsRef (refs st) = Some ws ->
     sockets (browser (stopSession st)) !! ws <> Some OPEN /\
     sockets (browser (stopSession st)) !! ws <> Some CONNECTING) /\
  streamRef (refs (stopSession st)) = None /\
  (forall tracks t, streamRef (refs st) = Some tracks -> t ∈ tracks ->
     t ∈ stopped (browser (stopSession st))) /\
  detected (ui (stopSession st)) = [] /\
  (forall img, sendFrame img (stopSession st) = stopSession st) /\
  (forall es, forallb (of_session (wsRef (refs st))) es = true ->
     sent (browser (run (stopSession st) es)) = sent (browser st) /\
     log_of (run (stopSession st) es) = log_of st /\
     detected (ui (run (stopSession st) es)) = []).
Proof.
  destruct (stopSession_refs st) as (Hi & Hw & Hs).
  destruct (stopSession_ui st) as (Hd & _ & _).
  assert (Hshut : shut (wsRef (refs st)) (stopSession st)).
  { split; [exact Hw|]. intros ws Hws. apply stopSession_socket_shut, Hws. }
  split; [exact Hi|]. split.
  { intros i Hsome. rewrite stopSession_intervals, Hsome. apply lookup_delete_eq. }
  split; [exact Hw|]. split.
  { intros ws Hws. apply stopSession_socket_shut, Hws. }
  split; [exact Hs|]. split.
  { intros tracks t. apply stopSession_tracks. }
  split; [exact Hd|]. split.
  { intros img. apply sendFrame_closed. left. intros (ws & Hws & _). congruence. }
  intros es Hes.
  destruct (shut_run _ es _ Hshut Hes) as (H1 & H2 & H3).
  rewrite H1, H2, H3, stopSession_sent, stopSession_log, Hd. repeat split.
Qed.

(** A live session (socket 1, timer 2, track 9) is ended; the timer's
    handle fires again and a reply marking Bob arrives on the socket. *)
Lemma stopSession_tears_down_witness :
  wsRef (refs (run mounted live)) = Some 1%positive /\
  sockets (browser (stopSession (run mounted live))) !! 1%positive = Some CLOSING /\
  intervals (browser (stopSession (run mounted live))) !! 2%positive = None /\
  9%positive ∈ stopped (browser (stopSession (run mounted live))) /\
  log_of (run (stopSession (run mounted live))
            [Tick 2 7; WsMessage 1 (Data (Some [marked_face "Bob"])) (fun _ => "9:05")])
    = log_of (run mounted live).
Proof.
  split; [reflexivity|]. split; [vm_compute; reflexivity|].
  split; [vm_compute; reflexivity|].
  split.
  - apply (proj1 (proj2 (proj2 (proj2 (proj2 (proj2
             (stopSession_tears_down (run mounted live))))))) [9%positive]);
      [reflexivity | apply list_elem_of_singleton; reflexivity].
  - apply (proj2 (proj2 (proj2 (proj2 (proj2 (proj2 (proj2 (proj2
             (stopSession_tears_down (run mounted live)))))))))).
    reflexivity.
Defined.

(** ** Pacing and shape of the frames *)

Lemma forEach_face_frame (faces : list DetectedFace) (i : nat) (clock : nat -> string)
    (st : state) :
  refs (forEach_face faces i clock st) = refs st /\
  sockets (browser (forEach_face faces i clock st)) = sockets (browser st) /\
  intervals (browser (forEach_face faces i clock st)) = intervals (browser st) /\
  sent (browser (forEach_face faces i clock st)) = sent (browser st).
Proof.
  revert i st. induction faces as [|f rest IH]; intros i st; simpl; [repeat split|].
  destruct (IH (S i) (if marked f
                      then setMarkedStudents (addMarked f (clock i)) (playSuccessSound st)
                      else st)) as (H1 & H2 & H3 & H4).
  rewrite H1, H2, H3, H4. destruct (marked f); repeat split.
Qed.

Lemma onmessage_frame (r : reply) (clock : nat -> string) (st : state) :
  refs (onmessage r clock st) = refs st /\
  sockets (browser (onmessage r clock st)) = sockets (browser st) /\
  intervals (browser (onmessage r clock st)) = intervals (browser st) /\
  sent (browser (onmessage r clock st)) = sent (browser st).
Proof.
  destruct r as [| |d]; simpl; [repeat split|repeat split|].
  destruct (forEach_face_frame (default [] d) 0 clock (setDetected (default [] d) st))
    as (H1 & H2 & H3 & H4).
  rewrite H1, H2, H3, H4. repeat split.
Qed.

(** Only a timer's tick sends, and then one message: the frame of that
    tick as a 640 x 480 JPEG. *)
Lemma step_sent (st : state) (e : event) :
  sent (browser (step st e)) = sent (browser st) \/
  exists ws i img,
    e = Tick i img /\ socket_open st /\
    sent (browser (step st e)) = (ws, frame_message img) :: sent (browser st).
Proof.
  destruct e; simpl; try (left; reflexivity).
  - left. unfold startSession_stream. simpl. destruct (videoRef (refs st)); reflexivity.
  - left. apply stopSession_sent.
  - left. destruct (sockets (browser st) !! ws) as [[]|]; reflexivity.
  - left. destruct (sockets (browser st) !! ws) as [[]|]; reflexivity.
  - left. destruct (sockets (browser st) !! ws); reflexivity.
  - left. destruct (decide _); [apply onmessage_frame | reflexivity].
  - destruct (intervals (browser st) !! i); [|left; reflexivity].
    destruct (sendFrame_cases img st) as [->|(ws & c & Hw & Ho & _ & _ & _ & ->)];
      [left; reflexivity|].
    right. exists ws, i, img. split; [reflexivity|]. split; [|reflexivity].
    exists ws. split; assumption.
Qed.

Lemma run_sent_length (es : list event) (st : state) :
  (length (sent (browser (run st es))) <= length (sent (browser st)) + ticks es)%nat.
Proof.
  revert st. induction es as [|e es IH]; intros st; simpl; [lia|].
  specialize (IH (step st e)). unfold ticks in *. simpl.
  destruct (step_sent st e) as [Hs|(ws & i & img & -> & _ & Hs)].
  - rewrite Hs in IH. destruct (is_tick e); simpl; lia.
  - rewrite Hs in IH. simpl in *. lia.
Qed.

Definition is_frame (m : positive * DataURL) : Prop :=
  exists img, snd m = frame_message img.

Lemma run_sent_frames (es : list event) (st : state) :
  Forall is_frame (sent (browser st)) -> Forall is_frame (sent (browser (run st es))).
Proof.
  revert st. induction es as [|e es IH]; intros st HF; simpl; [exact HF|].
  apply IH. destruct (step_sent st e) as [->|(ws & i & img & _ & _ & ->)]; [exact HF|].
  apply Forall_cons. split; [|exact HF]. exists img. reflexivity.
Qed.

(** Every timer the page sets has a period of 1500 ms. *)
Definition paced (st : state) : Prop :=
  forall i ms, intervals (browser st) !! i = Some ms -> ms = 1500.

Lemma step_paced (st : state) (e : event) : paced st -> paced (step st e).
Proof.
  intros HP. destruct e; simpl; try exact HP.
  - unfold startSession_stream. simpl. destruct (videoRef (refs st)); exact HP.
  - intros i ms. simpl. intros H. apply lookup_insert_Some in H as [[_ <-]|[_ H]];
      [reflexivity | exact (HP i ms H)].
  - intros i ms. rewrite stopSession_intervals.
    destruct (intervalRef (refs st)) as [j|]; [|apply HP].
    intros H. apply lookup_delete_Some in H as [_ H]. exact (HP i ms H).
  - destruct (sockets (browser st) !! ws) as [[]|]; exact HP.
  - destruct (sockets (browser st) !! ws) as [[]|]; exact HP.
  - destruct (sockets (browser st) !! ws); exact HP.
  - destruct (decide _); [|exact HP].
    intros i ms. rewrite (proj1 (proj2 (proj2 (onmessage_frame r clock st)))). apply HP.
  - destruct (intervals (browser st) !! i); [|exact HP].
    destruct (sendFrame_cases img st) as [->|(ws & c & _ & _ & _ & _ & _ & ->)]; exact HP.
Qed.

Lemma run_paced (es : list event) (st : state) : paced st -> paced (run st es).
Proof.
  revert st. induction es as [|e es IH]; intros st HP; simpl; [exact HP|].
  apply IH, step_paced, HP.
Qed.

(** C7. Client-paced frame flow.  Every timer of the page has the period
    of 1500 ms.  A tick sends at most one message, and that message is the
    frame captured at this very tick: no frame waits in the page for a
    later tick.  A tick that does not find the socket open sends nothing.
    So, over any run of the page, the number of frames sent never exceeds
    the number of ticks. *)
Theorem frames_paced (es : list event) :
  paced (run mounted es) /\
  (length (sent (browser (run mounted es))) <= ticks es)%nat /\
  (forall st i img,
     sent (browser (step st (Tick i img))) = sent (browser st) \/
     exists ws,
       sent (browser (step st (Tick i img))) = (ws, frame_message img) :: sent (browser st)) /\
  (forall st i img, ~ socket_open st ->
     step st (Tick i img) = st).
Proof.
  split; [|split; [|split]].
  - apply run_paced. intros i ms H. simpl in H. rewrite lookup_empty in H. discriminate.
  - apply (run_sent_length es mounted).
  - intros st i img.
    destruct (step_sent st (Tick i img)) as [H|(ws & i' & img' & Heq & _ & H)];
      [left; exact H|].
    injection Heq as _ <-. right. exists ws. exact H.
  - intros st i img Hclosed. simpl.
    destruct (intervals (browser st) !! i); [|reflexivity].
    apply sendFrame_closed. left. exact Hclosed.
Qed.

(** Three ticks of a live session while the socket is open, and one
    before it opens: three frames, four ticks. *)
Lemma frames_paced_witness :
  length (sent (browser (run mounted
     [StartSession; MediaGranted [9%positive]; PlayResolved 0;
      Tick 2 0; WsOpen 1; Tick 2 1; Tick 2 2; Tick 2 3]))) = 3%nat /\
  (length (sent (browser (run mounted
     [StartSession; MediaGranted [9%positive]; PlayResolved 0;
      Tick 2 0; WsOpen 1; Tick 2 1; Tick 2 2; Tick 2 3]))) <= 4)%nat /\
  step mounted (Tick 2 0) = mounted.
Proof.
  split; [vm_compute; reflexivity|]. split.
  - apply (proj1 (proj2 (frames_paced
      [StartSession; MediaGranted [9%positive]; PlayResolved 0;
       Tick 2 0; WsOpen 1; Tick 2 1; Tick 2 2; Tick 2 3]))).
  - apply (proj2 (proj2 (proj2 (frames_paced [])))).
    intros (ws & Hw & _). discriminate.
Defined.

(** ** The fields of a reply the page reads *)

(** Two states the page renders alike: they differ at most in the
    undeclared properties of the detected faces. *)
Definition same_view (s1 s2 : state) : Prop :=
  refs s1 = refs s2 /\ browser s1 = browser s2 /\
  isCameraActive (ui s1) = isCameraActive (ui s2) /\
  wsConnected (ui s1) = wsConnected (ui s2) /\
  markedStudents (ui s1) = markedStudents (ui s2) /\
  sessionStart (ui s1) = sessionStart (ui s2) /\
  error (ui s1) = error (ui s2) /\
  Forall2 same_fields (detected (ui s1)) (detected (ui s2)).

Definition face_of (n : string) (c : number) (m cf : bool) (bx bY bw bh : number)
    (fc fr : Z) (o : list (string * string)) : DetectedFace :=
  {| name := n; confidence := c; marked := m; confirmed := cf;
     bbox := {| x := bx; y := bY; w := bw; h := bh |};
     frames_confirmed := fc; frames_required := fr; other := o |}.

(** What the page shows and does for one face of a reply, on an overlay of
    640 x 480 with a font in which every text has width 0: the canvas
    calls, the panel row, and the sounds played. *)
Definition reaction (f : DetectedFace) : list command * (string * string * string * string * Z * bool) * nat :=
  (draw_face 640 480 (fun _ _ => 0%Q) f,
   detecting_row f,
   chimes (browser (onmessage (Data (Some [f])) (fun _ => EmptyString) mounted))).

Lemma same_fields_eta (f g : DetectedFace) :
  same_fields f g ->
  g = face_of (name f) (confidence f) (marked f) (confirmed f)
        (x (bbox f)) (y (bbox f)) (w (bbox f)) (h (bbox f))
        (frames_confirmed f) (frames_required f) (other g).
Proof.
  intros (H1 & H2 & H3 & H4 & H5 & H6 & H7 & H8 & H9 & H10).
  destruct f as [? ? ? ? [] ? ? ?], g as [? ? ? ? [] ? ? ?]. simpl in *. subst.
  reflexivity.
Qed.

Lemma same_fields_draw (rw rh : number) (mt : number -> string -> number)
    (f g : DetectedFace) :
  same_fields f g ->
  draw_face rw rh mt f = draw_face rw rh mt g /\ detecting_row f = detecting_row g /\
  confirmed f = confirmed g /\
  forall now prev, addMarked f now prev = addMarked g now prev.
Proof.
  intros H. rewrite (same_fields_eta f g H).
  destruct f as [? ? ? ? [] ? ? ?]. repeat split.
Qed.

Lemma same_fields_draw_all (rw rh : number) (mt : number -> string -> number)
    (fs gs : list DetectedFace) :
  Forall2 same_fields fs gs ->
  draw rw rh mt fs = draw rw rh mt gs /\ map detecting_row fs = map detecting_row gs.
Proof.
  intros HF.
  assert (Hlen : length fs = length gs) by (eapply Forall2_length; exact HF).
  assert (Hex : existsb confirmed fs = existsb confirmed gs).
  { induction HF as [|f g fs gs Hfg _ IH]; [reflexivity|].
    cbn [existsb]. destruct (same_fields_draw rw rh mt f g Hfg) as (_ & _ & -> & _).
    rewrite IH; [reflexivity|]. simpl in Hlen. congruence. }
  assert (Hdr : flat_map (draw_face rw rh mt) fs = flat_map (draw_face rw rh mt) gs).
  { clear Hlen Hex. induction HF as [|f g fs gs Hfg _ IH]; [reflexivity|].
    cbn [flat_map]. destruct (same_fields_draw rw rh mt f g Hfg) as (-> & _).
    rewrite IH. reflexivity. }
  split.
  - unfold draw, guide. rewrite Hex, Hlen, Hdr. reflexivity.
  - clear Hlen Hex Hdr. induction HF as [|f g fs gs Hfg _ IH]; [reflexivity|].
    cbn [map]. destruct (same_fields_draw rw rh mt f g Hfg) as (_ & -> & _).
    rewrite IH. reflexivity.
Qed.

Lemma forEach_face_same_view (fs gs : list DetectedFace) :
  Forall2 same_fields fs gs ->
  forall i clock s1 s2, same_view s1 s2 ->
    same_view (forEach_face fs i clock s1) (forEach_face gs i clock s2).
Proof.
  induction 1 as [|f g fs gs Hfg _ IH]; intros i clock s1 s2 Hs; simpl; [exact Hs|].
  apply IH. destruct Hfg as (Hn & _ & Hm & _). rewrite <- Hm.
  destruct (marked f); [|exact Hs].
  destruct Hs as (H1 & H2 & H3 & H4 & H5 & H6 & H7 & H8).
  unfold same_view. simpl. rewrite H1, H2, H3, H4, H5, H6, H7.
  unfold addMarked. rewrite Hn. repeat split. exact H8.
Qed.

(** C6. Protocol message shape.  Every message the page has sent is one
    still image: the data URL of the 640 x 480 capture canvas, of type
    image/jpeg.  What the page does with a reply depends on the declared
    properties of its face records only: two replies whose records agree
    on name, confidence, marked, confirmed, bbox.x, bbox.y, bbox.w, bbox.h,
    frames_confirmed and frames_required lead to states that are rendered
    alike, with the same log, sounds, refs and browser state.  And each of
    these properties is read: changing it alone changes what the page shows
    or does. *)
Theorem protocol_shape :
  (forall es m, m ∈ sent (browser (run mounted es)) ->
     exists img, snd m = frame_message img) /\
  (forall fs gs clock st, Forall2 same_fields fs gs ->
     same_view (onmessage (Data (Some fs)) clock st) (onmessage (Data (Some gs)) clock st) /\
     forall rw rh mt,
       draw rw rh mt fs = draw rw rh mt gs /\
       map detecting_row fs = map detecting_row gs) /\
  reaction (face_of "A" (1 # 2) false false 10 20 30 40 1 5 []) <>
    reaction (face_of "B" (1 # 2) false false 10 20 30 40 1 5 []) /\
  reaction (face_of "A" (1 # 2) false false 10 20 30 40 1 5 []) <>
    reaction (face_of "A" (1 # 4) false false 10 20 30 40 1 5 []) /\
  reaction (face_of "A" (1 # 2) false false 10 20 30 40 1 5 []) <>
    reaction (face_of "A" (1 # 2) true false 10 20 30 40 1 5 []) /\
  reaction (face_of "A" (1 # 2) false false 10 20 30 40 1 5 []) <>
    reaction (face_of "A" (1 # 2) false true 10 20 30 40 1 5 []) /\
  reaction (face_of "A" (1 # 2) false false 10 20 30 40 1 5 []) <>
    reaction (face_of "A" (1 # 2) false false 11 20 30 40 1 5 []) /\
  reaction (face_of "A" (1 # 2) false false 10 20 30 40 1 5 []) <>
    reaction (face_of "A" (1 # 2) false false 10 21 30 40 1 5 []) /\
  reaction (face_of "A" (1 # 2) false false 10 20 30 40 1 5 []) <>
    reaction (face_of "A" (1 # 2) false false 10 20 31 40 1 5 []) /\
  reaction (face_of "A" (1 # 2) false false 10 20 30 40 1 5 []) <>
    reaction (face_of "A" (1 # 2) false false 10 20 30 41 1 5 []) /\
  reaction (face_of "A" (1 # 2) false false 10 20 30 40 1 5 []) <>
    reaction (face_of "A" (1 # 2) false false 10 20 30 40 2 5 []) /\
  reaction (face_of "A" (1 # 2) false false 10 20 30 40 1 5 []) <>
    reaction (face_of "A" (1 # 2) false false 10 20 30 40 1 4 []).
Proof.
  split.
  { intros es m Hm.
    assert (HF : Forall is_frame (sent (browser (run mounted es)))).
    { apply run_sent_frames. apply Forall_nil_2. }
    rewrite Forall_forall in HF. exact (HF m Hm). }
  split.
  { intros fs gs clock st HF. split.
    - simpl. apply forEach_face_same_view; [exact HF|].
      unfold same_view. simpl. repeat split. exact HF.
    - intros rw rh mt. apply same_fields_draw_all, HF. }
  repeat split; vm_compute; discriminate.
Qed.

(** The frame a live session sends at a tick; and a reply whose record
    carries a property the interface does not declare. *)
Lemma protocol_shape_witness :
  sent (browser (run mounted (live ++ [Tick 2 7]))) = [(1%positive, frame_message 7)] /\
  (exists img, snd (1%positive, frame_message 7) = frame_message img) /\
  draw 640 480 (fun _ _ => 0%Q)
       [face_of "A" (1 # 2) false false 10 20 30 40 1 5 [("track", "t1")]] =
  draw 640 480 (fun _ _ => 0%Q)
       [face_of "A" (1 # 2) false false 10 20 30 40 1 5 []].
Proof.
  split; [vm_compute; reflexivity|]. split.
  - apply (proj1 protocol_shape (live ++ [Tick 2 7])).
    vm_compute. apply list_elem_of_singleton. reflexivity.
  - apply (proj1 (proj2 protocol_shape)
             [face_of "A" (1 # 2) false false 10 20 30 40 1 5 [("track", "t1")]]
             [face_of "A" (1 # 2) false false 10 20 30 40 1 5 []]
             (fun _ => EmptyString) mounted).
    constructor; [repeat split | constructor].
Defined.

(** ** The confirmation progress bar *)

Lemma Math_min_le_r (x y : Q) : (Math_min x y <= y)%Q.
Proof.
  unfold Math_min. destruct (Qle_bool x y) eqn:E.
  - apply Qle_bool_iff, E.
  - apply Qle_refl.
Qed.

Lemma bar_shown_spec (d : DetectedFace) :
  bar_shown d = true <-> confirmed d = false /\ 0 < frames_required d.
Proof.
  unfold bar_shown. rewrite andb_true_iff, negb_true_iff, Z.ltb_lt. reflexivity.
Qed.

Lemma progress_defined (d : DetectedFace) :
  0 < frames_required d ->
  progress d =
    Some (Math_min (divide (inject_Z (frames_confirmed d))
                           (inject_Z (frames_required d))) 1).
Proof.
  intros Hr. unfold progress, ddiv.
  destruct (Qeq_bool (inject_Z (frames_required d)) 0) eqn:E; [|reflexivity].
  apply Qeq_bool_iff in E. unfold Qeq in E. simpl in E. lia.
Qed.

Lemma progress_full (d : DetectedFace) :
  0 < frames_required d -> frames_required d <= frames_confirmed d ->
  (Math_min (divide (inject_Z (frames_confirmed d))
                    (inject_Z (frames_required d))) 1 == 1)%Q.
Proof.
  intros Hr Hc.
  assert (Hq : (1 <= divide (inject_Z (frames_confirmed d))
                            (inject_Z (frames_required d)))%Q).
  { unfold divide. apply fl_ge_repr; [reflexivity | | apply one_representable].
    apply Qle_shift_div_l.
    - change 0%Q with (inject_Z 0). rewrite <- Zlt_Qlt. exact Hr.
    - rewrite Qmult_1_l, <- Zle_Qle. exact Hc. }
  unfold Math_min. destruct (Qle_bool _ 1) eqn:E; [|reflexivity].
  apply Qle_bool_iff in E. apply Qle_antisym; assumption.
Qed.

(** C8. The progress bar is division-safe and clamped.  The bar is drawn
    exactly when the face is not confirmed and [frames_required > 0].
    Then the divisor of [frames_confirmed / frames_required] is not zero,
    the fraction is the finite number
    [Math.min(frames_confirmed / frames_required, 1)], it is at most 1
    (and equal to 1 when the server reports
    [frames_confirmed >= frames_required]), and the filled part of the bar
    has the width of the box times that fraction. *)
Theorem progress_bar_safe (bx bY bw bh : number) (d : DetectedFace) :
  (progress_bar bx bY bw bh d <> [] <->
     confirmed d = false /\ 0 < frames_required d) /\
  (confirmed d = false -> 0 < frames_required d ->
     ~ (inject_Z (frames_required d) == 0)%Q /\
     exists p : number,
       progress d = Some p /\
       p = Math_min (divide (inject_Z (frames_confirmed d))
                            (inject_Z (frames_required d))) 1 /\
       (p <= 1)%Q /\
       (frames_required d <= frames_confirmed d -> (p == 1)%Q) /\
       progress_bar bx bY bw bh d =
         [ fillRoundRect "rgba(255,255,255,0.25)" bx (dadd (dadd bY bh) 6) (Some bw) 4 2;
           fillRoundRect "#8b5cf6" bx (dadd (dadd bY bh) 6) (Some (dmul bw p)) 4 2 ]).
Proof.
  split.
  - rewrite <- bar_shown_spec. unfold progress_bar.
    destruct (bar_shown d); split; try discriminate; try reflexivity.
    intros H. contradiction.
  - intros Hc Hr. split.
    + unfold Qeq. simpl. lia.
    + eexists. split; [apply progress_defined, Hr|]. split; [reflexivity|].
      split; [apply Math_min_le_r|]. split; [apply progress_full, Hr|].
      unfold progress_bar.
      rewrite (proj2 (bar_shown_spec d) (conj Hc Hr)), (progress_defined d Hr).
      reflexivity.
Qed.

(** Three of five frames: the bar is filled to the binary64 value of 3/5.
    Seven of five: it is full, not more. *)
Lemma progress_bar_safe_witness :
  progress (face_of "A" (1 # 2) false false 10 20 30 40 3 5 []) = Some (divide 3 5) /\
  progress (face_of "A" (1 # 2) false false 10 20 30 40 7 5 []) = Some 1%Q /\
  progress_bar 0 0 30 40 (face_of "A" (1 # 2) false false 10 20 30 40 0 0 []) = [] /\
  (exists p : number,
     progress (face_of "A" (1 # 2) false false 10 20 30 40 7 5 []) = Some p /\
     (p <= 1)%Q).
Proof.
  split; [vm_compute; reflexivity|]. split; [vm_compute; reflexivity|].
  split; [reflexivity|].
  destruct (proj2 (progress_bar_safe 0 0 30 40
                     (face_of "A" (1 # 2) false false 10 20 30 40 7 5 []))
                  eq_refl eq_refl) as (_ & p & Hp & _ & Hle & _).
  exists p. split; [exact Hp | exact Hle].
Defined.

(** [stopSession] reaches what the refs name.  When [startSession] has run
    twice before it (the Start button is clicked again while the first run
    is still setting up, and the first run completes before the second
    stream arrives), the refs name the socket, timer and stream of the
    second run only: those of the first (socket 1, timer 2, track 9) stay
    as they are.  Frames are still not sent, since [wsRef] is null. *)
Definition started_twice_and_stopped : state :=
  run mounted [StartSession; StartSession;
               MediaGranted [9%positive]; PlayResolved 0;
               MediaGranted [10%positive]; PlayResolved 0;
               WsOpen 1; WsOpen 3; StopSession].

Example overlapping_starts :
  sockets (browser started_twice_and_stopped) !! 1%positive = Some OPEN /\
  sockets (browser started_twice_and_stopped) !! 3%positive = Some CLOSING /\
  intervals (browser started_twice_and_stopped) !! 2%positive = Some 1500 /\
  intervals (browser started_twice_and_stopped) !! 4%positive = None /\
  bool_decide (9%positive ∈ stopped (browser started_twice_and_stopped)) = false /\
  bool_decide (10%positive ∈ stopped (browser started_twice_and_stopped)) = true /\
  sent (browser (run started_twice_and_stopped [Tick 2 0; Tick 2 1])) = [].
Proof. vm_compute. repeat split. Qed.

(** ** The session timer *)

Fixpoint repeat_string (k : nat) (pad : string) : string :=
  match k with
  | O => EmptyString
  | S k => (pad ++ repeat_string k pad)%string
  end.

(** [str.padStart(n, pad)]: [pad] repeated and cut to the missing length. *)
Definition padStart (n : nat) (pad str : string) : string :=
  if (n <=? String.length str)%nat then str
  else
    let k := (n - String.length str)%nat in
    (String.substring 0 k (repeat_string k pad) ++ str)%string.

(** [sessionDuration]: whole seconds from [sessionStart] to [currentTime],
    both in milliseconds; 0 before the first session. *)
Definition sessionDuration (sessionStart : option Z) (currentTime : Z) : Z :=
  match sessionStart with
  | Some t0 => Qfloor (divide (dsub (inject_Z currentTime) (inject_Z t0)) 1000)
  | None => 0
  end.

(** [formatDuration(s)] for an integer [s]; [%] is the remainder that has
    the sign of [s]. *)
Definition formatDuration (s : Z) : string :=
  let m := Qfloor (divide (inject_Z s) 60) in
  let sec := Z.rem s 60 in
  (padStart 2 "0" (pretty m) ++ ":" ++ padStart 2 "0" (pretty sec))%string.

(** Two digits at least: a one-character numeral gets one leading 0, a
    longer one is left alone. *)
Lemma padStart_2 (s : string) :
  (1 <= String.length s)%nat ->
  (String.length s = 1%nat /\ padStart 2 "0" s = ("0" ++ s)%string) \/
  ((2 <= String.length s)%nat /\ padStart 2 "0" s = s).
Proof.
  intros H. unfold padStart.
  destruct (Nat.leb_spec 2 (String.length s)) as [L|L].
  - right. split; [exact L | reflexivity].
  - left. assert (E : String.length s = 1%nat) by lia. split; [exact E|].
    rewrite E. reflexivity.
Qed.

Lemma padStart_2_inj (a b : Z) :
  0 <= a -> 0 <= b -> padStart 2 "0" (pretty a) = padStart 2 "0" (pretty b) -> a = b.
Proof.
  assert (mixed : forall x y : Z, 0 <= y ->
    (2 <= String.length (pretty y))%nat -> ("0" ++ pretty x)%string = pretty y -> False).
  { intros x y Hy L E. destruct (Z.eq_dec y 0) as [->|N0].
    - simpl in L. lia.
    - symmetry in E. simpl in E. apply Text.pretty_Z_head in E; [|lia].
      apply E. reflexivity. }
  intros Ha Hb.
  destruct (padStart_2 (pretty a) (Text.pretty_Z_length a)) as [[La ->]|[La ->]],
           (padStart_2 (pretty b) (Text.pretty_Z_length b)) as [[Lb ->]|[Lb ->]]; intros E.
  - injection E as E. exact (pretty_Z_inj _ _ E).
  - exfalso. exact (mixed a b Hb Lb E).
  - exfalso. symmetry in E. exact (mixed b a Ha La E).
  - exact (pretty_Z_inj _ _ E).
Qed.

Lemma seconds_two_chars (r : Z) :
  0 <= r < 60 -> String.length (padStart 2 "0" (pretty r)) = 2%nat.
Proof.
  intros H.
  assert (A : forallb (fun k => Nat.eqb (String.length (padStart 2 "0" (pretty (Z.of_nat k)))) 2)
                (seq 0 60) = true) by (vm_compute; reflexivity).
  rewrite forallb_forall in A.
  specialize (A (Z.to_nat r)). rewrite Z2Nat.id in A by lia.
  apply Nat.eqb_eq, A, in_seq. lia.
Qed.

(** The timer for a count of seconds that is not negative. *)
Lemma formatDuration_clock (s : Z) :
  0 <= s < 2 ^ 32 ->
  formatDuration s
  = (padStart 2 "0" (pretty (s / 60)) ++ ":" ++ padStart 2 "0" (pretty (s mod 60)))%string.
Proof.
  intros H. unfold formatDuration.
  change 60%Q with (inject_Z 60).
  rewrite floor_divide by lia.
  rewrite Z.rem_mod_nonneg by lia. reflexivity.
Qed.


Lemma sessionDuration_floor (t0 now : Z) :
  Z.abs (now - t0) <= 2 ^ 53 ->
  sessionDuration (Some t0) now = Qfloor (divide (inject_Z (now - t0)) 1000).
Proof.
  intros H. unfold sessionDuration, divide.
  apply Qfloor_comp, fl_wd.
  rewrite (dsub_exact now t0 H). reflexivity.
Qed.

(** X7. While a session lasts less than 2^32 ms (about 49 days) the counter is
    the whole number of seconds since the start. *)
Theorem sessionDuration_whole_seconds (t0 now : Z) :
  0 <= now - t0 < 2 ^ 32 ->
  sessionDuration (Some t0) now = (now - t0) / 1000.
Proof.
  intros H. rewrite sessionDuration_floor by lia.
  change 1000%Q with (inject_Z 1000). apply floor_divide; lia.
Qed.

Lemma sessionDuration_whole_seconds_witness :
  0 <= 1700000125999 - 1700000000000 < 2 ^ 32 /\
  sessionDuration (Some 1700000000000) 1700000125999 = 125.
Proof.
  split; [lia|].
  exact (sessionDuration_whole_seconds 1700000000000 1700000125999 ltac:(lia)).
Defined.

(** X8. For 0 <= s < 2^32 the timer reads the minutes in at least two digits,
    a colon and the seconds in exactly two digits; two different counts
    never read the same. *)
Theorem formatDuration_reads_clock (s : Z) :
  0 <= s < 2 ^ 32 ->
  formatDuration s
  = (padStart 2 "0" (pretty (s / 60)) ++ ":" ++ padStart 2 "0" (pretty (s mod 60)))%string /\
  String.length (padStart 2 "0" (pretty (s mod 60))) = 2%nat /\
  forall s' : Z, 0 <= s' < 2 ^ 32 -> formatDuration s' = formatDuration s -> s' = s.
Proof.
  intros H. split; [apply formatDuration_clock, H|].
  pose proof (Z.mod_pos_bound s 60 ltac:(lia)) as Hm.
  split; [apply seconds_two_chars, Hm|].
  intros s' H' E.
  rewrite (formatDuration_clock s H), (formatDuration_clock s' H') in E.
  pose proof (Z.mod_pos_bound s' 60 ltac:(lia)) as Hm'.
  apply Text.string_app_inj_r in E as [Emin Esec].
  - apply (inj (String.append ":")) in Esec.
    apply padStart_2_inj in Emin; [|apply Z.div_pos; lia|apply Z.div_pos; lia].
    apply padStart_2_inj in Esec; [|lia|lia].
    rewrite (Z.div_mod s 60), (Z.div_mod s' 60) by lia. lia.
  - rewrite !Text.string_app_length, !seconds_two_chars by assumption. reflexivity.
Qed.

Lemma formatDuration_reads_clock_witness :
  0 <= 3725 < 2 ^ 32 /\ formatDuration 3725 = "62:05"%string.
Proof.
  split; [lia|].
  exact (proj1 (formatDuration_reads_clock 3725 ltac:(lia))).
Defined.

(** X9. The clock state is refreshed once a second, so a session starts
    at a time later than the clock shows.  While the clock is behind the
    start time, by up to a second, the counter is -1 and the timer reads
    -1:-1. *)
Theorem timer_before_first_tick (t0 now : Z) :
  now < t0 <= now + 1000 ->
  sessionDuration (Some t0) now = -1 /\
  formatDuration (sessionDuration (Some t0) now) = "-1:-1"%string.
Proof.
  intros H.
  assert (E : sessionDuration (Some t0) now = -1).
  { rewrite sessionDuration_floor by lia. unfold divide.
    set (x := (inject_Z (now - t0) / 1000)%Q).
    assert (Hx : (-1 <= x /\ x <= - (1 # 1000))%Q).
    { unfold x.
      assert ((inject_Z (-1000) <= inject_Z (now - t0))%Q) by (rewrite <- Zle_Qle; lia).
      assert ((inject_Z (now - t0) <= inject_Z (-1))%Q) by (rewrite <- Zle_Qle; lia).
      change (inject_Z (-1000)) with (-1000)%Q in *. change (inject_Z (-1)) with (-1)%Q in *.
      split.
      - apply Qle_shift_div_l; [reflexivity | lra].
      - apply Qle_shift_div_r; [reflexivity | lra]. }
    destruct Hx as [Hx1 Hx2].
    destruct (fl_negative_unit x) as [L U]; [lra | lra |].
    apply Qfloor_unique; change (inject_Z (-1)) with (-1)%Q; lra. }
  rewrite E. split; [reflexivity | vm_compute; reflexivity].
Qed.

Lemma timer_before_first_tick_witness :
  1700000000000 < 1700000000400 <= 1700000000000 + 1000 /\
  formatDuration (sessionDuration (Some 1700000000400) 1700000000000) = "-1:-1"%string.
Proof.
  split; [lia|].
  exact (proj2 (timer_before_first_tick 1700000000400 1700000000000 ltac:(lia))).
Defined.

(** ** Leaving the page *)

(** The cleanup of the unmount effect. *)
Definition unmount (st : state) : state :=
  let st1 :=
    match intervalRef (refs st) with
    | Some i => clearInterval i st
    | None => st
    end in
  let st2 :=
    match wsRef (refs st1) with
    | Some ws => ws_close ws st1
    | None => st1
    end in
  match streamRef (refs st2) with
  | Some tracks => fold_right track_stop st2 tracks
  | None => st2
  end.

Lemma fold_track_stop_same (tracks : list positive) (s1 s2 : state) :
  browser s1 = browser s2 ->
  browser (fold_right track_stop s1 tracks) = browser (fold_right track_stop s2 tracks).
Proof.
  intros H. induction tracks as [|t tracks IH]; simpl; [exact H|].
  rewrite IH. reflexivity.
Qed.

Lemma unmount_browser (st : state) : browser (unmount st) = browser (stopSession st).
Proof.
  unfold unmount, stopSession. cbv zeta.
  destruct (intervalRef (refs st)) as [i|]; simpl;
    destruct (wsRef (refs st)) as [ws|]; simpl;
    destruct (streamRef (refs st)) as [tracks|]; simpl;
    rewrite ?fold_track_stop_refs; simpl;
    destruct (videoRef (refs st)); simpl;
    try reflexivity; apply fold_track_stop_same; reflexivity.
Qed.

Lemma unmount_refs (st : state) : refs (unmount st) = refs st.
Proof.
  unfold unmount. cbv zeta.
  destruct (intervalRef (refs st)); simpl;
    destruct (wsRef (refs st)); simpl;
    destruct (streamRef (refs st)); simpl;
    rewrite ?fold_track_stop_refs; reflexivity.
Qed.

Lemma unmount_ui (st : state) : ui (unmount st) = ui st.
Proof.
  unfold unmount. cbv zeta.
  destruct (intervalRef (refs st)); simpl;
    destruct (wsRef (refs st)); simpl;
    destruct (streamRef (refs st)); simpl;
    rewrite ?fold_track_stop_ui; reflexivity.
Qed.

(** X10. Leaving the page does to the browser exactly what the End button does:
    the timer of [intervalRef] is cleared, the socket of [wsRef] is closing
    and the tracks of [streamRef] are stopped.  The refs and the state keep
    their values, and a capture that still runs sends nothing. *)
Theorem unmount_releases (st : state) (img : nat) :
  browser (unmount st) = browser (stopSession st) /\
  refs (unmount st) = refs st /\
  ui (unmount st) = ui st /\
  sendFrame img (unmount st) = unmount st.
Proof.
  split; [apply unmount_browser|]. split; [apply unmount_refs|].
  split; [apply unmount_ui|].
  unfold sendFrame. rewrite unmount_refs.
  destruct (wsRef (refs st)) as [ws|] eqn:Hw; [|reflexivity].
  destruct (decide _) as [Ho|]; [|reflexivity].
  rewrite unmount_browser in Ho.
  destruct (stopSession_socket_shut st ws Hw) as [Hno _]. contradiction.
Qed.

(** ** The success sound *)

Definition marked_count (faces : list DetectedFace) : nat :=
  length (List.filter marked faces).

Lemma forEach_face_chimes (faces : list DetectedFace) (i : nat) (clock : nat -> string)
    (st : state) :
  chimes (browser (forEach_face faces i clock st))
  = (chimes (browser st) + marked_count faces)%nat.
Proof.
  unfold marked_count.
  revert i st. induction faces as [|f rest IH]; intros i st; simpl; [lia|].
  rewrite IH. destruct (marked f); simpl; lia.
Qed.

Lemma addMarked_length (f : DetectedFace) (now : string) (prev : list MarkedStudent.t) :
  (length prev <= length (addMarked f now prev) <= S (length prev))%nat.
Proof. unfold addMarked. destruct (existsb _ prev); simpl; lia. Qed.

(** Entries are never taken out of the log, and every new one has sounded. *)
Definition sounded (st0 st : state) : Prop :=
  (chimes (browser st0) <= chimes (browser st))%nat /\
  (length (log_of st0) <= length (log_of st))%nat /\
  (length (log_of st) - length (log_of st0)
   <= chimes (browser st) - chimes (browser st0))%nat.

Lemma forEach_face_sounded (faces : list DetectedFace) (i : nat) (clock : nat -> string)
    (st0 st : state) :
  sounded st0 st -> sounded st0 (forEach_face faces i clock st).
Proof.
  revert i st. induction faces as [|f rest IH]; intros i st H; simpl; [exact H|].
  apply IH. destruct (marked f); [|exact H].
  destruct H as (H1 & H2 & H3). unfold sounded, log_of in *. simpl.
  pose proof (addMarked_length f (clock i) (markedStudents (ui st))). lia.
Qed.

Lemma sendFrame_chimes (img : nat) (st : state) :
  chimes (browser (sendFrame img st)) = chimes (browser st).
Proof.
  unfold sendFrame, ws_send.
  destruct (wsRef (refs st)) as [ws|]; [|reflexivity].
  destruct (decide _) as [Ho|]; [|reflexivity].
  destruct (videoRef (refs st)); [|reflexivity].
  destruct (canvasRef (refs st)) as [c|]; [|reflexivity].
  destruct (context2d c); [|reflexivity].
  simpl. rewrite Ho. reflexivity.
Qed.

Lemma fold_track_stop_chimes (tracks : list positive) (st : state) :
  chimes (browser (fold_right track_stop st tracks)) = chimes (browser st).
Proof. induction tracks as [|t tracks IH]; simpl; [reflexivity | exact IH]. Qed.

Lemma stopSession_chimes (st : state) :
  chimes (browser (stopSession st)) = chimes (browser st).
Proof.
  unfold stopSession. cbv zeta.
  repeat break_match; simpl; rewrite ?fold_track_stop_chimes; reflexivity.
Qed.

Lemma step_sounded (st0 st : state) (e : event) :
  sounded st0 st -> sounded st0 (step st e).
Proof.
  intros H. destruct e; simpl; try exact H.
  - unfold startSession_stream. simpl. destruct (videoRef (refs st)); exact H.
  - unfold sounded. rewrite stopSession_chimes, stopSession_log. exact H.
  - destruct (sockets (browser st) !! ws) as [[]|]; exact H.
  - destruct (sockets (browser st) !! ws) as [[]|]; exact H.
  - destruct (sockets (browser st) !! ws); exact H.
  - destruct (decide _); [|exact H].
    destruct r as [| |d]; simpl; [exact H|exact H|].
    apply forEach_face_sounded. exact H.
  - destruct (intervals (browser st) !! i); [|exact H].
    unfold sounded. rewrite sendFrame_chimes, sendFrame_log. exact H.
Qed.

(** X11. The sound is played once for each face of a reply that is flagged
    [marked], whether or not the student is already in the log; whatever
    happens to the page, the log never loses an entry and never gains more
    entries than sounds were played. *)
Theorem sound_for_every_marked_face (st : state) (es : list event)
    (faces : list DetectedFace) (clock : nat -> string) :
  chimes (browser (onmessage (Data (Some faces)) clock st))
  = (chimes (browser st) + marked_count faces)%nat /\
  sounded st (run st es).
Proof.
  split.
  - simpl. rewrite forEach_face_chimes. reflexivity.
  - assert (H0 : sounded st st) by (unfold sounded; lia).
    generalize H0. generalize st at 2 4 as s.
    induction es as [|e es IH]; intros s H; simpl; [exact H|].
    apply IH, step_sounded, H.
Qed.


(** ** The overlay and the panel *)

Definition is_green_box (c : command) : bool :=
  match c with
  | strokeRect style _ _ _ _ _ => String.eqb style "#10b981"
  | _ => false
  end.

Lemma progress_bar_no_box (bx bY bw bh : number) (d : DetectedFace) :
  existsb is_green_box (progress_bar bx bY bw bh d) = false.
Proof. unfold progress_bar. destruct (bar_shown d); reflexivity. Qed.

Lemma draw_face_green (rw rh : number) (mt : number -> string -> number) (d : DetectedFace) :
  existsb is_green_box (draw_face rw rh mt d) = confirmed d.
Proof.
  unfold draw_face. cbv zeta. rewrite existsb_app, progress_bar_no_box.
  cbn [existsb is_green_box]. destruct (confirmed d); reflexivity.
Qed.

(** X12. The oval guide and the boxes agree: the guide is green exactly when a
    green box is drawn, and asks to position the face exactly when nothing
    is drawn for a face. *)
Theorem guide_agrees_with_boxes (rw rh : number) (mt : number -> string -> number)
    (ds : list DetectedFace) :
  (bool_decide (guide ds = ("#10b981", "✓ Face Confirmed!"))
   = existsb is_green_box (snd (draw rw rh mt ds))) /\
  (bool_decide (guide ds = ("rgba(255, 255, 255, 0.7)", "Position your face inside the oval"))
   = bool_decide (snd (draw rw rh mt ds) = [])).
Proof.
  unfold draw, guide. cbn [snd]. split.
  - assert (E : existsb is_green_box (flat_map (draw_face rw rh mt) ds) = existsb confirmed ds).
    { induction ds as [|d ds IH]; [reflexivity|].
      cbn [flat_map existsb]. rewrite existsb_app, draw_face_green, IH. reflexivity. }
    rewrite E. destruct (existsb confirmed ds); [reflexivity|].
    destruct (0 <? Z.of_nat (length ds)); reflexivity.
  - destruct ds as [|d ds].
    + reflexivity.
    + replace (0 <? Z.of_nat (length (d :: ds))) with true
        by (symmetry; apply Z.ltb_lt; simpl; lia).
      assert (N : flat_map (draw_face rw rh mt) (d :: ds) <> []).
      { cbn [flat_map]. unfold draw_face. cbv zeta. discriminate. }
      rewrite (bool_decide_eq_false_2 _ N).
      destruct (existsb confirmed (d :: ds)); reflexivity.
Qed.

Section Confidence.
Local Open Scope Q_scope.

Definition bar_colour (d : DetectedFace) : string :=
  match detecting_row d with (_, _, _, colour, _, _) => colour end.

Definition bar_percent (d : DetectedFace) : Z :=
  match detecting_row d with (_, _, _, _, p, _) => p end.

(** X13. The colour of the confidence bar fits the percentage printed beside it:
    for a confidence from 0 to 1 the percentage is from 0 to 100, at least
    70 under a green bar, from 50 to 70 under an amber one and at most 50
    under a red one. *)
Theorem confidence_bar_colour (d : DetectedFace) :
  0 <= confidence d -> confidence d <= 1 ->
  (0 <= bar_percent d <= 100)%Z /\
  (bar_colour d = "bg-emerald-500"%string -> (70 <= bar_percent d)%Z) /\
  (bar_colour d = "bg-amber-500"%string -> (50 <= bar_percent d <= 70)%Z) /\
  (bar_colour d = "bg-red-400"%string -> (bar_percent d <= 50)%Z) /\
  In (bar_colour d) ["bg-emerald-500"; "bg-amber-500"; "bg-red-400"]%string.
Proof.
  intros H0 H1. unfold bar_colour, bar_percent, detecting_row.
  set (c := confidence d) in *.
  assert (F7 : fl (7 # 10) == 3152519739159347 # 4503599627370496) by reflexivity.
  assert (P0 : (0 <= percent c)%Z).
  { apply Math_round_ge. change (inject_Z 0) with 0.
    assert (0 <= dmul c 100) by (apply fl_nonneg; lra). lra. }
  assert (P100 : (percent c <= 100)%Z).
  { apply Math_round_le, dmul_le; [lra | change (inject_Z 100) with 100; lra | unfold prec; lia]. }
  split; [lia|].
  unfold gt. destruct (Qle_bool c (fl (7 # 10))) eqn:E7; cbn [negb].
  - apply Qle_bool_iff in E7. rewrite F7 in E7.
    destruct (Qle_bool c (1 # 2)) eqn:E5; cbn [negb].
    + apply Qle_bool_iff in E5.
      split; [intros D; discriminate D|]. split; [intros D; discriminate D|].
      split; [|right; right; left; reflexivity].
      intros _. apply Math_round_le, dmul_le;
        [lra | change (inject_Z 50) with 50; lra | unfold prec; lia].
    + assert (H5 : 1 # 2 < c).
      { apply Qnot_le_lt. intros Hle. apply Qle_bool_iff in Hle. congruence. }
      split; [intros D; discriminate D|].
      split; [|split; [intros D; discriminate D | right; left; reflexivity]].
      intros _. split.
      * apply Math_round_ge.
        apply Qle_trans with (inject_Z 50); [change (inject_Z 50) with 50; lra|].
        apply dmul_ge; [change (inject_Z 50) with 50; lra | unfold prec; lia].
      * apply Math_round_le, dmul_le;
          [lra | change (inject_Z 70) with 70; lra | unfold prec; lia].
  - assert (H7 : fl (7 # 10) < c).
    { apply Qnot_le_lt. intros Hle. apply Qle_bool_iff in Hle. congruence. }
    rewrite F7 in H7.
    split; [|split; [intros D; discriminate D|split; [intros D; discriminate D|left; reflexivity]]].
    intros _. apply Math_round_ge. unfold dmul.
    change (inject_Z 70 - (1 # 2)) with (139 # 2).
    apply fl_ge_repr; [reflexivity | lra |].
    exists 139%Z, (-1)%Z. unfold prec, emin. repeat split; lia.
Qed.

End Confidence.

Lemma confidence_bar_colour_witness :
  bar_colour (face_of "Asha" (fl (7 # 10)) false false 0 0 0 0 3 5 []) = "bg-amber-500"%string /\
  50 <= bar_percent (face_of "Asha" (fl (7 # 10)) false false 0 0 0 0 3 5 []) <= 70.
Proof.
  assert (E : bar_colour (face_of "Asha" (fl (7 # 10)) false false 0 0 0 0 3 5 [])
              = "bg-amber-500"%string) by (vm_compute; reflexivity).
  split; [exact E|].
  refine (proj1 (proj2 (proj2
           (confidence_bar_colour (face_of "Asha" (fl (7 # 10)) false false 0 0 0 0 3 5 [])
              _ _))) E); vm_compute; discriminate.
Defined.

End AttendancePage.

(* ===================================================================== *)
(** * DashboardPage: today's figures and rows                           *)
(* ===================================================================== *)

Module DashboardPage.
Import Double.

Module Student.
Record t := { id : Z; name : string; student_id : string }.
End Student.

Module AttendanceRecord.
(** The optional nested [student] of a record is declared and never read. *)
Record t := {
  id : Z;
  student_id : Z;
  timestamp : string;
  status : string;
  student : option (string * string)
}.
End AttendanceRecord.

(** [a || b] on strings: the empty string is falsy. *)
Definition or_else (a b : string) : string :=
  if String.eqb a EmptyString then b else a.

Section Today.

(** [new Date(timestamp).toDateString()] and [new Date().toDateString()]:
    the calendar day in the browser's time zone. *)
Variable toDateString : string -> string.
Variable today : string.

Definition todayAttendance (attendanceRecords : list AttendanceRecord.t)
  : list AttendanceRecord.t :=
  List.filter (fun record => String.eqb (toDateString (AttendanceRecord.timestamp record)) today)
    attendanceRecords.

(** [getStudentById]: the first student of that id. *)
Definition getStudentById (students : list Student.t) (studentId : Z) : option Student.t :=
  List.find (fun s => Z.eqb (Student.id s) studentId) students.

(** The value of the "Attendance Rate" card. *)
Definition attendance_rate (students : list Student.t)
    (attendanceRecords : list AttendanceRecord.t) : string :=
  if (0 <? Z.of_nat (length students))%Z then
    let present := inject_Z (Z.of_nat (length (todayAttendance attendanceRecords))) in
    let total := inject_Z (Z.of_nat (length students)) in
    (pretty (Qfloor (Math_round (dmul (divide present total) 100))) ++ "%")%string
  else "0%"%string.

(** A row of "Today's Attendance": the initial, the name and the student
    code it shows.  The code falls back to the record's numeric id. *)
Definition row (students : list Student.t) (record : AttendanceRecord.t)
  : string * string * string :=
  let student := getStudentById students (AttendanceRecord.student_id record) in
  (or_else (from_option (fun s => AttendancePage.charAt0 (Student.name s)) EmptyString student) "?",
   or_else (from_option Student.name EmptyString student) "Unknown",
   or_else (from_option Student.student_id EmptyString student)
           (pretty (AttendanceRecord.student_id record))).

Lemma or_else_nonempty (a b : string) : b <> EmptyString -> or_else a b <> EmptyString.
Proof.
  intros Hb. unfold or_else.
  destruct (String.eqb_spec a EmptyString) as [E|E]; assumption.
Qed.

Lemma pretty_Z_nonempty (z : Z) : pretty z <> EmptyString.
Proof.
  intros H. pose proof (Text.pretty_Z_length z) as L. rewrite H in L.
  change (1 <= 0)%nat in L. lia.
Qed.

(** X14. No cell of a row is blank, the initial is one character, and a record
    whose student is not in the list (a student deleted since) shows "?",
    "Unknown" and the record's numeric student id. *)
Theorem row_never_blank (students : list Student.t) (record : AttendanceRecord.t) :
  let '(initial, shown_name, code) := row students record in
  String.length initial = 1%nat /\
  shown_name <> EmptyString /\
  code <> EmptyString /\
  (Forall (fun s => Student.id s <> AttendanceRecord.student_id record) students ->
   row students record = ("?", "Unknown", pretty (AttendanceRecord.student_id record))%string).
Proof.
  unfold row. cbv zeta.
  destruct (getStudentById students (AttendanceRecord.student_id record)) as [s|] eqn:E; simpl.
  - split.
    + unfold or_else. destruct (Student.name s) as [|c r]; reflexivity.
    + split; [apply or_else_nonempty; discriminate|].
      split; [apply or_else_nonempty, pretty_Z_nonempty|].
      intros Hall. unfold getStudentById in E. apply find_some in E as [Hin Heq].
      apply Z.eqb_eq in Heq. rewrite List.Forall_forall in Hall.
      exfalso. exact (Hall s Hin Heq).
  - split; [reflexivity|]. split; [discriminate|].
    split; [apply pretty_Z_nonempty|]. intros _. reflexivity.
Qed.

(** X15. The rate is a whole percentage.  It is at most 100 while today's records
    are no more than the students, and at least 100 when they are no fewer:
    the records of one day are counted, not the students in them. *)
Theorem attendance_rate_bounds (students : list Student.t)
    (attendanceRecords : list AttendanceRecord.t) :
  students <> [] ->
  exists k : Z,
    attendance_rate students attendanceRecords = (pretty k ++ "%")%string /\
    (0 <= k)%Z /\
    ((length (todayAttendance attendanceRecords) <= length students)%nat -> (k <= 100)%Z) /\
    ((length students <= length (todayAttendance attendanceRecords))%nat -> (100 <= k)%Z).
Proof.
  intros Hne. unfold attendance_rate.
  assert (Hm : (0 < Z.of_nat (length students))%Z) by (destruct students; [congruence | simpl; lia]).
  rewrite (proj2 (Z.ltb_lt _ _) Hm). cbv zeta.
  set (n := Z.of_nat (length (todayAttendance attendanceRecords))).
  set (m := Z.of_nat (length students)) in *.
  assert (Hn : (0 <= n)%Z) by (unfold n; lia).
  assert (Qm : (0 < inject_Z m)%Q) by (change 0%Q with (inject_Z 0); rewrite <- Zlt_Qlt; lia).
  assert (Qn : (0 <= inject_Z n)%Q) by (change 0%Q with (inject_Z 0); rewrite <- Zle_Qle; lia).
  assert (Hq0 : (0 <= inject_Z n / inject_Z m)%Q).
  { apply Qle_shift_div_l; [exact Qm | lra]. }
  assert (Hd0 : (0 <= divide (inject_Z n) (inject_Z m))%Q) by (apply fl_nonneg, Hq0).
  eexists. split; [reflexivity|]. split; [|split].
  - apply Math_round_ge. change (inject_Z 0) with 0%Q.
    assert (0 <= dmul (divide (inject_Z n) (inject_Z m)) 100)%Q by (apply fl_nonneg; lra).
    lra.
  - intros Hle.
    assert (Hq1 : (inject_Z n / inject_Z m <= 1)%Q).
    { apply Qle_shift_div_r; [exact Qm|]. rewrite Qmult_1_l, <- Zle_Qle. unfold n, m. lia. }
    assert (Hd1 : (divide (inject_Z n) (inject_Z m) <= 1)%Q).
    { apply (fl_within _ 1 Hq0 Hq1 one_representable). }
    apply Math_round_le, dmul_le;
      [lra | change (inject_Z 100) with 100%Q; lra | unfold prec; lia].
  - intros Hge.
    assert (Hq1 : (1 <= inject_Z n / inject_Z m)%Q).
    { apply Qle_shift_div_l; [exact Qm|]. rewrite Qmult_1_l, <- Zle_Qle. unfold n, m. lia. }
    assert (Hd1 : (1 <= divide (inject_Z n) (inject_Z m))%Q).
    { apply fl_ge_repr; [reflexivity | exact Hq1 | apply one_representable]. }
    apply Math_round_ge.
    apply Qle_trans with (inject_Z 100); [change (inject_Z 100) with 100%Q; lra|].
    apply dmul_ge; [change (inject_Z 100) with 100%Q; lra | unfold prec; lia].
Qed.

End Today.

(** One student, two records of today: the card reads 200%. *)
Example two_records_one_student :
  attendance_rate (fun _ => "Mon Nov 02 2026") "Mon Nov 02 2026"
    [ {| Student.id := 1; Student.name := "Asha"; Student.student_id := "S1" |} ]
    [ {| AttendanceRecord.id := 1; AttendanceRecord.student_id := 1;
         AttendanceRecord.timestamp := "2026-11-02T09:00:00";
         AttendanceRecord.status := "PRESENT"; AttendanceRecord.student := None |};
      {| AttendanceRecord.id := 2; AttendanceRecord.student_id := 1;
         AttendanceRecord.timestamp := "2026-11-02T13:00:00";
         AttendanceRecord.status := "PRESENT"; AttendanceRecord.student := None |} ]
  = "200%"%string.
Proof. vm_compute. reflexivity. Qed.

Lemma attendance_rate_bounds_witness :
  exists k : Z,
    attendance_rate (fun _ => "Mon Nov 02 2026") "Mon Nov 02 2026"
      [ {| Student.id := 1; Student.name := "Asha"; Student.student_id := "S1" |};
        {| Student.id := 2; Student.name := "Ravi"; Student.student_id := "S2" |};
        {| Student.id := 3; Student.name := "Meera"; Student.student_id := "S3" |} ]
      [ {| AttendanceRecord.id := 1; AttendanceRecord.student_id := 2;
           AttendanceRecord.timestamp := "2026-11-02T09:00:00";
           AttendanceRecord.status := "PRESENT"; AttendanceRecord.student := None |} ]
    = (pretty k ++ "%")%string /\ (0 <= k <= 100)%Z.
Proof.
  destruct (attendance_rate_bounds (fun _ => "Mon Nov 02 2026") "Mon Nov 02 2026"
      [ {| Student.id := 1; Student.name := "Asha"; Student.student_id := "S1" |};
        {| Student.id := 2; Student.name := "Ravi"; Student.student_id := "S2" |};
        {| Student.id := 3; Student.name := "Meera"; Student.student_id := "S3" |} ]
      [ {| AttendanceRecord.id := 1; AttendanceRecord.student_id := 2;
           AttendanceRecord.timestamp := "2026-11-02T09:00:00";
           AttendanceRecord.status := "PRESENT"; AttendanceRecord.student := None |} ]
      ltac:(discriminate)) as (k & E & H0 & H100 & _).
  exists k. split; [exact E|]. split; [exact H0|]. apply H100. simpl. lia.
Defined.

End DashboardPage.

(* ===================================================================== *)
(** * StudentForm: the camera, the photo and the registration           *)
(* ===================================================================== *)

Module StudentForm.

Record video := { srcObject : option (list positive) }.

Record canvas := {
  width : Z;
  height : Z;
  context2d : bool;         (* whether [getContext('2d')] gives a context *)
  drawn : option nat
}.

(** What [capturedImage] holds: the data URL of the canvas, or the result
    of reading the chosen file. *)
Inductive photo :=
| Captured (mime : string) (pixel_width pixel_height : Z) (frame : option nat)
| Uploaded (result : string).

Record FormData := { name : string; student_id : string; email : string }.

Inductive message_type := success | error.
Record Message := { type : message_type; text : string }.

(** What the [catch] of [handleSubmit] looks at: a response with its status
    and, when it has one that is text, its [detail]; a request that got no
    response; anything else that was thrown. *)
Inductive failure :=
| Response (status : Z) (detail : option string)
| NoResponse
| Thrown.

(** The multipart body handed to [api.post('/students/', data)]. *)
Record Registration := {
  file : photo;
  file_name : string;
  file_type : string;
  form : FormData
}.

(** A call of [handleSubmit] that is waiting: for the photo's blob, with the
    photo and the form values its closure holds, or for the server. *)
Inductive call :=
| Fetching (image : photo) (data : FormData)
| Posting.

Record Refs := {
  videoRef : option video;
  canvasRef : option canvas;
  streamRef : option (list positive)
}.

Record UI := {
  capturedImage : option photo;
  isCameraActive : bool;
  cameraInitializing : bool;
  loading : bool;
  uploadProgress : string;
  message : option Message;
  formData : FormData
}.

Record Browser := {
  stopped : gset positive;              (* media tracks on which [stop()] was called *)
  posted : list Registration;           (* [api.post] calls, newest first *)
  calls : list call                     (* [handleSubmit] calls not yet finished *)
}.

Record state := { refs : Refs; ui : UI; browser : Browser }.

Definition blank : FormData := {| name := EmptyString; student_id := EmptyString; email := EmptyString |}.

Definition mounted : state :=
  {| refs := {| videoRef := Some {| srcObject := None |};
                canvasRef := Some {| width := 300; height := 150;
                                     context2d := true; drawn := None |};
                streamRef := None |};
     ui := {| capturedImage := None; isCameraActive := false;
              cameraInitializing := false; loading := false;
              uploadProgress := EmptyString; message := None; formData := blank |};
     browser := {| stopped := ∅; posted := []; calls := [] |} |}.

(** ** Assignments *)

Definition with_refs (f : Refs -> Refs) (st : state) : state :=
  {| refs := f (refs st); ui := ui st; browser := browser st |}.
Definition with_ui (f : UI -> UI) (st : state) : state :=
  {| refs := refs st; ui := f (ui st); browser := browser st |}.
Definition with_browser (f : Browser -> Browser) (st : state) : state :=
  {| refs := refs st; ui := ui st; browser := f (browser st) |}.

Definition set_videoRef (v : option video) : state -> state :=
  with_refs (fun r => {| videoRef := v; canvasRef := canvasRef r; streamRef := streamRef r |}).
Definition set_canvasRef (c : option canvas) : state -> state :=
  with_refs (fun r => {| videoRef := videoRef r; canvasRef := c; streamRef := streamRef r |}).
Definition set_streamRef (s : option (list positive)) : state -> state :=
  with_refs (fun r => {| videoRef := videoRef r; canvasRef := canvasRef r; streamRef := s |}).

Definition setCapturedImage (p : option photo) : state -> state :=
  with_ui (fun u => {| capturedImage := p; isCameraActive := isCameraActive u;
                       cameraInitializing := cameraInitializing u; loading := loading u;
                       uploadProgress := uploadProgress u; message := message u;
                       formData := formData u |}).
Definition setIsCameraActive (b : bool) : state -> state :=
  with_ui (fun u => {| capturedImage := capturedImage u; isCameraActive := b;
                       cameraInitializing := cameraInitializing u; loading := loading u;
                       uploadProgress := uploadProgress u; message := message u;
                       formData := formData u |}).
Definition setCameraInitializing (b : bool) : state -> state :=
  with_ui (fun u => {| capturedImage := capturedImage u; isCameraActive := isCameraActive u;
                       cameraInitializing := b; loading := loading u;
                       uploadProgress := uploadProgress u; message := message u;
                       formData := formData u |}).
Definition setLoading (b : bool) : state -> state :=
  with_ui (fun u => {| capturedImage := capturedImage u; isCameraActive := isCameraActive u;
                       cameraInitializing := cameraInitializing u; loading := b;
                       uploadProgress := uploadProgress u; message := message u;
                       formData := formData u |}).
Definition setUploadProgress (s : string) : state -> state :=
  with_ui (fun u => {| capturedImage := capturedImage u; isCameraActive := isCameraActive u;
                       cameraInitializing := cameraInitializing u; loading := loading u;
                       uploadProgress := s; message := message u;
                       formData := formData u |}).
Definition setMessage (m : option Message) : state -> state :=
  with_ui (fun u => {| capturedImage := capturedImage u; isCameraActive := isCameraActive u;
                       cameraInitializing := cameraInitializing u; loading := loading u;
                       uploadProgress := uploadProgress u; message := m;
                       formData := formData u |}).
Definition setFormData (d : FormData) : state -> state :=
  with_ui (fun u => {| capturedImage := capturedImage u; isCameraActive := isCameraActive u;
                       cameraInitializing := cameraInitializing u; loading := loading u;
                       uploadProgress := uploadProgress u; message := message u;
                       formData := d |}).

Definition set_stopped (f : gset positive -> gset positive) : state -> state :=
  with_browser (fun b => {| stopped := f (stopped b); posted := posted b; calls := calls b |}).
Definition set_posted (f : list Registration -> list Registration) : state -> state :=
  with_browser (fun b => {| stopped := stopped b; posted := f (posted b); calls := calls b |}).
Definition set_calls (f : list call -> list call) : state -> state :=
  with_browser (fun b => {| stopped := stopped b; posted := posted b; calls := f (calls b) |}).

(** [t.stop()] *)
Definition track_stop (t : positive) : state -> state :=
  set_stopped (fun e => {[t]} ∪ e).

(** ** The camera *)

(** [startCamera], in the pieces its two [await]s cut it into: up to
    [getUserMedia]; from the stream to the promise of [play()], or to the
    end when there is no video element; after the promise; and its
    [catch].  The [finally] closes the last three. *)
Definition startCamera (st : state) : state :=
  setCameraInitializing true st.

Definition startCamera_stream (tracks : list positive) (st : state) : state :=
  let st1 := set_streamRef (Some tracks) st in
  match videoRef (refs st1) with
  | Some _ => set_videoRef (Some {| srcObject := Some tracks |}) st1
  | None => setCameraInitializing false st1
  end.

Definition startCamera_playing (st : state) : state :=
  setCameraInitializing false (setIsCameraActive true st).

Definition startCamera_catch (st : state) : state :=
  setCameraInitializing false
    (setMessage (Some {| type := error;
                         text := "Failed to access camera. Please check permissions." |}) st).

(** [stopCamera] *)
Definition stopCamera (st : state) : state :=
  let st1 :=
    match streamRef (refs st) with
    | Some tracks => set_streamRef None (fold_right track_stop st tracks)
    | None => st
    end in
  let st2 :=
    match videoRef (refs st1) with
    | Some _ => set_videoRef (Some {| srcObject := None |}) st1
    | None => st1
    end in
  setIsCameraActive false st2.

(** [capturePhoto]; [img] is the frame the video shows at that moment. *)
Definition capturePhoto (img : nat) (st : state) : state :=
  match videoRef (refs st), canvasRef (refs st) with
  | Some _, Some c =>
      if context2d c then
        let c' := {| width := 640; height := 480; context2d := true; drawn := Some img |} in
        let dataUrl := Captured "image/jpeg" (width c') (height c') (drawn c') in
        stopCamera (setCapturedImage (Some dataUrl) (set_canvasRef (Some c') st))
      else st
  | _, _ => st
  end.

(** [reader.onloadend] of [handleFileUpload]; the result is [null] when the
    file could not be read. *)
Definition handleFileUpload_loadend (result : option string) (st : state) : state :=
  stopCamera (setCapturedImage (Uploaded <$> result) st).

(** The cleanup of the unmount effect. *)
Definition unmount (st : state) : state :=
  match streamRef (refs st) with
  | Some tracks => fold_right track_stop st tracks
  | None => st
  end.

(** ** The registration *)

(** [!capturedImage] is false: there is a photo and it is not the empty
    string. *)
Definition has_photo (p : option photo) : bool :=
  match p with
  | Some (Captured _ _ _ _) => true
  | Some (Uploaded s) => negb (String.eqb s EmptyString)
  | None => false
  end.

(** The text the [catch] of [handleSubmit] chooses. *)
Definition errorMsg (e : failure) : string :=
  match e with
  | Response status detail =>
      if (status =? 409)%Z then
        "❌ Student ID already exists! Please use a unique ID."%string
      else if (status =? 400)%Z then
        let detail := default EmptyString detail in
        if StudentList.includes detail "No face detected" then
          "❌ No face detected. Please ensure your face is clearly visible and well-lit."%string
        else if StudentList.includes detail "Multiple faces" then
          "❌ Multiple faces detected. Please ensure only one person is in the photo."%string
        else ("❌ " ++ detail)%string
      else
        match detail with
        | Some d =>
            if String.eqb d EmptyString then "Registration failed. Please try again."%string
            else ("❌ " ++ d)%string
        | None => "Registration failed. Please try again."%string
        end
  | NoResponse =>
      "❌ Server not responding. Please check if backend is running on port 8000."%string
  | Thrown => "Registration failed. Please try again."%string
  end.

(** [handleSubmit], in the pieces its [await]s cut it into: up to
    [fetch(capturedImage)]; from the blob to [api.post]; after the post; and
    its [catch].  The [finally] closes the last two. *)
Definition handleSubmit (st : state) : state :=
  let st1 := setUploadProgress EmptyString (setMessage None st) in
  match capturedImage (ui st) with
  | Some p =>
      if has_photo (Some p) then
        set_calls (fun l => l ++ [Fetching p (formData (ui st))])
          (setUploadProgress "Processing image..." (setLoading true st1))
      else
        setMessage (Some {| type := error;
                            text := "Please capture or upload a face photo" |}) st1
  | None =>
      setMessage (Some {| type := error;
                          text := "Please capture or upload a face photo" |}) st1
  end.

Definition handleSubmit_blob (image : photo) (data : FormData) (st : state) : state :=
  let st1 := setUploadProgress "Detecting face..." st in
  let body := {| file := image; file_name := "face.jpg"; file_type := "image/jpeg";
                 form := data |} in
  let st2 := setUploadProgress "Registering student..." st1 in
  set_posted (cons body) st2.

Definition handleSubmit_posted (st : state) : state :=
  setLoading false
    (setCapturedImage None
      (setFormData blank
        (setMessage (Some {| type := success; text := "✓ Student registered successfully!" |})
          (setUploadProgress EmptyString st)))).

Definition handleSubmit_catch (e : failure) (st : state) : state :=
  setLoading false
    (setMessage (Some {| type := error; text := errorMsg e |})
      (setUploadProgress EmptyString st)).

(** ** What happens to the form *)

Inductive field := Name | StudentId | Email.

Inductive event :=
| StartCamera                                  (* the Use Camera / Retake Photo button *)
| MediaGranted (tracks : list positive)        (* [getUserMedia] resolves *)
| MediaRejected                                (* ... or rejects *)
| Playing                                      (* the promise of [play()] resolves *)
| PlayFailed                                   (* ... or rejects *)
| StopCamera                                   (* the Stop Camera button *)
| Capture (img : nat)                          (* the Capture button *)
| FileLoaded (result : option string)          (* the chosen file was read *)
| Edit (f : field) (value : string)            (* typing into a field *)
| Submit                                       (* the form is submitted *)
| Resolved (k : nat)                           (* what call [k] awaits resolves *)
| Rejected (k : nat) (e : failure).            (* ... or rejects *)

(** [onChange]: one field of the form values of this render. *)
Definition edit (f : field) (value : string) (d : FormData) : FormData :=
  match f with
  | Name => {| name := value; student_id := student_id d; email := email d |}
  | StudentId => {| name := name d; student_id := value; email := email d |}
  | Email => {| name := name d; student_id := student_id d; email := value |}
  end.

(** A button acts when it is rendered and not disabled: Use Camera while
    the camera is neither active nor starting, Stop Camera otherwise and
    not while starting, Capture while the camera is active, and the submit
    button unless [loading || !capturedImage]. *)
Definition step (st : state) (e : event) : state :=
  match e with
  | StartCamera =>
      if negb (isCameraActive (ui st)) && negb (cameraInitializing (ui st))
      then startCamera st else st
  | MediaGranted tracks => startCamera_stream tracks st
  | MediaRejected | PlayFailed => startCamera_catch st
  | Playing => startCamera_playing st
  | StopCamera =>
      if isCameraActive (ui st) && negb (cameraInitializing (ui st))
      then stopCamera st else st
  | Capture img => if isCameraActive (ui st) then capturePhoto img st else st
  | FileLoaded result => handleFileUpload_loadend result st
  | Edit f value => setFormData (edit f value (formData (ui st))) st
  | Submit =>
      if loading (ui st) || negb (has_photo (capturedImage (ui st)))
      then st else handleSubmit st
  | Resolved k =>
      match calls (browser st) !! k with
      | Some (Fetching image data) =>
          set_calls (fun l => <[k := Posting]> l) (handleSubmit_blob image data st)
      | Some Posting => set_calls (fun l => delete k l) (handleSubmit_posted st)
      | None => st
      end
  | Rejected k e =>
      match calls (browser st) !! k with
      | Some _ => set_calls (fun l => delete k l) (handleSubmit_catch e st)
      | None => st
      end
  end.

Definition run (st : state) (es : list event) : state := fold_left step es st.

Definition submits (es : list event) : nat :=
  length (List.filter (fun e => match e with Submit => true | _ => false end) es).

(** ** Proofs *)

Lemma tracks_stop_refs (tracks : list positive) (st : state) :
  refs (fold_right track_stop st tracks) = refs st.
Proof. induction tracks as [|t tracks IH]; simpl; [reflexivity | exact IH]. Qed.

Lemma tracks_stop_ui (tracks : list positive) (st : state) :
  ui (fold_right track_stop st tracks) = ui st.
Proof. induction tracks as [|t tracks IH]; simpl; [reflexivity | exact IH]. Qed.

Lemma tracks_stop_browser (tracks : list positive) (st : state) :
  posted (browser (fold_right track_stop st tracks)) = posted (browser st) /\
  calls (browser (fold_right track_stop st tracks)) = calls (browser st) /\
  stopped (browser (fold_right track_stop st tracks)) = list_to_set tracks ∪ stopped (browser st).
Proof.
  induction tracks as [|t tracks (IH1 & IH2 & IH3)]; simpl.
  - repeat split. rewrite (left_id_L ∅ (∪)). reflexivity.
  - repeat split; try assumption. rewrite IH3, (assoc_L (∪)). reflexivity.
Qed.

Lemma stopCamera_ui (st : state) :
  ui (stopCamera st)
  = {| capturedImage := capturedImage (ui st); isCameraActive := false;
       cameraInitializing := cameraInitializing (ui st); loading := loading (ui st);
       uploadProgress := uploadProgress (ui st); message := message (ui st);
       formData := formData (ui st) |}.
Proof.
  unfold stopCamera. cbv zeta.
  destruct (streamRef (refs st)); simpl; rewrite ?tracks_stop_refs;
    destruct (videoRef (refs st)); simpl; rewrite ?tracks_stop_ui; reflexivity.
Qed.

Lemma stopCamera_refs (st : state) :
  streamRef (refs (stopCamera st)) = None /\
  canvasRef (refs (stopCamera st)) = canvasRef (refs st) /\
  videoRef (refs (stopCamera st))
  = match videoRef (refs st) with Some _ => Some {| srcObject := None |} | None => None end.
Proof.
  unfold stopCamera. cbv zeta.
  destruct (streamRef (refs st)) eqn:Es; simpl; rewrite ?tracks_stop_refs;
    destruct (videoRef (refs st)) eqn:Ev; simpl; rewrite ?tracks_stop_refs, ?Es, ?Ev;
    repeat split.
Qed.

Lemma stopCamera_browser (st : state) :
  posted (browser (stopCamera st)) = posted (browser st) /\
  calls (browser (stopCamera st)) = calls (browser st) /\
  stopped (browser (stopCamera st))
  = from_option list_to_set ∅ (streamRef (refs st)) ∪ stopped (browser st).
Proof.
  unfold stopCamera. cbv zeta.
  destruct (streamRef (refs st)) as [tracks|] eqn:Es; simpl; rewrite ?tracks_stop_refs;
    destruct (videoRef (refs st)) eqn:Ev; simpl;
    try (destruct (tracks_stop_browser tracks st) as (H1 & H2 & H3);
         rewrite H1, H2, H3);
    rewrite ?(left_id_L ∅ (∪)); repeat split.
Qed.

(** What a registration depends on, apart from the photo and the form
    values: the camera and the fields do not touch it. *)
Definition registration (st : state) : bool * string * list call * list Registration :=
  (loading (ui st), uploadProgress (ui st), calls (browser st), posted (browser st)).

Definition settles (e : event) : bool :=
  match e with Resolved _ | Rejected _ _ => true | _ => false end.

Lemma stopCamera_registration (st : state) : registration (stopCamera st) = registration st.
Proof.
  unfold registration. rewrite stopCamera_ui. cbn [loading uploadProgress].
  destruct (stopCamera_browser st) as (-> & -> & _). reflexivity.
Qed.

Lemma capturePhoto_registration (img : nat) (st : state) :
  registration (capturePhoto img st) = registration st.
Proof.
  unfold capturePhoto.
  destruct (videoRef (refs st)); [|reflexivity].
  destruct (canvasRef (refs st)) as [c|]; [|reflexivity].
  destruct (context2d c); [|reflexivity].
  rewrite stopCamera_registration. reflexivity.
Qed.

Lemma step_registration (st : state) (e : event) :
  settles e = false -> e <> Submit -> registration (step st e) = registration st.
Proof.
  intros Hs Hne. destruct e; simpl in *; try discriminate; try congruence;
    try reflexivity.
  - destruct (_ && _); reflexivity.
  - unfold startCamera_stream. simpl. destruct (videoRef (refs st)); reflexivity.
  - destruct (_ && _); [apply stopCamera_registration | reflexivity].
  - destruct (isCameraActive (ui st)); [apply capturePhoto_registration | reflexivity].
  - unfold handleFileUpload_loadend. rewrite stopCamera_registration. reflexivity.
Qed.

(** Busy with exactly one call, or idle with none. *)
Definition one_call (st : state) : Prop :=
  (loading (ui st) = true /\ exists c, calls (browser st) = [c]) \/
  (loading (ui st) = false /\ calls (browser st) = []).

Definition fetching (l : list call) : nat :=
  length (List.filter (fun c => match c with Fetching _ _ => true | Posting => false end) l).

Definition shown_progress : list string :=
  [EmptyString; "Processing image..."; "Registering student..."]%string.

Definition steady (n : nat) (st : state) : Prop :=
  one_call st /\
  (length (posted (browser st)) + fetching (calls (browser st)) <= n)%nat /\
  In (uploadProgress (ui st)) shown_progress.

Lemma steady_registration (n : nat) (st st' : state) :
  registration st' = registration st -> steady n st -> steady n st'.
Proof.
  unfold registration, steady, one_call. intros [= -> -> -> ->] H. exact H.
Qed.

Lemma step_steady (n : nat) (st : state) (e : event) :
  steady n st ->
  steady (n + match e with Submit => 1 | _ => 0 end) (step st e).
Proof.
  intros H.
  destruct e as [| | | | | | | | | |k|k err];
    try (rewrite Nat.add_0_r; apply (steady_registration n st);
         [apply step_registration; [reflexivity | discriminate] | exact H]);
    destruct H as (Hone & Hn & Hp); simpl.
  - (* Submit *)
    destruct Hone as [(Hl & c & Hc)|(Hl & Hc)]; rewrite Hl; cbn [orb].
    + unfold steady, one_call. rewrite Hl, Hc in *.
      split; [left; eauto|]. split; [lia | exact Hp].
    + destruct (has_photo (capturedImage (ui st))) eqn:Hph; cbn [negb].
      * destruct (capturedImage (ui st)) as [p|] eqn:Ep; [|discriminate].
        unfold handleSubmit. rewrite Ep, Hph.
        unfold steady, one_call; simpl. rewrite Hc in *. simpl.
        split; [left; split; [reflexivity | eauto]|]. unfold fetching in *. simpl in *.
        split; [lia | right; left; reflexivity].
      * unfold steady, one_call. rewrite Hl, Hc in *.
        split; [right; split; reflexivity|]. split; [lia | exact Hp].
  - (* Resolved *)
    rewrite Nat.add_0_r.
    destruct Hone as [(Hl & c & Hc)|(Hl & Hc)]; rewrite Hc in *.
    + destruct k as [|k]; simpl.
      * destruct c as [image data|]; simpl; unfold steady, one_call; simpl; rewrite ?Hc; simpl.
        -- split; [left; split; [exact Hl | eauto]|]. unfold fetching in *. simpl in *.
           split; [lia | right; right; left; reflexivity].
        -- split; [right; split; reflexivity|]. unfold fetching in *. simpl in *.
           split; [lia | left; reflexivity].
      * unfold steady, one_call. rewrite Hc.
        split; [left; eauto|]. split; assumption.
    + simpl. unfold steady, one_call. rewrite Hc.
      split; [right; split; [exact Hl | reflexivity]|]. split; assumption.
  - (* Rejected *)
    rewrite Nat.add_0_r.
    destruct Hone as [(Hl & c & Hc)|(Hl & Hc)]; rewrite Hc in *.
    + destruct k as [|k]; simpl.
      * unfold steady, one_call; simpl; rewrite ?Hc; simpl.
        split; [right; split; reflexivity|]. unfold fetching in *.
        destruct c; simpl in *; (split; [lia | left; reflexivity]).
      * unfold steady, one_call. rewrite Hc.
        split; [left; eauto|]. split; assumption.
    + simpl. unfold steady, one_call. rewrite Hc.
      split; [right; split; [exact Hl | reflexivity]|]. split; assumption.
Qed.

Lemma run_steady (es : list event) (n : nat) (st : state) :
  steady n st -> steady (n + submits es) (run st es).
Proof.
  revert n st. induction es as [|e es IH]; intros n st H; simpl.
  - unfold submits. simpl. rewrite Nat.add_0_r. exact H.
  - apply (step_steady n st e) in H. apply IH in H.
    replace (n + submits (e :: es))%nat
      with (n + match e with Submit => 1 | _ => 0 end + submits es)%nat; [exact H|].
    unfold submits. destruct e; simpl; lia.
Qed.

(** X16. Whatever is done to the form, at most one registration is under way at
    a time, and exactly while [loading] is set; no more requests are posted
    than the form was submitted; and the progress line shows nothing,
    "Processing image..." or "Registering student..." -- "Detecting
    face..." is replaced in the turn that sets it. *)
Theorem one_registration_at_a_time (es : list event) :
  (length (calls (browser (run mounted es))) <= 1)%nat /\
  (loading (ui (run mounted es)) = false <-> calls (browser (run mounted es)) = []) /\
  (length (posted (browser (run mounted es))) <= submits es)%nat /\
  In (uploadProgress (ui (run mounted es))) shown_progress.
Proof.
  assert (H0 : steady 0 mounted).
  { split; [right; split; reflexivity|]. split; [unfold fetching; simpl; lia | left; reflexivity]. }
  apply (run_steady es) in H0. destruct H0 as (Hone & Hn & Hp). simpl in Hn.
  split; [|split; [|split; [lia | exact Hp]]].
  - destruct Hone as [(_ & c & ->)|(_ & ->)]; simpl; lia.
  - destruct Hone as [(Hl & c & Hc)|(Hl & Hc)]; rewrite Hl, Hc; split; congruence.
Qed.

Lemma quiet_run (es : list event) (st : state) :
  loading (ui st) = true ->
  forallb (fun e => negb (settles e)) es = true ->
  registration (run st es) = registration st.
Proof.
  revert st. induction es as [|e es IH]; intros st Hl Hq; simpl; [reflexivity|].
  simpl in Hq. apply andb_true_iff in Hq as [He Hq]. apply negb_true_iff in He.
  assert (E : registration (step st e) = registration st).
  { destruct e; try (apply step_registration; [exact He | discriminate]).
    simpl. rewrite Hl. reflexivity. }
  rewrite IH; [exact E | | exact Hq].
  unfold registration in E. injection E as -> _ _ _. exact Hl.
Qed.

(** X17. The request carries the photo and the form values that were on the
    page when the form was submitted, under the name face.jpg and the type
    image/jpeg: editing the fields, retaking the photo or choosing another
    file while the photo is being read changes nothing of it. *)
Theorem posts_what_was_submitted (st : state) (p : photo) (es : list event) :
  calls (browser st) = [] -> loading (ui st) = false ->
  capturedImage (ui st) = Some p -> has_photo (Some p) = true ->
  forallb (fun e => negb (settles e)) es = true ->
  posted (browser (step (run (step st Submit) es) (Resolved 0)))
  = {| file := p; file_name := "face.jpg"; file_type := "image/jpeg";
       form := formData (ui st) |} :: posted (browser st).
Proof.
  intros Hc Hl Hp Hph Hq.
  assert (E : step st Submit = handleSubmit st).
  { simpl. rewrite Hl, Hp, Hph. reflexivity. }
  rewrite E.
  assert (R : registration (handleSubmit st)
              = (true, "Processing image..."%string, [Fetching p (formData (ui st))],
                 posted (browser st))).
  { unfold handleSubmit. rewrite Hp, Hph. unfold registration. simpl. rewrite Hc. reflexivity. }
  assert (Q : registration (run (handleSubmit st) es) = registration (handleSubmit st)).
  { apply quiet_run; [|exact Hq]. unfold registration in R. injection R as -> _ _ _. reflexivity. }
  rewrite R in Q. unfold registration in Q. injection Q as Ql Qp Qc Qd.
  simpl. rewrite Qc. simpl. rewrite Qd. reflexivity.
Qed.

Lemma posts_what_was_submitted_witness :
  posted (browser (run mounted
    [Edit Name "Asha"; Edit StudentId "S1"; FileLoaded (Some "data:image/png;base64,AAAA");
     Submit;
     Edit Name "Ravi"; FileLoaded (Some "data:image/png;base64,BBBB");
     Resolved 0]))
  = [ {| file := Uploaded "data:image/png;base64,AAAA"; file_name := "face.jpg";
         file_type := "image/jpeg";
         form := {| name := "Asha"; student_id := "S1"; email := EmptyString |} |} ].
Proof.
  exact (posts_what_was_submitted
           (run mounted [Edit Name "Asha"; Edit StudentId "S1";
                         FileLoaded (Some "data:image/png;base64,AAAA")])
           (Uploaded "data:image/png;base64,AAAA")
           [Edit Name "Ravi"; FileLoaded (Some "data:image/png;base64,BBBB")]
           eq_refl eq_refl eq_refl eq_refl eq_refl).
Defined.

(** X18. When the server has answered: success empties the form, drops the
    photo and leaves the submit button disabled; failure keeps the form
    values and the photo for another try and shows the text chosen for the
    error.  Either way the registration is over and [loading] is off. *)
Theorem registration_outcome (st : state) (e : failure) :
  calls (browser st) = [Posting] ->
  (message (ui (step st (Resolved 0)))
     = Some {| type := success; text := "✓ Student registered successfully!" |} /\
   formData (ui (step st (Resolved 0))) = blank /\
   capturedImage (ui (step st (Resolved 0))) = None /\
   loading (ui (step st (Resolved 0))) = false /\
   calls (browser (step st (Resolved 0))) = [] /\
   step (step st (Resolved 0)) Submit = step st (Resolved 0)) /\
  (message (ui (step st (Rejected 0 e))) = Some {| type := error; text := errorMsg e |} /\
   formData (ui (step st (Rejected 0 e))) = formData (ui st) /\
   capturedImage (ui (step st (Rejected 0 e))) = capturedImage (ui st) /\
   loading (ui (step st (Rejected 0 e))) = false /\
   calls (browser (step st (Rejected 0 e))) = [] /\
   posted (browser (step st (Rejected 0 e))) = posted (browser st)).
Proof.
  intros Hc. simpl. rewrite Hc. simpl. rewrite Hc. repeat split.
Qed.

Lemma registration_outcome_witness :
  message (ui (run mounted
    [FileLoaded (Some "data:image/png;base64,AAAA"); Submit; Resolved 0;
     Rejected 0 (Response 409 None)]))
  = Some {| type := error;
            text := "❌ Student ID already exists! Please use a unique ID." |}.
Proof.
  exact (proj1 (proj2 (registration_outcome
           (run mounted [FileLoaded (Some "data:image/png;base64,AAAA"); Submit; Resolved 0])
           (Response 409 None) eq_refl))).
Defined.


(** A camera that is off already is left as it is. *)
Lemma stopCamera_fixed (st : state) :
  streamRef (refs st) = None -> isCameraActive (ui st) = false ->
  (forall v, videoRef (refs st) = Some v -> srcObject v = None) ->
  stopCamera st = st.
Proof.
  destruct st as [[v c s] [p a i l u m d] b]. simpl. intros -> -> Hv.
  unfold stopCamera. simpl. destruct v as [[o]|]; [|reflexivity].
  specialize (Hv _ eq_refl). simpl in Hv. subst o. reflexivity.
Qed.

(** X20. Stopping the camera twice is stopping it once, and leaving the page
    after a stop does nothing more. *)
Theorem stopCamera_idempotent (st : state) :
  stopCamera (stopCamera st) = stopCamera st /\
  unmount (stopCamera st) = stopCamera st.
Proof.
  destruct (stopCamera_refs st) as (Hs & _ & Hv).
  split.
  - apply stopCamera_fixed; [exact Hs | rewrite stopCamera_ui; reflexivity |].
    intros v E. rewrite Hv in E. destruct (videoRef (refs st)); [|discriminate].
    injection E as <-. reflexivity.
  - unfold unmount. rewrite Hs. reflexivity.
Qed.

(** X21. When the video fails to play after the camera was granted, nothing
    stops the stream: it stays in [streamRef] with the camera shown as
    off, the Stop button is not there, and a second start that succeeds
    puts its own stream in [streamRef], so that stopping then stops the
    tracks of the second stream only. *)
Theorem failed_start_leaves_stream_running (st : state) (tracks tracks2 : list positive) :
  videoRef (refs st) <> None ->
  isCameraActive (ui st) = false -> cameraInitializing (ui st) = false ->
  streamRef (refs (run st [StartCamera; MediaGranted tracks; PlayFailed])) = Some tracks /\
  stopped (browser (run st [StartCamera; MediaGranted tracks; PlayFailed]))
    = stopped (browser st) /\
  step (run st [StartCamera; MediaGranted tracks; PlayFailed]) StopCamera
    = run st [StartCamera; MediaGranted tracks; PlayFailed] /\
  stopped (browser (run st [StartCamera; MediaGranted tracks; PlayFailed;
                            StartCamera; MediaGranted tracks2; Playing; StopCamera]))
    = list_to_set tracks2 ∪ stopped (browser st).
Proof.
  intros Hv Ha Hi.
  destruct (videoRef (refs st)) as [v|] eqn:Ev; [clear Hv | congruence].
  simpl. rewrite Ha, Hi. simpl.
  unfold startCamera_stream. simpl. rewrite Ev. simpl. rewrite Ha. simpl.
  repeat split.
  destruct (stopCamera_browser
    (startCamera_playing
       (set_videoRef (Some {| srcObject := Some tracks2 |})
          (set_streamRef (Some tracks2)
             (startCamera
                (startCamera_catch
                   (set_videoRef (Some {| srcObject := Some tracks |})
                      (set_streamRef (Some tracks) (startCamera st))))))))) as (_ & _ & E).
  exact E.
Qed.

Lemma failed_start_leaves_stream_running_witness :
  stopped (browser (run mounted [StartCamera; MediaGranted [7%positive]; PlayFailed;
                                 StartCamera; MediaGranted [8%positive]; Playing; StopCamera]))
  = list_to_set [8%positive] ∪ stopped (browser mounted).
Proof.
  exact (proj2 (proj2 (proj2
    (failed_start_leaves_stream_running mounted [7%positive] [8%positive]
       ltac:(discriminate) eq_refl eq_refl)))).
Defined.

End StudentForm.

(* ===================================================================== *)
(** * App: the sidebar and the page it shows                            *)
(* ===================================================================== *)

Module App.

Record MenuItem := { id : string; label : string }.

Definition menuItems : list MenuItem :=
  [ {| id := "dashboard"; label := "Dashboard" |};
    {| id := "attendance"; label := "Mark Attendance" |};
    {| id := "history"; label := "Attendance History" |};
    {| id := "register"; label := "Register Student" |};
    {| id := "students"; label := "Students" |} ].

Record state := { activeTab : string; isSidebarOpen : bool }.

Definition init : state := {| activeTab := "dashboard"; isSidebarOpen := true |}.

Definition setActiveTab (tab : string) (st : state) : state :=
  {| activeTab := tab; isSidebarOpen := isSidebarOpen st |}.

Definition toggleSidebar (st : state) : state :=
  {| activeTab := activeTab st; isSidebarOpen := negb (isSidebarOpen st) |}.

(** [cond && x] as a child: [x] when the condition holds, nothing otherwise. *)
Definition when {A : Type} (cond : bool) (x : A) : list A := if cond then [x] else [].

Inductive page := DashboardPage | AttendancePage | AttendanceHistoryPage | StudentForm | StudentList.

(** The children of the header's [h2] and of the content area. *)
Definition title (st : state) : list string :=
  when (String.eqb (activeTab st) "dashboard") "Dashboard Overview" ++
  when (String.eqb (activeTab st) "attendance") "Mark Attendance" ++
  when (String.eqb (activeTab st) "history") "Attendance History" ++
  when (String.eqb (activeTab st) "register") "Register New Student" ++
  when (String.eqb (activeTab st) "students") "Student Management".

Definition content (st : state) : list page :=
  when (String.eqb (activeTab st) "dashboard") DashboardPage ++
  when (String.eqb (activeTab st) "attendance") AttendancePage ++
  when (String.eqb (activeTab st) "history") AttendanceHistoryPage ++
  when (String.eqb (activeTab st) "register") StudentForm ++
  when (String.eqb (activeTab st) "students") StudentList.

(** The menu buttons drawn as active. *)
Definition highlighted (st : state) : list MenuItem :=
  List.filter (fun item => String.eqb (activeTab st) (id item)) menuItems.

(** The sidebar's width in pixels. *)
Definition sidebar_width (st : state) : Z := if isSidebarOpen st then 280 else 88.

Inductive event :=
| Select (index : nat)        (* a click on the menu button at that position *)
| Toggle.                     (* a click on the sidebar's toggle *)

Definition step (st : state) (e : event) : state :=
  match e with
  | Select index =>
      match menuItems !! index with
      | Some item => setActiveTab (id item) st
      | None => st
      end
  | Toggle => toggleSidebar st
  end.

Definition run (st : state) (es : list event) : state := fold_left step es st.

Definition page_of (tab : string) : option (page * string) :=
  if String.eqb tab "dashboard" then Some (DashboardPage, "Dashboard Overview")
  else if String.eqb tab "attendance" then Some (AttendancePage, "Mark Attendance")
  else if String.eqb tab "history" then Some (AttendanceHistoryPage, "Attendance History")
  else if String.eqb tab "register" then Some (StudentForm, "Register New Student")
  else if String.eqb tab "students" then Some (StudentList, "Student Management")
  else None.

Lemma run_tab (es : list event) (st : state) :
  activeTab st ∈ id <$> menuItems -> activeTab (run st es) ∈ id <$> menuItems.
Proof.
  revert st. induction es as [|e es IH]; intros st H; simpl; [exact H|].
  apply IH. destruct e as [index|]; simpl; [|exact H].
  destruct (menuItems !! index) as [item|] eqn:E; [|exact H].
  change (id item ∈ id <$> menuItems).
  apply list_elem_of_fmap. exists item. split; [reflexivity|].
  apply list_elem_of_lookup. exists index. exact E.
Qed.

(** X22. Whatever is clicked in the sidebar, the app shows exactly one page
    under exactly one title, and exactly one menu button is drawn as
    active: the one whose click led there. *)
Theorem one_page_shown (es : list event) :
  exists (p : page) (t : string) (item : MenuItem),
    content (run init es) = [p] /\
    title (run init es) = [t] /\
    highlighted (run init es) = [item] /\
    id item = activeTab (run init es) /\
    page_of (id item) = Some (p, t).
Proof.
  assert (H : activeTab (run init es) ∈ id <$> menuItems).
  { apply run_tab. simpl. apply list_elem_of_here. }
  unfold content, title, highlighted.
  generalize dependent (activeTab (run init es)). intros tab H.
  simpl in H. repeat (apply elem_of_cons in H as [->|H]);
    [| | | | |inversion H];
    (eexists _, _, _; repeat split; reflexivity).
Qed.

End App.

(* ===================================================================== *)
(** * The confirmation engine of the server                               *)
(* ===================================================================== *)

Module Engine.

Inductive track_state := DETECTED | VERIFYING | CONFIRMED | REJECTED.

#[global] Instance track_state_eq_dec : EqDecision track_state.
Proof. solve_decision. Defined.

Section Engine.

(** The embedding extractor and the liveness signal are outside the
    specification; so are the distance, the calibrated transform from
    distance to confidence, and the values of the fixed thresholds. *)
Variable embedding : Type.
Variable distance : embedding -> embedding -> Q.
Variable confidence_of : Q -> Q.
Variables rejection_threshold match_threshold liveness_pass : Q.
Variables frames_required hysteresis cooldown : nat.

Record EnrolledIdentity := {
  identity_id : nat;
  name : string;
  code : string;
  enrolled : embedding
}.

(** Modelled from the spec: the Identity Matcher of section 4.4, whose code
    is not among the sources.  The gallery entry at minimum distance; of
    two entries at equal minimal distance the one matched on the preceding
    frame of the track, else the one first in the gallery. *)
Fixpoint nearest (prev : option nat) (gallery : list EnrolledIdentity) (e : embedding)
    : option (EnrolledIdentity * Q) :=
  match gallery with
  | [] => None
  | g :: rest =>
      let d := distance e (enrolled g) in
      match nearest prev rest e with
      | None => Some (g, d)
      | Some (g', d') =>
          if Qlt_le_dec d' d then Some (g', d')
          else if Qlt_le_dec d d' then Some (g, d)
          else if decide (prev = Some (identity_id g')) then Some (g', d')
          else Some (g, d)
      end
  end.

(** What the matcher reports for a face: the identity, or Unknown ([None])
    when the gallery is empty or the best distance exceeds the rejection
    threshold; and the confidence. *)
Record observation := {
  who : option nat;
  confidence : Q;
  live : bool               (* the liveness score is above the pass threshold *)
}.

(** One frame's evidence for a track: the embedding of the face crop and
    the liveness score of the track. *)
Record evidence := { face : embedding; liveness : Q }.

(** Modelled from the spec: matching and the liveness test of one frame
    (sections 4.4 and 4.6). *)
Definition observe (gallery : list EnrolledIdentity) (prev : option nat) (ev : evidence)
    : observation :=
  let l := if Qlt_le_dec liveness_pass (liveness ev) then true else false in
  match nearest prev gallery (face ev) with
  | None => {| who := None; confidence := 0; live := l |}
  | Some (g, d) =>
      {| who := if Qlt_le_dec rejection_threshold d then None else Some (identity_id g);
         confidence := confidence_of d;
         live := l |}
  end.

(** The part of a TrackedFace the state machine reads and writes. *)
Record TrackedFace := {
  best : option nat;              (* best-matched identity of the last frame *)
  frames_confirmed : nat;
  liveness_failures : nat;        (* consecutive frames that failed liveness *)
  cooled : nat;                   (* consecutive passing frames since REJECTED *)
  state : track_state
}.

(** A track as Track Association allocates it. *)
Definition new_track : TrackedFace :=
  {| best := None; frames_confirmed := 0; liveness_failures := 0; cooled := 0;
     state := DETECTED |}.

Definition confident (o : observation) : bool := Qle_bool match_threshold (confidence o).

(** Modelled from the spec: the Confirmation State Machine of section 4.7
    with the liveness hysteresis of section 4.6, evaluated once per frame
    per track; its code is not among the sources.
    - DETECTED: on confidence >= match_threshold for the current best
      identity, to VERIFYING with frames_confirmed = 1.
    - VERIFYING: if the best identity is unchanged, confidence >=
      match_threshold and liveness passes, frames_confirmed += 1, and to
      CONFIRMED once frames_confirmed >= frames_required; otherwise to
      DETECTED with frames_confirmed = 0.
    - CONFIRMED: terminal.
    - REJECTED: reached from DETECTED or VERIFYING when liveness has failed
      on [hysteresis] consecutive frames; back to DETECTED after [cooldown]
      consecutive frames with passing liveness. *)
Definition advance (t : TrackedFace) (o : observation) : TrackedFace :=
  let fails := if live o then 0%nat else S (liveness_failures t) in
  match state t with
  | CONFIRMED => t
  | REJECTED =>
      let c := if live o then S (cooled t) else 0%nat in
      if (cooldown <=? c)%nat
      then {| best := who o; frames_confirmed := 0; liveness_failures := 0;
              cooled := 0; state := DETECTED |}
      else {| best := who o; frames_confirmed := 0; liveness_failures := fails;
              cooled := c; state := REJECTED |}
  | DETECTED =>
      if (hysteresis <=? fails)%nat
      then {| best := who o; frames_confirmed := 0; liveness_failures := fails;
              cooled := 0; state := REJECTED |}
      else if is_Some_dec (who o) then
        if confident o
        then {| best := who o; frames_confirmed := 1; liveness_failures := fails;
                cooled := 0; state := VERIFYING |}
        else {| best := who o; frames_confirmed := 0; liveness_failures := fails;
                cooled := 0; state := DETECTED |}
      else {| best := who o; frames_confirmed := 0; liveness_failures := fails;
              cooled := 0; state := DETECTED |}
  | VERIFYING =>
      if (hysteresis <=? fails)%nat
      then {| best := who o; frames_confirmed := 0; liveness_failures := fails;
              cooled := 0; state := REJECTED |}
      else if decide (who o = best t) then
        if confident o && live o
        then {| best := best t; frames_confirmed := S (frames_confirmed t);
                liveness_failures := fails; cooled := 0;
                state := if (frames_required <=? S (frames_confirmed t))%nat
                         then CONFIRMED else VERIFYING |}
        else {| best := who o; frames_confirmed := 0; liveness_failures := fails;
                cooled := 0; state := DETECTED |}
      else {| best := who o; frames_confirmed := 0; liveness_failures := fails;
              cooled := 0; state := DETECTED |}
  end.

Variable gallery : list EnrolledIdentity.

Definition update (t : TrackedFace) (ev : evidence) : TrackedFace :=
  advance t (observe gallery (best t) ev).

(** Modelled from the spec: the Session Controller's handling of one track
    (section 4.7, last paragraph).  On the frame where the track first
    reaches CONFIRMED the identity is added to the marked set and one mark
    event is emitted, unless it is marked already. *)
Record session := {
  track : TrackedFace;
  marked : list nat;                  (* identities marked this session *)
  history : list observation;         (* what was observed, newest first *)
  events : list nat                   (* mark events emitted, newest first *)
}.

Definition new_session : session :=
  {| track := new_track; marked := []; history := []; events := [] |}.

Definition process (s : session) (ev : evidence) : session :=
  let o := observe gallery (best (track s)) ev in
  let t' := advance (track s) o in
  let first_confirmed :=
    bool_decide (state (track s) <> CONFIRMED) && bool_decide (state t' = CONFIRMED) in
  match best t' with
  | Some id =>
      if first_confirmed && negb (bool_decide (id ∈ marked s))
      then {| track := t'; marked := id :: marked s; history := o :: history s;
              events := id :: events s |}
      else {| track := t'; marked := marked s; history := o :: history s;
              events := events s |}
  | None => {| track := t'; marked := marked s; history := o :: history s;
               events := events s |}
  end.

Definition frames (s : session) (evs : list evidence) : session := fold_left process evs s.



(** ** Unknown faces *)

Lemma nearest_elem (prev : option nat) (l : list EnrolledIdentity) (e : embedding)
    (g : EnrolledIdentity) (d : Q) :
  nearest prev l e = Some (g, d) -> g ∈ l /\ d = distance e (enrolled g).
Proof.
  revert g d. induction l as [|g0 l IH]; intros g d; simpl; [discriminate|].
  destruct (nearest prev l e) as [[g' d']|] eqn:E.
  - specialize (IH g' d' eq_refl) as [Hin Hd].
    destruct (Qlt_le_dec d' (distance e (enrolled g0))).
    + intros [= <- <-]. split; [apply elem_of_cons; right; exact Hin | exact Hd].
    + destruct (Qlt_le_dec (distance e (enrolled g0)) d').
      * intros [= <- <-]. split; [apply elem_of_cons; left|]; reflexivity.
      * destruct (decide (prev = Some (identity_id g'))).
        -- intros [= <- <-]. split; [apply elem_of_cons; right; exact Hin | exact Hd].
        -- intros [= <- <-]. split; [apply elem_of_cons; left|]; reflexivity.
  - intros [= <- <-]. split; [apply elem_of_cons; left|]; reflexivity.
Qed.

(** An empty gallery, or a face farther than the rejection threshold from
    every entry, is reported as Unknown. *)
Definition unknown (l : list EnrolledIdentity) (ev : evidence) : Prop :=
  l = [] \/ forall g, g ∈ l -> (rejection_threshold < distance (face ev) (enrolled g))%Q.

Lemma observe_unknown (l : list EnrolledIdentity) (prev : option nat) (ev : evidence) :
  unknown l ev -> who (observe l prev ev) = None.
Proof.
  intros Hu. unfold observe.
  destruct (nearest prev l (face ev)) as [[g d]|] eqn:E; [|reflexivity].
  apply nearest_elem in E as [Hin ->]. simpl.
  destruct Hu as [->|Hfar]; [inversion Hin|].
  destruct (Qlt_le_dec _ _) as [_|Hle]; [reflexivity|].
  exfalso. exact (Qlt_not_le _ _ (Hfar g Hin) Hle).
Qed.

(** A track that has seen nothing but Unknown. *)
Definition idle (s : session) : Prop :=
  (state (track s) = DETECTED \/ state (track s) = REJECTED) /\
  frames_confirmed (track s) = 0%nat /\
  events s = [] /\ marked s = [] /\
  Forall (fun o => who o = None) (history s).

Lemma process_idle (s : session) (ev : evidence) :
  idle s -> unknown gallery ev -> idle (process s ev).
Proof.
  intros (Hst & Hfc & He & Hm & Hh) Hu.
  pose proof (observe_unknown gallery (best (track s)) ev Hu) as Hw.
  unfold process. set (o := observe gallery (best (track s)) ev) in *.
  assert (Ha : (state (advance (track s) o) = DETECTED \/
                state (advance (track s) o) = REJECTED) /\
               frames_confirmed (advance (track s) o) = 0%nat /\
               best (advance (track s) o) = None).
  { unfold advance. destruct Hst as [-> | ->].
    - destruct (hysteresis <=? _)%nat; [simpl; rewrite Hw; auto|].
      destruct (is_Some_dec (who o)) as [Hs|_].
      + rewrite Hw in Hs. destruct Hs as [x Hx]. discriminate.
      + simpl. rewrite Hw. auto.
    - destruct (cooldown <=? _)%nat; simpl; rewrite Hw; auto. }
  destruct Ha as (Hst' & Hfc' & Hb'). rewrite Hb'.
  repeat split; simpl; try assumption.
  apply Forall_cons. split; assumption.
Qed.

Lemma frames_idle (evs : list evidence) (s : session) :
  idle s -> Forall (unknown gallery) evs -> idle (frames s evs).
Proof.
  revert s. induction evs as [|ev evs IH]; intros s Hs Hu; simpl; [exact Hs|].
  apply Forall_cons in Hu as [Hu Hus].
  apply IH; [apply process_idle; assumption | exact Hus].
Qed.

(** C3. Unknown never confirms.  A track whose face is, on every frame,
    farther than the rejection threshold from every gallery entry, or
    whose session has an empty gallery, is reported as Unknown on every
    frame; however many frames there are, it is never CONFIRMED (it is
    DETECTED or REJECTED with frames_confirmed = 0) and the session emits
    no mark event. *)
Theorem unknown_never_confirms (evs : list evidence) :
  Forall (unknown gallery) evs ->
  state (track (frames new_session evs)) <> CONFIRMED /\
  frames_confirmed (track (frames new_session evs)) = 0%nat /\
  events (frames new_session evs) = [] /\
  marked (frames new_session evs) = [] /\
  Forall (fun o => who o = None) (history (frames new_session evs)).
Proof.
  intros Hu.
  assert (Hi : idle new_session).
  { repeat split; try reflexivity; [left; reflexivity | apply Forall_nil_2]. }
  destruct (frames_idle evs new_session Hi Hu) as (Hst & Hfc & He & Hm & Hh).
  repeat split; try assumption.
  destruct Hst as [-> | ->]; discriminate.
Qed.

(** ** Evidence behind a confirmation *)








End Engine.

(** ** The scenarios of the specification *)

(** Embeddings on a line; the confidence falls linearly from 1 at distance
    0 to 0 at the rejection distance 10.  frames_required = 5,
    match_threshold = 0.6; liveness passes above 0.5 and is held to have
    failed for good after 3 consecutive failures; the cool-down is 3
    frames. *)
Definition line_distance (a b : Q) : Q := Qabs (a - b).
Definition linear_confidence (d : Q) : Q :=
  if Qle_bool 10 d then 0%Q else (1 - d / 10)%Q.

Definition alice : EnrolledIdentity Q :=
  {| identity_id := 1; name := "Alice"; code := "S001"; enrolled := 0%Q |}.
Definition bob : EnrolledIdentity Q :=
  {| identity_id := 2; name := "Bob"; code := "S002"; enrolled := 100%Q |}.

Definition scenario (gallery : list (EnrolledIdentity Q)) (evs : list (evidence Q))
    : session :=
  frames Q line_distance linear_confidence 10 (6 # 10) (1 # 2) 5 3 3 gallery
         new_session evs.

(** A face at distance [d] from Alice with liveness score [l]. *)
Definition near_alice (d l : Q) : evidence Q := {| face := d; liveness := l |}.
Definition near_bob (d l : Q) : evidence Q := {| face := (100 - d)%Q; liveness := l |}.

(** Confidences 0.65, 0.7, 0.8, 0.75, 0.9 for Alice, liveness passing. *)
Definition five_good : list (evidence Q) :=
  [near_alice (7 # 2) (9 # 10); near_alice 3 (9 # 10); near_alice 2 (9 # 10);
   near_alice (5 # 2) (9 # 10); near_alice 1 (9 # 10)].


Example scenario_1 :
  state (track (scenario [alice; bob] five_good)) = CONFIRMED /\
  events (scenario [alice; bob] five_good) = [1%nat] /\
  state (track (scenario [alice; bob] (five_good ++ [near_alice 1 (9 # 10)]))) = CONFIRMED /\
  events (scenario [alice; bob] (five_good ++ [near_alice 1 (9 # 10)])) = [1%nat].
Proof. vm_compute. repeat split. Qed.

Example scenario_2 :
  state (track (scenario [alice; bob]
    [near_alice 3 (9 # 10); near_alice 3 (9 # 10); near_alice 3 (9 # 10);
     near_alice 3 (9 # 10); near_alice 6 (9 # 10)])) = DETECTED /\
  frames_confirmed (track (scenario [alice; bob]
    [near_alice 3 (9 # 10); near_alice 3 (9 # 10); near_alice 3 (9 # 10);
     near_alice 3 (9 # 10); near_alice 6 (9 # 10)])) = 0%nat /\
  events (scenario [alice; bob]
    [near_alice 3 (9 # 10); near_alice 3 (9 # 10); near_alice 3 (9 # 10);
     near_alice 3 (9 # 10); near_alice 6 (9 # 10)]) = [].
Proof. vm_compute. repeat split. Qed.

Example scenario_3 :
  state (track (scenario [] five_good)) = DETECTED /\
  events (scenario [] five_good) = [].
Proof. vm_compute. repeat split. Qed.

Example scenario_4 :
  Forall (fun n => (frames_confirmed (track (scenario [alice; bob]
       (firstn n [near_alice 1 (9 # 10); near_bob 1 (9 # 10); near_alice 1 (9 # 10);
                  near_bob 1 (9 # 10); near_alice 1 (9 # 10); near_bob 1 (9 # 10);
                  near_alice 1 (9 # 10); near_bob 1 (9 # 10)]))) <= 1)%nat)
         [0; 1; 2; 3; 4; 5; 6; 7; 8]%nat /\
  events (scenario [alice; bob]
       [near_alice 1 (9 # 10); near_bob 1 (9 # 10); near_alice 1 (9 # 10);
        near_bob 1 (9 # 10); near_alice 1 (9 # 10); near_bob 1 (9 # 10);
        near_alice 1 (9 # 10); near_bob 1 (9 # 10)]) = [].
Proof. split; [repeat constructor|]; vm_compute; try reflexivity; lia. Qed.

Example scenario_5 :
  state (track (scenario [alice; bob]
    [near_alice 1 (9 # 10); near_alice 1 (1 # 10); near_alice 1 (1 # 10);
     near_alice 1 (1 # 10); near_alice 1 (9 # 10)])) = REJECTED.
Proof. vm_compute. reflexivity. Qed.



(** With an empty gallery the five frames of scenario 1 confirm nobody;
    nor do faces far from everyone enrolled. *)
Lemma unknown_never_confirms_witness :
  state (track (scenario [] five_good)) <> CONFIRMED /\
  events (scenario [] five_good) = [] /\
  state (track (scenario [alice; bob]
                  [near_alice 50 (9 # 10); near_alice 40 (9 # 10)])) <> CONFIRMED.
Proof.
  split; [|split].
  - apply (unknown_never_confirms Q line_distance linear_confidence 10 (6 # 10) (1 # 2)
             5 3 3 [] five_good).
    apply Forall_forall. intros ev _. left. reflexivity.
  - apply (unknown_never_confirms Q line_distance linear_confidence 10 (6 # 10) (1 # 2)
             5 3 3 [] five_good).
    apply Forall_forall. intros ev _. left. reflexivity.
  - apply (unknown_never_confirms Q line_distance linear_confidence 10 (6 # 10) (1 # 2)
             5 3 3 [alice; bob] [near_alice 50 (9 # 10); near_alice 40 (9 # 10)]).
    repeat (apply Forall_cons; split); [| |apply Forall_nil_2];
      right; intros g Hg;
      repeat (apply elem_of_cons in Hg as [->|Hg]); try (inversion Hg; fail);
      vm_compute; reflexivity.
Defined.

End Engine.
